(** * fastboot: the flashing orchestration engine of [fastboot/fastboot.cpp]

    A shallow embedding of the host-side flashing logic: slot resolution,
    the sparse-limit computation, the verified-boot footer and vbmeta
    rewriting, the fastboot-info interpreter and the task list built by
    [FlashAllTool].  Functions keep the names they have in the C++ source.

    Conventions.
    - [int], [int64_t] and [uint64_t] values are [Z]; conversions between them
      are written out ([to_int64], [to_uint64]).
    - [char] is an [ascii]; integer promotion is [char_to_int] and the
      narrowing conversion is [int_to_char].  Plain [char] is signed, as on
      the x86-64 hosts.
    - [std::string] used as text is a [string]; file contents are [list byte].
    - A file descriptor is the bytes of its file; reads and writes of
      descriptors and of temporary files succeed.
    - Messages logged with [LOG] or printed as warnings are left out; the
      message of a [die] and the lines printed before an [exit] are kept.
    - Code that talks to the device, reads or writes the file-scope globals,
      or can terminate the process lives in the monad [M] over [World].
    - Functions of libbase, liblp and libavb, and the task classes declared in
      [task.h], are collaborators: they are fields of the classes [LibBase]
      and [Collaborators]. *)

From Stdlib Require Import ZArith String Ascii List Bool Lia.
From Stdlib.Strings Require Import Byte.
From stdpp Require Import base list.
Import ListNotations.

Local Open Scope string_scope.
Local Open Scope list_scope.
Local Open Scope Z_scope.

(** ** C characters and fixed-width integers *)

Module C.

(** Integer promotion of a plain [char] (signed, 8 bits). *)
Definition char_to_int (c : ascii) : Z :=
  let n := Z.of_N (N_of_ascii c) in
  if n <? 128 then n else n - 256.

(** Conversion of an [int] to [char]: the low 8 bits. *)
Definition int_to_char (z : Z) : ascii :=
  ascii_of_N (Z.to_N (z mod 256)).

(** [static_cast<int64_t>] of an integer: two's complement wrap-around. *)
Definition to_int64 (z : Z) : Z :=
  (z + 2 ^ 63) mod 2 ^ 64 - 2 ^ 63.

(** Conversion to [uint64_t]. *)
Definition to_uint64 (z : Z) : Z := z mod 2 ^ 64.

(** [s[0]] of a [std::string]: the first character, or the terminating
    ['\0'] when the string is empty. *)
Definition front (s : string) : ascii :=
  match s with
  | String c _ => c
  | EmptyString => zero
  end.

(** [std::string(1, c)]. *)
Definition string1 (c : ascii) : string := String c EmptyString.

(** [s.size()]. *)
Definition size (s : string) : Z := Z.of_nat (String.length s).

(** [android::base::EndsWith(s, suffix)]. *)
Definition EndsWith (s suffix : string) : bool :=
  let n := String.length s in
  let k := String.length suffix in
  (k <=? n)%nat && String.eqb (substring (n - k) k s) suffix.

End C.

(** ** Outcomes and the monad of host-side code *)

(** How a run can end other than by returning. *)
Inductive Failure : Type :=
| Died (msg : string)
    (** [die(msg)] or [LOG(FATAL)]: the message is printed and the process
        exits with a failure status. *)
| Exited (code : Z) (err : list string)
    (** [exit(code)] after the lines [err] were printed on stderr. *)
| Crashed.
    (** Undefined behaviour or an uncaught exception: a null dereference, an
        access past the end of a [std::string], [std::out_of_range]. *)

Inductive Outcome (A : Type) : Type :=
| Ok (a : A)
| Fail (f : Failure).

Arguments Ok {A} a.
Arguments Fail {A} f.

(** The part of the process and device state the modelled functions see.
    [vars] is the device's answer to [GetVar] ([None] when the command
    fails); [getvar_sent] records the variables requested so far over the
    connection, most recent first. *)
Record World : Type := mkWorld {
  vars : string -> option string;
  getvar_sent : list string;
  target_sparse_limit : Z;
  flash_capturer : bool;
  g_disable_verity : bool;
  g_disable_verification : bool
}.

Definition M (A : Type) : Type := World -> Outcome A * World.

Definition ret {A} (a : A) : M A := fun w => (Ok a, w).

Definition bind {A B} (m : M A) (f : A -> M B) : M B :=
  fun w =>
    match m w with
    | (Ok a, w') => f a w'
    | (Fail e, w') => (Fail e, w')
    end.

Definition fail {A} (e : Failure) : M A := fun w => (Fail e, w).

Definition die {A} (msg : string) : M A := fail (Died msg).

Definition lift {A} (o : Outcome A) : M A := fun w => (o, w).

Declare Scope fb_scope.
Delimit Scope fb_scope with fb.
Notation "x <- m ;; k" := (bind m (fun x => k))
  (at level 100, m at next level, right associativity) : fb_scope.
Local Open Scope fb_scope.

Definition get {A} (proj : World -> A) : M A := fun w => (Ok (proj w), w).

(** [w] with the sparse-limit cache set to [v]. *)
Definition cached (v : Z) (w : World) : World :=
  mkWorld (vars w) (getvar_sent w) v (flash_capturer w)
          (g_disable_verity w) (g_disable_verification w).

Definition set_target_sparse_limit (v : Z) : M unit :=
  fun w => (Ok tt, cached v w).

Definition sent (name : string) (w : World) : World :=
  mkWorld (vars w) (name :: getvar_sent w) (target_sparse_limit w)
          (flash_capturer w) (g_disable_verity w) (g_disable_verification w).

(** [fb->GetVar(name, &value)]: [Some value] on [fastboot::SUCCESS]. *)
Definition GetVar (name : string) : M (option string) :=
  fun w => (Ok (vars w name), sent name w).

(** [has_flash_capturer()]. *)
Definition has_flash_capturer : M bool := get flash_capturer.

(** ** Collaborators from libbase *)

Class LibBase : Type := {
  (** [android::base::ParseInt] at type [int]. *)
  ParseInt : string -> option Z;
  (** [android::base::ParseUint] at type [uint32_t]. *)
  ParseUint32 : string -> option Z;
  (** [android::base::ParseUint] at type [uint64_t]. *)
  ParseUint64 : string -> option Z;
  (** [android::base::Trim]. *)
  Trim : string -> string
}.

(** ** Slot resolution *)

Section Slots.
Context `{LibBase}.

Definition get_current_slot : M string :=
  r <- GetVar "current-slot" ;;
  match r with
  | None => ret ""
  | Some current_slot =>
      match current_slot with
      | String "_" rest => ret rest
      | _ => ret current_slot
      end
  end.

Definition get_slot_count : M Z :=
  r <- GetVar "slot-count" ;;
  match r with
  | None => ret 0
  | Some var =>
      match ParseInt var with
      | Some count => ret count
      | None => ret 0
      end
  end.

Definition supports_AB : M bool :=
  count <- get_slot_count ;; ret (2 <=? count).

(** Given a current slot, this returns what the 'other' slot is. *)
Definition get_other_slot (current_slot : string) (count : Z) : string :=
  if count =? 0 then ""
  else
    let next :=
      C.int_to_char
        (Z.rem (C.char_to_int (C.front current_slot) - C.char_to_int "a" + 1) count
         + C.char_to_int "a") in
    C.string1 next.

(** The overload [get_other_slot(const std::string&)]. *)
Definition get_other_slot_of (current_slot : string) : M string :=
  count <- get_slot_count ;; ret (get_other_slot current_slot count).

(** The overload [get_other_slot(int count)]. *)
Definition get_other_slot_count (count : Z) : M string :=
  current <- get_current_slot ;; ret (get_other_slot current count).

(** The overload [get_other_slot()]: the current slot is queried first. *)
Definition get_other_slot_current : M string :=
  current <- get_current_slot ;;
  count <- get_slot_count ;;
  ret (get_other_slot current count).

(** The letters printed by the loop at the end of [verify_slot]:
    [(char)(i + 'a')] for [i] from [0] below [count]. *)
Definition supported_slots (count : Z) : list string :=
  map (fun i : nat => C.string1 (C.int_to_char (Z.of_nat i + C.char_to_int "a")))
      (seq 0 (Z.to_nat count)).

Definition verify_slot (slot_name : string) (allow_all : bool) : M string :=
  let slot := slot_name in
  if String.eqb slot "all" then
    if allow_all then ret "all"
    else
      count <- get_slot_count ;;
      if 0 <? count then ret "a" else die "No known slots"
  else
    count <- get_slot_count ;;
    if count =? 0 then die "Device does not support slots"
    else if String.eqb slot "other" then
      other <- get_other_slot_count count ;;
      if String.eqb other "" then die "No known slots" else ret other
    else if (C.size slot =? 1)
            && (0 <=? C.char_to_int (C.front slot) - C.char_to_int "a")
            && (C.char_to_int (C.front slot) - C.char_to_int "a" <? count)
    then ret slot
    else
      fail (Exited 1 (("Slot " ++ slot ++ " does not exist. supported slots are:")%string
                      :: supported_slots count)).

End Slots.

(** ** Data model *)

Inductive ImageType : Type := BootCritical | Normal | Extra.

Record Image : Type := mkImage {
  nickname : string;
  img_name : string;
  sig_name : string;
  part_name : string;
  optional_if_no_image : bool;
  type : ImageType
}.

(** Modelled from the spec: [Image::IsSecondary] is declared in [fastboot.h];
    the entries with an empty nickname are the secondary ("other"-slot)
    variants. *)
Definition IsSecondary (image : Image) : bool := String.eqb (nickname image) "".

(** The built-in image catalog. *)
Definition images : list Image := [
  mkImage "boot" "boot.img" "boot.sig" "boot" false BootCritical;
  mkImage "bootloader" "bootloader.img" "" "bootloader" true Extra;
  mkImage "init_boot" "init_boot.img" "init_boot.sig" "init_boot" true BootCritical;
  mkImage "" "boot_other.img" "boot.sig" "boot" true Normal;
  mkImage "cache" "cache.img" "cache.sig" "cache" true Extra;
  mkImage "dtbo" "dtbo.img" "dtbo.sig" "dtbo" true BootCritical;
  mkImage "dts" "dt.img" "dt.sig" "dts" true BootCritical;
  mkImage "odm" "odm.img" "odm.sig" "odm" true Normal;
  mkImage "odm_dlkm" "odm_dlkm.img" "odm_dlkm.sig" "odm_dlkm" true Normal;
  mkImage "product" "product.img" "product.sig" "product" true Normal;
  mkImage "pvmfw" "pvmfw.img" "pvmfw.sig" "pvmfw" true BootCritical;
  mkImage "radio" "radio.img" "" "radio" true Extra;
  mkImage "recovery" "recovery.img" "recovery.sig" "recovery" true BootCritical;
  mkImage "super" "super.img" "super.sig" "super" true Extra;
  mkImage "system" "system.img" "system.sig" "system" false Normal;
  mkImage "system_dlkm" "system_dlkm.img" "system_dlkm.sig" "system_dlkm" true Normal;
  mkImage "system_ext" "system_ext.img" "system_ext.sig" "system_ext" true Normal;
  mkImage "" "system_other.img" "system.sig" "system" true Normal;
  mkImage "userdata" "userdata.img" "userdata.sig" "userdata" true Extra;
  mkImage "vbmeta" "vbmeta.img" "vbmeta.sig" "vbmeta" true BootCritical;
  mkImage "vbmeta_system" "vbmeta_system.img" "vbmeta_system.sig" "vbmeta_system" true
          BootCritical;
  mkImage "vbmeta_vendor" "vbmeta_vendor.img" "vbmeta_vendor.sig" "vbmeta_vendor" true
          BootCritical;
  mkImage "vendor" "vendor.img" "vendor.sig" "vendor" true Normal;
  mkImage "vendor_boot" "vendor_boot.img" "vendor_boot.sig" "vendor_boot" true BootCritical;
  mkImage "vendor_dlkm" "vendor_dlkm.img" "vendor_dlkm.sig" "vendor_dlkm" true Normal;
  mkImage "vendor_kernel_boot" "vendor_kernel_boot.img" "vendor_kernel_boot.sig"
          "vendor_kernel_boot" true BootCritical;
  mkImage "" "vendor_other.img" "vendor.sig" "vendor" true Normal
].

(** [ImageSource]: [ReadFile] gives the bytes of a named file and [OpenFile]
    a descriptor on it; [None] stands for [false] and for a negative
    descriptor.  A descriptor is modelled by the bytes of its file: every
    modelled function leaves a descriptor it has read rewound to offset 0. *)
Record ImageSource : Type := mkImageSource {
  ReadFile : string -> option (list byte);
  OpenFile : string -> option (list byte)
}.

(** The fields of [FlashingPlan] the modelled code reads.  [source] is a
    [unique_ptr] and may be null; the device handle [fb] is the [World]. *)
Record FlashingPlan : Type := mkFlashingPlan {
  source : option ImageSource;
  slot_override : string;
  current_slot : string;
  secondary_slot : string;
  wants_wipe : bool;
  skip_secondary : bool;
  should_optimize_flash_super : bool;
  sparse_limit : Z
}.

(** The task classes of [task.h], one constructor per class, with the
    arguments the constructor calls in [fastboot.cpp] pass (the plan
    pointer apart). *)
Inductive Task : Type :=
| FlashTask (slot pname fname : string) (apply_vbmeta : bool)
| RebootTask (reboot_target : option string)
| WipeTask (pname : string)
| ResizeTask (pname size slot : string)
| DeleteTask (pname : string)
| UpdateSuperTask
| OptimizedFlashSuperTask.

Definition AsFlashTask (t : Task) : bool :=
  match t with FlashTask _ _ _ _ => true | _ => false end.

Definition GetPartition (t : Task) : string :=
  match t with FlashTask _ pname _ _ => pname | _ => "" end.

Inductive fb_buffer_type : Type := FB_BUFFER_FD | FB_BUFFER_SPARSE.

(** ** Collaborators: liblp, libsparse, [util.cpp], [task.cpp] and the
    environment of the process *)

Class Collaborators : Type := {
  (** [android::fs_mgr::LpMetadata] and its readers. *)
  LpMetadata : Type;
  ReadFromImageBlob : list byte -> option LpMetadata;
  ReadFromImageFile : string -> option LpMetadata;
  (** The overload [should_flash_in_userspace(const LpMetadata&, name)]. *)
  should_flash_in_userspace_metadata : LpMetadata -> string -> bool;
  (** [fb_fix_numeric_var] of [util.cpp]. *)
  fb_fix_numeric_var : string -> string;
  (** [getenv("ANDROID_PRODUCT_OUT")], [None] when unset or empty, and
      [access(path, R_OK) == 0]. *)
  ANDROID_PRODUCT_OUT : option string;
  access_R_OK : string -> bool;
  (** libsparse.  [sparse_file_import] and [sparse_file_import_auto] give
      [None] for a null handle; [sparse_file_len] is the length used by
      [load_buf_fd]; [sparse_file_resparse] gives [None] for a negative
      return value and otherwise the chunks. *)
  sparse_file : Type;
  sparse_file_import : list byte -> option sparse_file;
  sparse_file_import_auto : list byte -> option sparse_file;
  sparse_file_len : sparse_file -> Z;
  sparse_file_resparse : sparse_file -> Z -> option (list sparse_file);
  (** [get_file_size] of [util.cpp]: [-1] on failure. *)
  get_file_size : list byte -> Z;
  (** [FlashTask::IsDynamicPartition(source, flash_task)]. *)
  IsDynamicPartition : option ImageSource -> Task -> bool;
  (** [OptimizedFlashSuperTask::Initialize(fp, tasks)]: [None] for a null
      task; otherwise the task vector as the call leaves it, the new task
      being [OptimizedFlashSuperTask]. *)
  Initialize : FlashingPlan -> list Task -> M (option (list Task))
}.

Section Engine.
Context `{LibBase} `{Collaborators}.

Record fastboot_buffer : Type := mkBuffer {
  buf_type : fb_buffer_type;
  file_type : fb_buffer_type;
  files : list sparse_file;
  sz : Z;
  fd : list byte;
  image_size : Z
}.

(** ** Sparse limit *)

(** Don't resparse files in too-big chunks: 1GB. *)
Definition RESPARSE_LIMIT : Z := 1 * 1024 * 1024 * 1024.

Definition get_uint_var (var_name : string) : M Z :=
  r <- GetVar var_name ;;
  match r with
  | None => ret 0
  | Some value_str =>
      if String.eqb value_str "" then ret 0
      else
        match ParseUint64 (Trim value_str) with
        | None => ret 0
        | Some value => ret value
        end
  end.

(** The [limit] that [get_sparse_limit] settles on before it compares it
    with [size]; [None] is the early [return 0]. *)
Definition sparse_limit_choice (fp : FlashingPlan) : M (option Z) :=
  let limit := C.to_int64 (sparse_limit fp) in
  if limit =? 0 then
    capturing <- has_flash_capturer ;;
    if capturing : bool then die "sparse limit is not set"
    else
      cache <- get target_sparse_limit ;;
      _ <- (if cache =? -1 then
              value <- get_uint_var "max-download-size" ;;
              set_target_sparse_limit (C.to_int64 value)
            else ret tt) ;;
      cache <- get target_sparse_limit ;;
      if 0 <? cache then ret (Some cache) else ret None
  else ret (Some limit).

Definition get_sparse_limit (size : Z) (fp : FlashingPlan) : M Z :=
  choice <- sparse_limit_choice fp ;;
  match choice with
  | None => ret 0
  | Some limit =>
      if limit <? size then ret (Z.min limit RESPARSE_LIMIT) else ret 0
  end.

Definition resparse_file (s : sparse_file) (max_size : Z) : M (list sparse_file) :=
  if (max_size <=? 0) || (2 ^ 32 - 1 <? max_size) then die "invalid max size"
  else
    match sparse_file_resparse s max_size with
    | None => die "Failed to compute resparse boundaries"
    | Some chunks => ret chunks
    end.

Definition load_sparse_files (fd : list byte) (max_size : Z) : M (list sparse_file) :=
  match sparse_file_import_auto fd with
  | None => die "cannot sparse read file"
  | Some s => resparse_file s max_size
  end.

(** [load_buf_fd]: [None] for [false]; a field the source does not assign
    keeps the value it has in [buf]. *)
Definition load_buf_fd (file : list byte) (buf : fastboot_buffer) (fp : FlashingPlan)
  : M (option fastboot_buffer) :=
  let size := get_file_size file in
  if size =? -1 then ret None
  else
    let sized :=
      match sparse_file_import file with
      | Some s =>
          let len := sparse_file_len s in
          if len <? 0 then None
          else Some (mkBuffer (buf_type buf) FB_BUFFER_SPARSE (files buf) (sz buf) (fd buf) len)
      | None =>
          Some (mkBuffer (buf_type buf) FB_BUFFER_FD (files buf) (sz buf) (fd buf) size)
      end in
    match sized with
    | None => ret None
    | Some buf =>
        limit <- get_sparse_limit size fp ;;
        if limit =? 0 then
          ret (Some (mkBuffer FB_BUFFER_FD (file_type buf) (files buf) size file
                              (image_size buf)))
        else
          chunks <- load_sparse_files file limit ;;
          match chunks with
          | [] => ret None
          | _ => ret (Some (mkBuffer FB_BUFFER_SPARSE (file_type buf) chunks (sz buf) file
                                     (image_size buf)))
          end
    end.

(** ** Verified-boot footer and vbmeta *)

(** libavb's layout: [AVB_FOOTER_SIZE], the two magic markers, and the
    offset of [vbmeta_offset] in [AvbFooter] (after [magic], the two 32-bit
    version fields and the 64-bit [original_image_size]). *)
Definition AVB_FOOTER_SIZE : Z := 64.
Definition AVB_FOOTER_MAGIC : list byte := list_byte_of_string "AVBf".
Definition AVB_FOOTER_MAGIC_LEN : Z := 4.
Definition AVB_MAGIC : list byte := list_byte_of_string "AVB0".
Definition AVB_MAGIC_LEN : Z := 4.
Definition AvbFooter_vbmeta_offset : Z := 20.

(** [data.compare(pos, len, str) == 0]: [std::out_of_range] when [pos] is
    past the end, otherwise whether the (possibly shorter) substring is
    [str]. *)
Definition compare_eq (data : list byte) (pos len : Z) (str : list byte) : Outcome bool :=
  if Z.of_nat (length data) <? pos then Fail Crashed
  else
    Ok (forallb id
          (zip_with Byte.eqb (take (Z.to_nat len) (drop (Z.to_nat pos) data)) str)
        && (length (take (Z.to_nat len) (drop (Z.to_nat pos) data)) =? length str)%nat).

(** A big-endian integer from a list of bytes. *)
Definition be_to_Z (bs : list byte) : Z :=
  fold_left (fun acc b => acc * 256 + Z.of_N (Byte.to_N b)) bs 0.

(** [be64toh] of the 8 bytes at [data.c_str() + pos]; the buffer of
    [c_str()] is the string followed by one ['\0']. *)
Definition read_be64 (data : list byte) (pos : Z) : Outcome Z :=
  if pos + 8 <=? Z.of_nat (length data) + 1 then
    Ok (be_to_Z (take 8 (drop (Z.to_nat pos) (data ++ [x00]))))
  else Fail Crashed.

(** [c |= mask] on a [char]. *)
Definition or_assign (c : byte) (mask : N) : byte :=
  default c (Byte.of_N (N.lor (Byte.to_N c) mask mod 256)%N).

(** [data[pos] |= mask]: defined only below [data.size()]. *)
Definition or_at (data : list byte) (pos : Z) (mask : N) : Outcome (list byte) :=
  match data !! Z.to_nat pos with
  | Some c => Ok (<[Z.to_nat pos := or_assign c mask]> data)
  | None => Fail Crashed
  end.

Definition with_fd (buf : fastboot_buffer) (file : list byte) : fastboot_buffer :=
  mkBuffer (buf_type buf) (file_type buf) (files buf) (sz buf) file (image_size buf).

(** The offset of the vbmeta struct that [rewrite_vbmeta_buffer] works on:
    0, or the one named by the footer of a boot image. *)
Definition locate_vbmeta (buf : fastboot_buffer) (vbmeta_in_boot : bool) : M Z :=
  if vbmeta_in_boot then
    let footer_offset := C.to_uint64 (sz buf - AVB_FOOTER_SIZE) in
    found <- lift (compare_eq (fd buf) footer_offset AVB_FOOTER_MAGIC_LEN AVB_FOOTER_MAGIC) ;;
    if found : bool then lift (read_be64 (fd buf) (footer_offset + AvbFooter_vbmeta_offset))
    else die "Failed to find AVB_FOOTER at offset, is BOARD_AVB_ENABLE true?"
  else ret 0.

Definition rewrite_vbmeta_buffer (buf : fastboot_buffer) (vbmeta_in_boot : bool)
  : M fastboot_buffer :=
  (* Buffer needs to be at least the size of the VBMeta struct which is 256 bytes. *)
  if sz buf <? 256 then ret buf
  else
    let data := fd buf in
    vbmeta_offset <- locate_vbmeta buf vbmeta_in_boot ;;
    (* Ensures there is AVB_MAGIC at vbmeta_offset. *)
    found <- lift (compare_eq data vbmeta_offset AVB_MAGIC_LEN AVB_MAGIC) ;;
    if found : bool then
      let flags_offset := C.to_uint64 (123 + vbmeta_offset) in
      verity <- get g_disable_verity ;;
      data <- (if verity : bool then lift (or_at data flags_offset 1) else ret data) ;;
      verification <- get g_disable_verification ;;
      data <- (if verification : bool then lift (or_at data flags_offset 2) else ret data) ;;
      ret (with_fd buf data)
    else die "Failed to find AVB_MAGIC at offset".

Definition is_vbmeta_partition (partition : string) : bool :=
  C.EndsWith partition "vbmeta" || C.EndsWith partition "vbmeta_a"
  || C.EndsWith partition "vbmeta_b".

(** Note: this only works in userspace fastboot. *)
Definition is_logical (partition : string) : M bool :=
  r <- GetVar ("is-logical:" ++ partition)%string ;;
  match r with
  | Some value => ret (String.eqb value "yes")
  | None => ret false
  end.

Definition get_partition_size (partition : string) : M Z :=
  r <- GetVar ("partition-size:" ++ partition)%string ;;
  match r with
  | None =>
      logical <- is_logical partition ;;
      if logical : bool then die "cannot get partition size" else ret 0
  | Some partition_size_str =>
      match ParseUint64 (fb_fix_numeric_var partition_size_str) with
      | None =>
          logical <- is_logical partition ;;
          if logical : bool then die "Couldn't parse partition size" else ret 0
      | Some partition_size => ret partition_size
      end
  end.

Definition find_item_given_name (name : string) : Outcome string :=
  match ANDROID_PRODUCT_OUT with
  | None => Fail (Died "ANDROID_PRODUCT_OUT not set")
  | Some dir => Ok (dir ++ "/" ++ name)%string
  end.

(** [should_flash_in_userspace(source, partition_name)].  With a source
    bound, the metadata read from [super_empty.img] is dereferenced without
    a null check. *)
Definition should_flash_in_userspace (source : option ImageSource) (partition_name : string)
  : Outcome bool :=
  match source with
  | None =>
      match ANDROID_PRODUCT_OUT with
      | None => Ok false
      | Some _ =>
          match find_item_given_name "super_empty.img" with
          | Fail e => Fail e
          | Ok path =>
              if String.eqb path "" || negb (access_R_OK path) then Ok false
              else
                match ReadFromImageFile path with
                | None => Ok false
                | Some metadata => Ok (should_flash_in_userspace_metadata metadata partition_name)
                end
          end
      end
  | Some src =>
      match ReadFile src "super_empty.img" with
      | None => Ok false
      | Some contents =>
          match ReadFromImageBlob contents with
          | None => Fail Crashed
          | Some metadata => Ok (should_flash_in_userspace_metadata metadata partition_name)
          end
      end
  end.

(** The file written by the tail of [copy_avb_footer]: [data] from offset 0,
    then, after a seek to [pos], the bytes [footer]; a gap is a hole of
    zero bytes. *)
Definition write_footer_at (data : list byte) (pos : Z) (footer : list byte) : list byte :=
  let p := Z.to_nat pos in
  take p (data ++ replicate (p - length data) x00) ++ footer
  ++ drop (p + length footer) data.

Definition copy_avb_footer (source : option ImageSource) (partition : string)
  (buf : fastboot_buffer) : M fastboot_buffer :=
  if sz buf <? AVB_FOOTER_SIZE then ret buf
  else
    logical <- is_logical partition ;;
    if logical : bool then ret buf
    else
      userspace <- lift (should_flash_in_userspace source partition) ;;
      if userspace : bool then ret buf
      else
        (* If the image is sparse, moving the footer will simply corrupt the
           sparse format. *)
        match file_type buf with
        | FB_BUFFER_SPARSE => ret buf
        | FB_BUFFER_FD =>
            size <- get_partition_size partition ;;
            let partition_size := C.to_int64 size in
            if partition_size =? sz buf then ret buf
            else if partition_size <? sz buf then ret buf
            else
              let data := fd buf in
              let footer_offset := C.to_uint64 (sz buf - AVB_FOOTER_SIZE) in
              found <- lift (compare_eq data footer_offset AVB_FOOTER_MAGIC_LEN
                                        AVB_FOOTER_MAGIC) ;;
              if found : bool then
                let file :=
                  write_footer_at data (partition_size - AVB_FOOTER_SIZE)
                                  (drop (Z.to_nat footer_offset) data) in
                ret (mkBuffer (buf_type buf) (file_type buf) (files buf) partition_size file
                              (image_size buf))
              else ret buf
        end.

End Engine.

(** ** libbase string splitting *)

Definition is_delimiter (delimiters : string) (c : ascii) : bool :=
  existsb (Ascii.eqb c) (list_ascii_of_string delimiters).

(** [android::base::Tokenize(s, delimiters)]: the maximal runs of
    non-delimiter characters; [tok] is the run being read. *)
Fixpoint Tokenize_from (s delimiters tok : string) : list string :=
  match s with
  | EmptyString => if String.eqb tok "" then [] else [tok]
  | String c rest =>
      if is_delimiter delimiters c then
        (if String.eqb tok "" then [] else [tok]) ++ Tokenize_from rest delimiters ""
      else Tokenize_from rest delimiters (tok ++ String c "")%string
  end.

Definition Tokenize (s delimiters : string) : list string := Tokenize_from s delimiters "".

(** [android::base::Split(s, delimiters)]: the pieces between delimiters,
    empty ones included. *)
Fixpoint Split_from (s delimiters tok : string) : list string :=
  match s with
  | EmptyString => [tok]
  | String c rest =>
      if is_delimiter delimiters c then tok :: Split_from rest delimiters ""
      else Split_from rest delimiters (tok ++ String c "")%string
  end.

Definition Split (s delimiters : string) : list string := Split_from s delimiters "".

(** ** The fastboot-info interpreter *)

Definition FASTBOOT_INFO_VERSION : Z := 1.

Section Tasks.
Context `{LibBase} `{Collaborators}.

(** The loop of [ParseFlashCommand] over [parts]; [None] is the
    [return nullptr] for an unknown argument. *)
Fixpoint ParseFlashCommand_parts (fp : FlashingPlan) (parts : list string)
  (apply_vbmeta : bool) (slot partition img_name : string)
  : option (bool * string * string * string) :=
  match parts with
  | [] => Some (apply_vbmeta, slot, partition, img_name)
  | part :: rest =>
      if String.eqb part "--apply-vbmeta" then
        ParseFlashCommand_parts fp rest true slot partition img_name
      else if String.eqb part "--slot-other" then
        ParseFlashCommand_parts fp rest apply_vbmeta (secondary_slot fp) partition img_name
      else if String.eqb partition "" then
        ParseFlashCommand_parts fp rest apply_vbmeta slot part img_name
      else if String.eqb img_name "" then
        ParseFlashCommand_parts fp rest apply_vbmeta slot partition part
      else None
  end.

Definition ParseFlashCommand (fp : FlashingPlan) (parts : list string) : option Task :=
  match ParseFlashCommand_parts fp parts false (slot_override fp) "" "" with
  | None => None
  | Some (apply_vbmeta, slot, partition, img_name) =>
      if String.eqb partition "" then None
      else
        let img_name :=
          if String.eqb img_name "" then (partition ++ ".img")%string else img_name in
        Some (FlashTask slot partition img_name apply_vbmeta)
  end.

Definition ParseRebootCommand (fp : FlashingPlan) (parts : list string) : option Task :=
  match parts with
  | [] => Some (RebootTask None)
  | [target] => Some (RebootTask (Some target))
  | _ => None
  end.

Definition ParseWipeCommand (fp : FlashingPlan) (parts : list string) : option Task :=
  match parts with
  | [pname] => Some (WipeTask pname)
  | _ => None
  end.

Definition ParseFastbootInfoLine (fp : FlashingPlan) (command : list string) : option Task :=
  match command with
  | [] => None
  | command0 :: args =>
      if String.eqb command0 "flash" then ParseFlashCommand fp args
      else if String.eqb command0 "reboot" then ParseRebootCommand fp args
      else if String.eqb command0 "update-super" && (length command =? 1)%nat then
        Some UpdateSuperTask
      else if String.eqb command0 "erase" && (length command =? 2)%nat then
        ParseWipeCommand fp args
      else None
  end.

(** The scan of [AddResizeTasks]: the index of the first flash task of a
    dynamic partition, and one resize task per such flash task. *)
Fixpoint AddResizeTasks_scan (fp : FlashingPlan) (tasks : list Task) (i : nat)
  (loc : option nat) (resize_tasks : list Task) : option nat * list Task :=
  match tasks with
  | [] => (loc, resize_tasks)
  | task :: rest =>
      if AsFlashTask task && IsDynamicPartition (source fp) task then
        AddResizeTasks_scan fp rest (S i)
          (match loc with None => Some i | Some _ => loc end)
          (resize_tasks ++ [ResizeTask (GetPartition task) "0" (slot_override fp)])
      else AddResizeTasks_scan fp rest (S i) loc resize_tasks
  end.

(** [AddResizeTasks]: the returned flag and the task vector afterwards.
    A null [fp->source] is dereferenced. *)
Definition AddResizeTasks (fp : FlashingPlan) (tasks : list Task)
  : Outcome (bool * list Task) :=
  match source fp with
  | None => Fail Crashed
  | Some src =>
      match ReadFile src "super_empty.img" with
      | None => Ok (false, tasks)
      | Some contents =>
          match ReadFromImageBlob contents with
          | None => Ok (false, tasks)
          | Some _ =>
              match AddResizeTasks_scan fp tasks 0 None [] with
              | (None, _) => Ok (false, tasks)
              | (Some loc, resize_tasks) =>
                  Ok (true, take loc tasks ++ resize_tasks ++ drop loc tasks)
              end
          end
      end
  end.

Definition IsIgnore (command : list string) : bool :=
  match command with
  | [] => true
  | command0 :: _ => Ascii.eqb (C.front command0) "#"
  end.

Definition CheckFastbootInfoRequirements (command : list string) (host_tool_version : Z)
  : bool :=
  match command with
  | [command0; command1] =>
      if negb (String.eqb command0 "version") then false
      else
        match ParseUint32 command1 with
        | None => false
        | Some fastboot_info_version => fastboot_info_version <=? host_tool_version
        end
  | _ => false
  end.

(** What the loop body of [ParseFastbootInfo] does with one line. *)
Inductive LineAction : Type :=
| Continue               (** [continue]: the line adds nothing *)
| ReturnEmpty            (** [return {}] *)
| EmplaceBack (task : Task).

Definition ParseFastbootInfo_line (fp : FlashingPlan) (text : string) : LineAction :=
  let command := Tokenize text " " in
  let parse command :=
    match ParseFastbootInfoLine fp command with
    | None => ReturnEmpty
    | Some task => EmplaceBack task
    end in
  if IsIgnore command then Continue
  else if (1 <? length command)%nat && String.eqb (hd "" command) "version" then
    if CheckFastbootInfoRequirements command FASTBOOT_INFO_VERSION then Continue
    else ReturnEmpty
  else if (2 <=? length command)%nat && String.eqb (hd "" command) "if-wipe" then
    if wants_wipe fp then parse (tl command) else Continue
  else parse command.

(** The [for] loop of [ParseFastbootInfo]; [None] is the [return {}]. *)
Fixpoint ParseFastbootInfo_loop (fp : FlashingPlan) (file : list string) (tasks : list Task)
  : option (list Task) :=
  match file with
  | [] => Some tasks
  | text :: rest =>
      match ParseFastbootInfo_line fp text with
      | Continue => ParseFastbootInfo_loop fp rest tasks
      | ReturnEmpty => None
      | EmplaceBack task => ParseFastbootInfo_loop fp rest (tasks ++ [task])
      end
  end.

Definition ParseFastbootInfo (fp : FlashingPlan) (file : list string) : M (list Task) :=
  match ParseFastbootInfo_loop fp file [] with
  | None => ret []
  | Some tasks =>
      flash_super_task <- Initialize fp tasks ;;
      match flash_super_task with
      | Some tasks => ret (tasks ++ [OptimizedFlashSuperTask])
      | None =>
          added <- lift (AddResizeTasks fp tasks) ;;
          ret (snd added)
      end
  end.

(** ** FlashAllTool *)

(** [CollectImages] on a fresh tool: [boot_images_] and [os_images_]. *)
Fixpoint CollectImages (fp : FlashingPlan) (imgs : list Image)
  : list (Image * string) * list (Image * string) :=
  match imgs with
  | [] => ([], [])
  | image :: rest =>
      let (boot_images, os_images) := CollectImages fp rest in
      if IsSecondary image && skip_secondary fp then (boot_images, os_images)
      else
        let slot := if IsSecondary image then secondary_slot fp else slot_override fp in
        match type image with
        | BootCritical => ((image, slot) :: boot_images, os_images)
        | Normal => (boot_images, (image, slot) :: os_images)
        | Extra => (boot_images, os_images)
        end
  end.

(** The local [fastboot_buffer buf] of [AddFlashTasks]: its scalar fields
    are indeterminate and never read. *)
Definition local_buffer : fastboot_buffer :=
  mkBuffer FB_BUFFER_FD FB_BUFFER_FD [] 0 [] 0.

Fixpoint AddFlashTasks (fp : FlashingPlan) (imgs : list (Image * string)) (tasks : list Task)
  : M (list Task) :=
  match imgs with
  | [] => ret tasks
  | (image, slot) :: rest =>
      match source fp with
      | None => fail Crashed
      | Some src =>
          loaded <- match OpenFile src (img_name image) with
                    | None => ret false
                    | Some file =>
                        buf <- load_buf_fd file local_buffer fp ;;
                        ret (match buf with Some _ => true | None => false end)
                    end ;;
          if loaded : bool then
            AddFlashTasks fp rest
              (tasks ++ [FlashTask slot (part_name image) (img_name image)
                                   (is_vbmeta_partition (part_name image))])
          else if optional_if_no_image image then AddFlashTasks fp rest tasks
          else die ("could not load '" ++ img_name image ++ "'")%string
      end
  end.

(** [FlashAllTool::CollectTasksFromImageList] over the catalog [imgs]. *)
Definition CollectTasksFromImageList (imgs : list Image) (fp : FlashingPlan)
  : M (list Task) :=
  let (boot_images, os_images) := CollectImages fp imgs in
  (* First flash boot partitions. *)
  tasks <- AddFlashTasks fp boot_images [] ;;
  (* Sync the super partition. *)
  let tasks := tasks ++ [UpdateSuperTask] in
  tasks <- AddFlashTasks fp os_images tasks ;;
  flash_super_task <- Initialize fp tasks ;;
  match flash_super_task with
  | Some tasks => ret (tasks ++ [OptimizedFlashSuperTask])
  | None =>
      (* Resize any logical partition to 0. *)
      added <- lift (AddResizeTasks fp tasks) ;;
      ret (snd added)
  end.

Definition CollectTasksFromFastbootInfo (imgs : list Image) (fp : FlashingPlan)
  : M (list Task) :=
  match source fp with
  | None => fail Crashed
  | Some src =>
      match ReadFile src "fastboot-info.txt" with
      | None => CollectTasksFromImageList imgs fp
      | Some contents => ParseFastbootInfo fp (Split (string_of_list_byte contents) (String "010" ""))
      end
  end.

End Tasks.

(** ** A reference instance of the collaborators

    Decimal number parsing, [system] as the one dynamic partition, no super
    optimisation: the environment in which the examples below are
    evaluated. *)

Module Reference.

Definition digit_value (c : ascii) : option Z :=
  let n := Z.of_N (N_of_ascii c) in
  if (48 <=? n) && (n <=? 57) then Some (n - 48) else None.

Fixpoint parse_digits (s : string) (acc : Z) : option Z :=
  match s with
  | EmptyString => Some acc
  | String c rest =>
      match digit_value c with
      | Some d => parse_digits rest (acc * 10 + d)
      | None => None
      end
  end.

(** An unsigned decimal numeral not above [max]. *)
Definition parse_decimal (max : Z) (s : string) : option Z :=
  match s with
  | EmptyString => None
  | _ =>
      match parse_digits s 0 with
      | Some v => if v <=? max then Some v else None
      | None => None
      end
  end.

#[export] Instance libbase : LibBase := {|
  ParseInt := parse_decimal (2 ^ 31 - 1);
  ParseUint32 := parse_decimal (2 ^ 32 - 1);
  ParseUint64 := parse_decimal (2 ^ 64 - 1);
  Trim := fun s => s
|}.

#[export] Instance collaborators : Collaborators := {|
  LpMetadata := unit;
  ReadFromImageBlob := fun _ => Some tt;
  ReadFromImageFile := fun _ => Some tt;
  should_flash_in_userspace_metadata := fun _ _ => false;
  fb_fix_numeric_var := fun s => s;
  ANDROID_PRODUCT_OUT := None;
  access_R_OK := fun _ => false;
  sparse_file := unit;
  sparse_file_import := fun _ => None;
  sparse_file_import_auto := fun _ => None;
  sparse_file_len := fun _ => 0;
  sparse_file_resparse := fun _ _ => None;
  get_file_size := fun file => Z.of_nat (length file);
  IsDynamicPartition := fun _ task => String.eqb (GetPartition task) "system";
  Initialize := fun _ _ => ret None
|}.

(** A device that answers the given variables. *)
Fixpoint device (table : list (string * string)) (name : string) : option string :=
  match table with
  | [] => None
  | (k, v) :: rest => if String.eqb k name then Some v else device rest name
  end.

Definition world (table : list (string * string)) : World :=
  mkWorld (device table) [] (-1) false false false.

(** An image source holding the named files. *)
Fixpoint lookup_file (dir : list (string * list byte)) (name : string) : option (list byte) :=
  match dir with
  | [] => None
  | (k, v) :: rest => if String.eqb k name then Some v else lookup_file rest name
  end.

Definition image_source (dir : list (string * list byte)) : ImageSource :=
  mkImageSource (lookup_file dir) (lookup_file dir).

Definition plan (dir : list (string * list byte)) (wipe : bool) : FlashingPlan :=
  mkFlashingPlan (Some (image_source dir)) "" "" "" wipe true true 0.

End Reference.

(** ** Notions used to state the properties *)

(** The name of slot number [c]: the letter [c] places after ['a']. *)
Definition slot_letter (c : Z) : string :=
  C.string1 (C.int_to_char (c + C.char_to_int "a")).

(** With [N] slots and current slot [c], [get_other_slot] applied twice
    gives [c] back exactly when there are two slots, and with more than two
    it gives the cyclic successor of [c]. *)
Definition other_slot_cycles (N c : Z) : Prop :=
  (get_other_slot (get_other_slot (slot_letter c) N) N = slot_letter c <-> N = 2)
  /\ (2 < N -> get_other_slot (slot_letter c) N = slot_letter ((c + 1) mod N)).

(** The reading of "for every slot count [N >= 2] and current slot [c] in
    [0, N)". *)
Definition other_slot_cycles_for_every_count : Prop :=
  forall N c : Z, 2 <= N -> 0 <= c < N -> other_slot_cycles N c.

Section SpecNotions.
Context `{LibBase} `{Collaborators}.

(** The reading of "the plan's explicit limit is used as it is": when the
    plan carries a limit [L] and the image is larger, the limit returned for
    resparsing is [L]. *)
Definition explicit_limit_returned : Prop :=
  forall (fp : FlashingPlan) (size : Z) (w : World),
    0 < sparse_limit fp < 2 ^ 63 -> sparse_limit fp < size ->
    fst (get_sparse_limit size fp w) = Ok (sparse_limit fp).

(** The limit [get_sparse_limit] answers with once a limit is known:
    nothing to do when the image fits, else the limit capped at 1 GiB. *)
Definition resparse_answer (limit size : Z) : Z :=
  if limit <? size then Z.min limit RESPARSE_LIMIT else 0.

(** The bits [rewrite_vbmeta_buffer] is asked to set: bit 0 for
    disable-verity, bit 1 for disable-verification. *)
Definition requested_flags (w : World) : N :=
  N.lor (if g_disable_verity w then 1 else 0) (if g_disable_verification w then 2 else 0).

(** A vbmeta struct starts at offset [vbmeta_offset] of [data]: its 256
    bytes lie inside the data and begin with the magic marker.  The size of
    a [std::string] fits in 64 bits. *)
Definition carries_vbmeta (data : list byte) (vbmeta_offset : Z) : Prop :=
  0 <= vbmeta_offset
  /\ vbmeta_offset + 256 <= Z.of_nat (length data)
  /\ Z.of_nat (length data) < 2 ^ 64
  /\ take 4 (drop (Z.to_nat vbmeta_offset) data) = AVB_MAGIC.

(** The reading of "on a buffer carrying a valid vbmeta magic the requested
    bit is set": every vbmeta image that begins with the magic marker and
    holds the flag byte comes back with bit 0 of that byte set when
    disable-verity is requested. *)
Definition flag_set_on_every_vbmeta : Prop :=
  forall (buf : fastboot_buffer) (w : World),
    Z.of_nat (length (fd buf)) = sz buf ->
    take 4 (fd buf) = AVB_MAGIC -> (123 < length (fd buf))%nat ->
    g_disable_verity w = true ->
    exists (buf' : fastboot_buffer) (flags : byte),
      rewrite_vbmeta_buffer buf false w = (Ok buf', w)
      /\ fd buf' !! 123%nat = Some flags
      /\ N.testbit (Byte.to_N flags) 0 = true.

End SpecNotions.

(** *** Ordering of a task list *)

(** In [tasks], every task satisfying [P] comes before every task
    satisfying [Q]. *)
Definition precedes (P Q : Task -> Prop) (tasks : list Task) : Prop :=
  forall (i j : nat) (x y : Task),
    tasks !! i = Some x -> tasks !! j = Some y -> P x -> Q y -> (i < j)%nat.

(** [tasks] splits into a front part free of [Q] and a back part free of
    [P]. *)
Definition separated (P Q : Task -> Prop) (tasks : list Task) : Prop :=
  exists front back : list Task,
    tasks = front ++ back
    /\ Forall (fun t => ~ Q t) front /\ Forall (fun t => ~ P t) back.

Definition is_resize (t : Task) : Prop :=
  match t with ResizeTask _ _ _ => True | _ => False end.

Definition ImageType_eqb (a b : ImageType) : bool :=
  match a, b with
  | BootCritical, BootCritical | Normal, Normal | Extra, Extra => true
  | _, _ => false
  end.

(** No two entries of the catalog with the same partition and file name
    differ in type, so that a flash task tells the type of its image. *)
Definition catalog_unambiguous (imgs : list Image) : bool :=
  forallb (fun a =>
    forallb (fun b =>
      implb (String.eqb (part_name a) (part_name b)
             && String.eqb (img_name a) (img_name b))
            (ImageType_eqb (type a) (type b))) imgs) imgs.

(** [t] is the task [AddFlashTasks] makes for an image of type [ty]. *)
Definition flashes_image (imgs : list Image) (ty : ImageType) (t : Task) : Prop :=
  exists (image : Image) (slot : string),
    image ∈ imgs /\ type image = ty
    /\ t = FlashTask slot (part_name image) (img_name image)
                     (is_vbmeta_partition (part_name image)).

Definition is_update_super (t : Task) : Prop := t = UpdateSuperTask.

(** The task made by [AddFlashTasks] for an entry of [entries]. *)
Definition flash_task_of (entries : list (Image * string)) (t : Task) : Prop :=
  exists (image : Image) (slot : string),
    (image, slot) ∈ entries
    /\ t = FlashTask slot (part_name image) (img_name image)
                    (is_vbmeta_partition (part_name image)).


Section ScriptNotions.
Context `{LibBase} `{Collaborators}.

(** What is assumed of [OptimizedFlashSuperTask::Initialize]: when it makes
    a task it may take tasks out of the vector, and does nothing else to
    it. *)
Definition Initialize_only_removes : Prop :=
  forall (fp : FlashingPlan) (tasks tasks' : list Task) (w w' : World),
    Initialize fp tasks w = (Ok (Some tasks'), w') -> sublist tasks' tasks.

(** *** Lines of a fastboot-info script that are not understood *)

Definition is_flag (part : string) : bool :=
  String.eqb part "--apply-vbmeta" || String.eqb part "--slot-other".

(** The arguments of [flash] that are not flags: partition, image name. *)
Definition positional (parts : list string) : list string :=
  List.filter (fun part => negb (is_flag part)) parts.

(** How many more positional arguments the loop of [ParseFlashCommand]
    can take. *)
Definition room (partition img_name : string) : nat :=
  (if String.eqb partition "" then 1 else 0) + (if String.eqb img_name "" then 1 else 0).

(** A directive that is unrecognized, or recognized but malformed. *)
Inductive malformed_directive : list string -> Prop :=
| unknown_directive (name : string) (args : list string) :
    name <> "flash" -> name <> "reboot" -> name <> "update-super" -> name <> "erase" ->
    malformed_directive (name :: args)
| flash_without_partition (args : list string) :
    positional args = [] -> malformed_directive ("flash" :: args)
| flash_with_extra_argument (args : list string) :
    (2 < length (positional args))%nat -> malformed_directive ("flash" :: args)
| reboot_with_extra_argument (args : list string) :
    (1 < length args)%nat -> malformed_directive ("reboot" :: args)
| update_super_with_argument (args : list string) :
    args <> [] -> malformed_directive ("update-super" :: args)
| erase_without_one_partition (args : list string) :
    length args <> 1%nat -> malformed_directive ("erase" :: args).

(** The tokens of a line that carries something the host tool does not
    understand: a version line that is malformed or names a version above
    the host's, or a malformed directive, alone or after [if-wipe].
    [wipe_checked] tells whether the directive after [if-wipe] counts. *)
Inductive rejected_line (wipe_checked : bool) : list string -> Prop :=
| version_malformed (number : string) (more : list string) :
    more <> [] \/ ParseUint32 number = None ->
    rejected_line wipe_checked ("version" :: number :: more)
| version_unsupported (number : string) (v : Z) :
    ParseUint32 number = Some v -> FASTBOOT_INFO_VERSION < v ->
    rejected_line wipe_checked ["version"; number]
| if_wipe_malformed (name : string) (args : list string) :
    wipe_checked = true -> malformed_directive (name :: args) ->
    rejected_line wipe_checked ("if-wipe" :: name :: args)
| directive_malformed (name : string) (args : list string) :
    C.front name <> "#"%char ->
    ~ (name = "version" /\ args <> []) -> ~ (name = "if-wipe" /\ args <> []) ->
    malformed_directive (name :: args) ->
    rejected_line wipe_checked (name :: args).

(** The reading of "a script with a line that is not understood yields no
    tasks" in which the directive after [if-wipe] always counts. *)
Definition fails_closed_on_every_line : Prop :=
  forall (fp : FlashingPlan) (file : list string) (w : World) (text : string),
    text ∈ file -> rejected_line true (Tokenize text " ") ->
    ParseFastbootInfo fp file w = (Ok [], w).

(** The tasks the script of the if-wipe scenario stands for. *)
Definition flash_boot (fp : FlashingPlan) : Task :=
  FlashTask (slot_override fp) "boot" "boot.img" false.

Definition if_wipe_tasks (fp : FlashingPlan) : list Task :=
  if wants_wipe fp then [flash_boot fp; WipeTask "userdata"] else [flash_boot fp].

End ScriptNotions.

(** The script of the if-wipe scenario; [newline] is the line feed. *)
Definition newline : string := String "010" "".

Definition if_wipe_script : string :=
  ("version 1" ++ newline ++ "flash boot" ++ newline ++ "if-wipe erase userdata"
   ++ newline)%string.

(** ** Sample inputs *)

Module Samples.
Import Reference.

(** A vbmeta struct: the magic marker and 252 further bytes. *)
Definition vbmeta_struct : list byte := AVB_MAGIC ++ replicate 252 x00.

(** A footer naming offset 64 as the place of the vbmeta struct. *)
Definition avb_footer : list byte :=
  AVB_FOOTER_MAGIC ++ replicate 16 x00
  ++ [x00; x00; x00; x00; x00; x00; x00; x40] ++ replicate 36 x00.

(** A boot image: 64 bytes of payload, the vbmeta struct, the footer. *)
Definition boot_image : list byte := replicate 64 xff ++ vbmeta_struct ++ avb_footer.

Definition boot_buffer : fastboot_buffer :=
  mkBuffer FB_BUFFER_FD FB_BUFFER_FD [] 384 boot_image 384.

(** A short file that holds no vbmeta magic. *)
Definition short_buffer : fastboot_buffer :=
  mkBuffer FB_BUFFER_FD FB_BUFFER_FD [] 10 (replicate 10 xff) 10.

(** A sparse image file of 100 bytes. *)
Definition sparse_buffer : fastboot_buffer :=
  mkBuffer FB_BUFFER_FD FB_BUFFER_SPARSE [] 100 (replicate 100 x00) 4096.

(** A product directory with four of the catalog's images and the
    metadata of the super partition. *)
Definition product_out : list (string * list byte) :=
  [("boot.img", [x01; x02]); ("vbmeta.img", vbmeta_struct); ("system.img", [x03]);
   ("vendor_other.img", [x04]); ("super_empty.img", [x05])].

(** Both overrides requested on the command line. *)
Definition disabling_world : World := mkWorld (device []) [] (-1) false true true.

End Samples.

(** ** Further code of [fastboot.cpp] *)

(** [android::base::Join(tokens, separator)]. *)
Fixpoint Join (tokens : list string) (separator : string) : string :=
  match tokens with
  | [] => ""
  | [token] => token
  | token :: rest => (token ++ separator ++ Join rest separator)%string
  end.

(** [android::base::StartsWith(s, prefix)]. *)
Definition StartsWith (s prefix : string) : bool := String.prefix prefix s.

Section Partitions.
Context `{LibBase}.

(** The name [do_for_partition] calls [func] with.  [func] is called once,
    last, so that [do_for_partition(part, slot, func, force_slot)] is this
    computation followed by [func]; the warning printed for [force_slot] is
    left out. *)
Definition do_for_partition (part slot : string) (force_slot : bool) : M string :=
  (* |part| can be vendor_boot:default. Append slot to the first token. *)
  let part_tokens := Split part ":" in
  r <- GetVar ("has-slot:" ++ hd "" part_tokens)%string ;;
  (* If has-slot is not supported, the answer is no. *)
  let has_slot := match r with Some value => value | None => "no" end in
  if String.eqb has_slot "yes" then
    if String.eqb slot "" then
      current_slot <- get_current_slot ;;
      if String.eqb current_slot "" then die "Failed to identify current slot"
      else ret (Join ((hd "" part_tokens ++ "_" ++ current_slot)%string :: tl part_tokens) ":")
    else ret (Join ((hd "" part_tokens ++ "_" ++ slot)%string :: tl part_tokens) ":")
  else ret part.

(** The [for] loop of [do_for_partitions] from index [i] on: [count] is the
    slot count just read by the loop test, which is read again after each
    round.  No modelled call changes the device's answer, so [rounds], the
    count first read, bounds the rounds. *)
Fixpoint do_for_slots (rounds : nat) (i count : Z) (part : string) (force_slot : bool)
  : M (list string) :=
  if i <? count then
    match rounds with
    | O => fail Crashed
    | S rounds =>
        name <- do_for_partition part (C.string1 (C.int_to_char (i + C.char_to_int "a")))
                                 force_slot ;;
        count <- get_slot_count ;;
        names <- do_for_slots rounds (i + 1) count part force_slot ;;
        ret (name :: names)
    end
  else ret [].

(** [do_for_partitions]: the names [func] is called with, in call order.
    The effects of [func] itself are not part of the model. *)
Definition do_for_partitions (part slot : string) (force_slot : bool) : M (list string) :=
  let part_tokens := Split part ":" in
  if String.eqb slot "all" then
    r <- GetVar ("has-slot:" ++ hd "" part_tokens)%string ;;
    match r with
    | None => die "Could not check if partition has slot"
    | Some has_slot =>
        if String.eqb has_slot "yes" then
          count <- get_slot_count ;;
          do_for_slots (Z.to_nat count) 0 count part force_slot
        else
          name <- do_for_partition part "" force_slot ;; ret [name]
    end
  else
    name <- do_for_partition part slot force_slot ;; ret [name].

(** [FlashAllTool::DetermineSlot]: the plan afterwards.  The warning about
    the secondary slot is left out; the [supports_AB] query that guards it
    is made. *)
Definition DetermineSlot (fp : FlashingPlan) : M FlashingPlan :=
  current <- (if String.eqb (slot_override fp) "" then get_current_slot
              else ret (slot_override fp)) ;;
  let fp := mkFlashingPlan (source fp) (slot_override fp) current (secondary_slot fp)
                           (wants_wipe fp) (skip_secondary fp)
                           (should_optimize_flash_super fp) (sparse_limit fp) in
  if skip_secondary fp then ret fp
  else
    secondary <- (if negb (String.eqb (slot_override fp) "")
                     && negb (String.eqb (slot_override fp) "all")
                  then get_other_slot_of (slot_override fp)
                  else get_other_slot_current) ;;
    let fp := mkFlashingPlan (source fp) (slot_override fp) (current_slot fp) secondary
                             (wants_wipe fp) (skip_secondary fp)
                             (should_optimize_flash_super fp) (sparse_limit fp) in
    if String.eqb secondary "" then
      _ <- supports_AB ;;
      ret (mkFlashingPlan (source fp) (slot_override fp) (current_slot fp) secondary
                          (wants_wipe fp) true
                          (should_optimize_flash_super fp) (sparse_limit fp))
    else ret fp.

End Partitions.

(** ** Notions used to state the further properties *)

(** No character of [s] is a delimiter. *)
Definition free_of (delimiters s : string) : Prop :=
  forallb (fun c => negb (is_delimiter delimiters c)) (list_ascii_of_string s) = true.

(** [rest] is what can follow the base name of a partition: nothing, or a
    colon and more. *)
Definition colon_suffix (rest : string) : Prop :=
  rest = "" \/ exists more, rest = String ":" more.

(** What [AddResizeTasks] tests of a task, and the task it makes for it. *)
Definition is_dynamic_flash `{Collaborators} (fp : FlashingPlan) (task : Task) : bool :=
  AsFlashTask task && IsDynamicPartition (source fp) task.

Definition resize_task_for (fp : FlashingPlan) (task : Task) : Task :=
  ResizeTask (GetPartition task) "0" (slot_override fp).

(** The flash task [AddFlashTasks] makes for a collected image. *)
Definition task_of_entry (entry : Image * string) : Task :=
  FlashTask (snd entry) (part_name (fst entry)) (img_name (fst entry))
            (is_vbmeta_partition (part_name (fst entry))).

(** The image source of [fp] opens the file of the entry. *)
Definition source_opens (fp : FlashingPlan) (entry : Image * string) : Prop :=
  exists (src : ImageSource) (file : list byte),
    source fp = Some src /\ OpenFile src (img_name (fst entry)) = Some file.

(** The arguments of [flash] read as a whole: the flags wherever they
    stand, one or two other arguments. *)
Definition has_flag (flag : string) (parts : list string) : bool :=
  existsb (String.eqb flag) parts.

Definition flash_command_task (fp : FlashingPlan) (parts : list string) : option Task :=
  let slot := if has_flag "--slot-other" parts then secondary_slot fp else slot_override fp in
  let apply_vbmeta := has_flag "--apply-vbmeta" parts in
  match positional parts with
  | [partition] => Some (FlashTask slot partition (partition ++ ".img") apply_vbmeta)
  | [partition; img_name] => Some (FlashTask slot partition img_name apply_vbmeta)
  | _ => None
  end.

(** The positional arguments taken by the loop of [ParseFlashCommand] that
    starts with [partition] and [img_name]. *)
Fixpoint fill_arguments (partition img_name : string) (args : list string)
  : option (string * string) :=
  match args with
  | [] => Some (partition, img_name)
  | arg :: rest =>
      if String.eqb partition "" then fill_arguments arg img_name rest
      else if String.eqb img_name "" then fill_arguments partition arg rest
      else None
  end.

(** A line of a fastboot-info script that is blank or a comment: nothing
    but spaces, or [#] as its first character other than a space. *)
Fixpoint skip_spaces (text : string) : string :=
  match text with
  | String c rest => if Ascii.eqb c " " then skip_spaces rest else text
  | EmptyString => text
  end.

Definition is_blank_or_comment (text : string) : bool :=
  match skip_spaces text with
  | EmptyString => true
  | String c _ => Ascii.eqb c "#"
  end.

(** ** Requirements of [android-info.txt] *)

(** [s.back()]: undefined on an empty string. *)
Definition back (s : string) : Outcome ascii :=
  match String.get (String.length s - 1) s with
  | Some c => Ok c
  | None => Fail Crashed
  end.

(** The test of one option in the loop of [CheckRequirement]: equal to the
    value, or ending in [*] and agreeing with the value before it. *)
Definition option_matches (option var_value : string) : Outcome bool :=
  if String.eqb option var_value then Ok true
  else
    match back option with
    | Fail failure => Fail failure
    | Ok c =>
        let n := (String.length option - 1)%nat in
        Ok (Ascii.eqb c "*" && String.eqb (substring 0 n var_value) (substring 0 n option))
    end.

Fixpoint CheckRequirement_match (options : list string) (var_value : string)
  : Outcome bool :=
  match options with
  | [] => Ok false
  | option :: rest =>
      match option_matches option var_value with
      | Ok true => Ok true
      | Ok false => CheckRequirement_match rest var_value
      | Fail failure => Fail failure
      end
  end.

(** [CheckRequirement]; the messages on stderr are left out.  The message
    of a failed check reads [options[0]]. *)
Definition CheckRequirement (cur_product var product : string) (invert : bool)
  (options : list string) : M bool :=
  if negb (String.eqb product "") && negb (String.eqb product cur_product) then ret true
  else
    r <- GetVar var ;;
    match r with
    | None => ret false
    | Some var_value =>
        matched <- lift (CheckRequirement_match options var_value) ;;
        let matched := if invert then negb matched else matched in
        if matched : bool then ret true
        else
          match options with
          | [] => fail Crashed
          | _ => ret false
          end
    end.

(** [images[i].optional_if_no_image = false]. *)
Definition make_required (image : Image) : Image :=
  mkImage (nickname image) (img_name image) (sig_name image) (part_name image) false
          (type image).

(** The loop of [HandlePartitionExists] over the catalog: the catalog
    afterwards and [known_partition]. *)
Fixpoint HandlePartitionExists_scan (partition_name : string) (imgs : list Image)
  (known_partition : bool) : list Image * bool :=
  match imgs with
  | [] => ([], known_partition)
  | image :: rest =>
      if negb (String.eqb (nickname image) "") && String.eqb (nickname image) partition_name
      then
        let (rest', known) := HandlePartitionExists_scan partition_name rest true in
        (make_required image :: rest', known)
      else
        let (rest', known) := HandlePartitionExists_scan partition_name rest known_partition in
        (image :: rest', known)
  end.

(** [HandlePartitionExists(options)] on the catalog [imgs], which it
    updates in place. *)
Definition HandlePartitionExists (options : list string) (imgs : list Image)
  : M (list Image) :=
  match options with
  | [] => fail Crashed
  | partition_name :: _ =>
      r <- GetVar ("has-slot:" ++ partition_name)%string ;;
      let missing :=
        match r with
        | None => true
        | Some has_slot => negb (String.eqb has_slot "yes") && negb (String.eqb has_slot "no")
        end in
      if missing : bool then
        die ("device doesn't have required partition " ++ partition_name ++ "!")%string
      else
        let (imgs', known_partition) := HandlePartitionExists_scan partition_name imgs false in
        if known_partition : bool then ret imgs'
        else die ("device requires partition " ++ partition_name
                  ++ " which is not known to this version of fastboot")%string
  end.

(** An option of a requirement accepts a value: the same string, or a stem
    followed by [*] of which the value is an extension. *)
Definition accepts (option value : string) : Prop :=
  option = value
  \/ exists stem rest : string, option = (stem ++ "*")%string /\ value = (stem ++ rest)%string.

(** ** Flash block sizes, fetching, flashing a buffer *)

(** What [fastboot.cpp] uses of the driver and of the other files besides
    the above: the variable name [FB_VAR_MAX_FETCH_SIZE] of [constants.h],
    whether [FetchToFd(partition, fd, offset, size)] succeeds,
    [sparse_file_len(s, true, false)]. *)
Class Driver `{Collaborators} : Type := {
  FB_VAR_MAX_FETCH_SIZE : string;
  FetchToFd : string -> Z -> Z -> bool;
  sparse_file_len_sparse : sparse_file -> Z;
  (** [FlashTask::GetPartitionAndSlot()] of [task.cpp]. *)
  GetPartitionAndSlot : Task -> M string;
  (** The bit numbers [FS_OPT_CASEFOLD], [FS_OPT_PROJID] and
      [FS_OPT_COMPRESS] of [fs.h]. *)
  FS_OPT_CASEFOLD : Z;
  FS_OPT_PROJID : Z;
  FS_OPT_COMPRESS : Z
}.

Section Driving.
Context `{LibBase} `{Collaborators} `{!Driver}.

(** [fb_get_flash_block_size(name)], an [unsigned]. *)
Definition fb_get_flash_block_size (name : string) : M Z :=
  r <- GetVar name ;;
  match r with
  | None => ret 0
  | Some sizeString =>
      if String.eqb sizeString "" then ret 0
      else
        match ParseUint32 (fb_fix_numeric_var sizeString) with
        | None => ret 0
        | Some size =>
            if negb (Z.land size ((size - 1) mod 2 ^ 32) =? 0) then ret 0
            else ret size
        end
  end.

(** The [while] loop of [fetch_partition]: the requests made of
    [FetchToFd], each an offset and a size.  [rounds] bounds the number of
    rounds. *)
Fixpoint fetch_partition_loop (rounds : nat) (partition : string)
  (fetch_size partition_size offset : Z) : M (list (Z * Z)) :=
  if offset <? partition_size then
    match rounds with
    | O => fail Crashed
    | S rounds' =>
        let chunk_size := Z.min fetch_size (C.to_uint64 (partition_size - offset)) in
        if FetchToFd partition offset chunk_size then
          requests <- fetch_partition_loop rounds' partition fetch_size partition_size
                        (C.to_uint64 (offset + chunk_size)) ;;
          ret ((offset, chunk_size) :: requests)
        else die ("Unable to fetch " ++ partition)%string
    end
  else ret [].

(** [fetch_partition(partition, fd, fb)]: the size it returns and the
    requests it made.  The numbers are left out of the messages. *)
Definition fetch_partition (partition : string) : M (Z * list (Z * Z)) :=
  fetch_size <- get_uint_var FB_VAR_MAX_FETCH_SIZE ;;
  if fetch_size =? 0 then
    die ("Unable to get " ++ FB_VAR_MAX_FETCH_SIZE
         ++ ". Device does not support fetch command.")%string
  else
    partition_size <- get_partition_size partition ;;
    if partition_size <=? 0 then
      die ("Invalid partition size for partition " ++ partition)%string
    else
      requests <- fetch_partition_loop (Z.to_nat partition_size) partition fetch_size
                    partition_size 0 ;;
      ret (partition_size, requests).

Definition has_vbmeta_partition : M bool :=
  r <- GetVar "partition-type:vbmeta" ;;
  match r with
  | Some _ => ret true
  | None =>
      r <- GetVar "partition-type:vbmeta_a" ;;
      match r with
      | Some _ => ret true
      | None =>
          r <- GetVar "partition-type:vbmeta_b" ;;
          ret (match r with Some _ => true | None => false end)
      end
  end.

(** A call of [fb->FlashPartition]: of a sparse file with its length and
    its place among the files, or of a file with its size. *)
Inductive FlashPartitionCall : Type :=
| FlashPartitionSparse (partition : string) (s : sparse_file) (sz : Z) (current total : Z)
| FlashPartitionFd (partition : string) (file : list byte) (sz : Z).

Fixpoint flash_partition_files_from (partition : string) (files : list sparse_file)
  (i total : Z) : M (list FlashPartitionCall) :=
  match files with
  | [] => ret []
  | s :: rest =>
      let sz := sparse_file_len_sparse s in
      if sz <? 0 then die "Could not compute length of sparse image"
      else
        calls <- flash_partition_files_from partition rest (i + 1) total ;;
        ret (FlashPartitionSparse partition s sz (i + 1) total :: calls)
  end.

Definition flash_partition_files (partition : string) (files : list sparse_file)
  : M (list FlashPartitionCall) :=
  flash_partition_files_from partition files 0 (Z.of_nat (length files)).

(** [flash_buf(source, partition, buf, apply_vbmeta)]: the calls of
    [FlashPartition] it makes. *)
Definition flash_buf (source : option ImageSource) (partition : string)
  (buf : fastboot_buffer) (apply_vbmeta : bool) : M (list FlashPartitionCall) :=
  (* irrelevant in FlashAll task that FlashCapturer uses *)
  capturer <- has_flash_capturer ;;
  buf <- (if capturer : bool then ret buf else copy_avb_footer source partition buf) ;;
  (* Rewrite vbmeta if that's what we're flashing and modification has been requested. *)
  verity <- get g_disable_verity ;;
  verification <- get g_disable_verification ;;
  buf <- (if verity || verification then
            if apply_vbmeta then rewrite_vbmeta_buffer buf false
            else
              vbmeta <- has_vbmeta_partition ;;
              if negb vbmeta
                 && (String.eqb partition "boot" || String.eqb partition "boot_a"
                     || String.eqb partition "boot_b")
              then rewrite_vbmeta_buffer buf true
              else ret buf
          else ret buf) ;;
  match buf_type buf with
  | FB_BUFFER_SPARSE => flash_partition_files partition (files buf)
  | FB_BUFFER_FD => ret [FlashPartitionFd partition (fd buf) (sz buf)]
  end.

(** The predicate [is_non_static_flash_task] of [CollectTasks]: what
    [std::remove_if] takes out. *)
Definition is_non_static_flash_task (fp : FlashingPlan) (task : Task) : M bool :=
  if AsFlashTask task then
    name <- GetPartitionAndSlot task ;;
    userspace <- lift (should_flash_in_userspace (source fp) name) ;;
    if userspace : bool then ret true else ret false
  else ret true.

Fixpoint remove_if (pred : Task -> M bool) (tasks : list Task) : M (list Task) :=
  match tasks with
  | [] => ret []
  | task :: rest =>
      remove <- pred task ;;
      rest' <- remove_if pred rest ;;
      ret (if remove : bool then rest' else task :: rest')
  end.

(** [FlashAllTool::CollectTasks] over the catalog [imgs]; the plan's
    [should_use_fastboot_info] and [exclude_dynamic_partitions] are the two
    flags. *)
Definition CollectTasks (imgs : list Image) (fp : FlashingPlan)
  (should_use_fastboot_info exclude_dynamic_partitions : bool) : M (list Task) :=
  tasks <- (if should_use_fastboot_info then CollectTasksFromFastbootInfo imgs fp
            else CollectTasksFromImageList imgs fp) ;;
  if exclude_dynamic_partitions then remove_if (is_non_static_flash_task fp) tasks
  else ret tasks.

(** [syntax_error(fmt, ...)]: the usage line on stderr, then [exit(1)]. *)
Definition syntax_error {A} (msg : string) : Outcome A :=
  Fail (Exited 1 [("fastboot: usage: " ++ msg)%string]).

(** The loop of [ParseFsOption] from [fsOptions]. *)
Fixpoint ParseFsOption_loop (options : list string) (fsOptions : Z) : Outcome Z :=
  match options with
  | [] => Ok fsOptions
  | option :: rest =>
      if String.eqb option "casefold" then
        ParseFsOption_loop rest (Z.lor fsOptions (Z.shiftl 1 FS_OPT_CASEFOLD))
      else if String.eqb option "projid" then
        ParseFsOption_loop rest (Z.lor fsOptions (Z.shiftl 1 FS_OPT_PROJID))
      else if String.eqb option "compress" then
        ParseFsOption_loop rest (Z.lor fsOptions (Z.shiftl 1 FS_OPT_COMPRESS))
      else syntax_error ("unsupported options: " ++ option)
  end.

(** [FastBootTool::ParseFsOption(arg)]. *)
Definition ParseFsOption (arg : string) : Outcome Z :=
  let options := Split arg "," in
  if (length options <? 1)%nat then syntax_error ("bad options: " ++ arg)
  else ParseFsOption_loop options 0.

End Driving.

(** A driver that fetches whatever is asked of it, in chunks of the size the
    device reports as [max-fetch-size]. *)
Module ReferenceDriver.

#[export] Instance driver : @Driver Reference.collaborators := {|
  FB_VAR_MAX_FETCH_SIZE := "max-fetch-size";
  FetchToFd := fun _ _ _ => true;
  sparse_file_len_sparse := fun _ => 0;
  GetPartitionAndSlot := fun task => ret (GetPartition task);
  FS_OPT_CASEFOLD := 0;
  FS_OPT_PROJID := 1;
  FS_OPT_COMPRESS := 2
|}.

End ReferenceDriver.

(** The reference collaborators with a liblp that parses no metadata, as
    for a damaged [super_empty.img]. *)
Module Damaged.

#[export] Instance collaborators : Collaborators := {|
  LpMetadata := unit;
  ReadFromImageBlob := fun _ => None;
  ReadFromImageFile := fun _ => None;
  should_flash_in_userspace_metadata := fun _ _ => false;
  fb_fix_numeric_var := fun s => s;
  ANDROID_PRODUCT_OUT := None;
  access_R_OK := fun _ => false;
  sparse_file := unit;
  sparse_file_import := fun _ => None;
  sparse_file_import_auto := fun _ => None;
  sparse_file_len := fun _ => 0;
  sparse_file_resparse := fun _ _ => None;
  get_file_size := fun file => Z.of_nat (length file);
  IsDynamicPartition := fun _ task => String.eqb (GetPartition task) "system";
  Initialize := fun _ _ => ret None
|}.

(** An update package whose [super_empty.img] is damaged, and a sparse boot
    image of 100 bytes. *)
Definition package : ImageSource :=
  Reference.image_source [("boot.img", replicate 100 x00); ("super_empty.img", [x05])].

Definition sparse_boot : fastboot_buffer :=
  mkBuffer FB_BUFFER_FD FB_BUFFER_SPARSE [] 100 (replicate 100 x00) 4096.

End Damaged.

(** The requests [requests] read the bytes from [offset] up to [stop] in
    order, without gap or overlap, each of at most [fetch_size] bytes and
    all but the last of exactly that many. *)
Fixpoint tiles (fetch_size offset : Z) (requests : list (Z * Z)) (stop : Z) : Prop :=
  match requests with
  | [] => offset = stop
  | (request_offset, chunk_size) :: rest =>
      request_offset = offset /\ 0 < chunk_size <= fetch_size
      /\ (rest <> [] -> chunk_size = fetch_size)
      /\ tiles fetch_size (offset + chunk_size) rest stop
  end.

(** What is assumed of the bit numbers of [fs.h]: three different bits of
    an [unsigned]. *)
Definition fs_options_distinct `{Collaborators} `{!Driver} : Prop :=
  0 <= FS_OPT_CASEFOLD < 31 /\ 0 <= FS_OPT_PROJID < 31 /\ 0 <= FS_OPT_COMPRESS < 31
  /\ FS_OPT_CASEFOLD <> FS_OPT_PROJID /\ FS_OPT_CASEFOLD <> FS_OPT_COMPRESS
  /\ FS_OPT_PROJID <> FS_OPT_COMPRESS.

(** The bit that [ParseFsOption] sets for an option it knows. *)
Definition fs_option_bit `{Collaborators} `{!Driver} (name : string) : option Z :=
  if String.eqb name "casefold" then Some FS_OPT_CASEFOLD
  else if String.eqb name "projid" then Some FS_OPT_PROJID
  else if String.eqb name "compress" then Some FS_OPT_COMPRESS
  else None.

(** What is assumed of [android::base::ParseUint]: the number it yields
    fits the type it is called at. *)
Definition ParseUint_in_range `{LibBase} : Prop :=
  (forall s v, ParseUint32 s = Some v -> 0 <= v < 2 ^ 32)
  /\ (forall s v, ParseUint64 s = Some v -> 0 <= v < 2 ^ 64).

Section FlashNotions.
Context `{LibBase} `{Collaborators}.

(** [buf] holds a boot image in memory that ends in an AVB footer; the
    footer names [vbmeta_offset] as the place of the vbmeta struct, which
    lies before the footer. *)
Definition boot_image_with_footer (buf : fastboot_buffer) (vbmeta_offset : Z) : Prop :=
  buf_type buf = FB_BUFFER_FD /\ file_type buf = FB_BUFFER_FD
  /\ Z.of_nat (length (fd buf)) = sz buf
  /\ AVB_FOOTER_SIZE <= sz buf
  /\ take 4 (drop (Z.to_nat (sz buf - AVB_FOOTER_SIZE)) (fd buf)) = AVB_FOOTER_MAGIC
  /\ be_to_Z (take 8 (drop (Z.to_nat (sz buf - AVB_FOOTER_SIZE + AvbFooter_vbmeta_offset))
                           (fd buf))) = vbmeta_offset
  /\ 0 <= vbmeta_offset /\ vbmeta_offset + 256 <= sz buf - AVB_FOOTER_SIZE
  /\ take 4 (drop (Z.to_nat vbmeta_offset) (fd buf)) = AVB_MAGIC.

(** The device reports [partition] as a partition of [size] bytes that is
    not logical, and it is not flashed in userspace. *)
Definition physical_partition (source : option ImageSource) (partition : string) (size : Z)
  (w : World) : Prop :=
  vars w ("is-logical:" ++ partition)%string <> Some "yes"
  /\ should_flash_in_userspace source partition = Ok false
  /\ exists reported : string,
       vars w ("partition-size:" ++ partition)%string = Some reported
       /\ ParseUint64 (fb_fix_numeric_var reported) = Some size.

(** The source holds a [super_empty.img] that [ReadFromImageBlob] does not
    parse, so that the metadata pointer in [should_flash_in_userspace] is
    null. *)
Definition null_metadata (source : option ImageSource) : bool :=
  match source with
  | Some src =>
      match ReadFile src "super_empty.img" with
      | Some contents =>
          match ReadFromImageBlob contents with
          | Some _ => false
          | None => true
          end
      | None => false
      end
  | None => false
  end.

(** The device has no partition named vbmeta. *)
Definition no_vbmeta_partition (w : World) : Prop :=
  vars w "partition-type:vbmeta" = None /\ vars w "partition-type:vbmeta_a" = None
  /\ vars w "partition-type:vbmeta_b" = None.

End FlashNotions.

(** * Properties *)

(** ** The model on small inputs *)

Example get_other_slot_of_two :
  get_other_slot "a" 2 = "b" /\ get_other_slot "b" 2 = "a".
Proof. split; reflexivity. Qed.

Example get_other_slot_of_three :
  get_other_slot "a" 3 = "b" /\ get_other_slot "b" 3 = "c" /\ get_other_slot "c" 3 = "a".
Proof. repeat split; reflexivity. Qed.

Example verify_slot_other :
  fst (@verify_slot Reference.libbase "other" true
         (Reference.world [("slot-count", "2"); ("current-slot", "_a")]))
  = Ok "b".
Proof. reflexivity. Qed.

Example verify_slot_in_range :
  fst (@verify_slot Reference.libbase "b" true (Reference.world [("slot-count", "2")]))
  = Ok "b".
Proof. reflexivity. Qed.

Example Tokenize_skips_runs : Tokenize "  flash   boot " " " = ["flash"; "boot"].
Proof. reflexivity. Qed.

Example Split_keeps_last_piece :
  Split if_wipe_script newline
  = ["version 1"; "flash boot"; "if-wipe erase userdata"; ""].
Proof. reflexivity. Qed.

Example get_sparse_limit_from_device :
  fst (@get_sparse_limit Reference.libbase 200
         (mkFlashingPlan None "" "" "" false true true 0)
         (Reference.world [("max-download-size", "100")]))
  = Ok 100.
Proof. reflexivity. Qed.

Example get_sparse_limit_fits :
  fst (@get_sparse_limit Reference.libbase 100
         (mkFlashingPlan None "" "" "" false true true 0)
         (Reference.world [("max-download-size", "100")]))
  = Ok 0.
Proof. reflexivity. Qed.

Example unsupported_version_gives_nothing :
  fst (@ParseFastbootInfo Reference.libbase Reference.collaborators
         (Reference.plan [] true) ["version 2"; "flash boot"] (Reference.world []))
  = Ok [].
Proof. reflexivity. Qed.

Example script_with_every_directive :
  fst (@ParseFastbootInfo Reference.libbase Reference.collaborators
         (Reference.plan [] false)
         ["# a comment"; "version 1"; "flash boot";
          "flash vbmeta vbmeta.img --apply-vbmeta"; "reboot fastboot"; "update-super";
          "if-wipe erase userdata"]
         (Reference.world []))
  = Ok [FlashTask "" "boot" "boot.img" false; FlashTask "" "vbmeta" "vbmeta.img" true;
        RebootTask (Some "fastboot"); UpdateSuperTask].
Proof. reflexivity. Qed.

Example catalog_with_resize :
  fst (@CollectTasksFromImageList Reference.libbase Reference.collaborators images
         (Reference.plan Samples.product_out false)
         (Reference.world [("max-download-size", "4096")]))
  = Ok [FlashTask "" "boot" "boot.img" false; FlashTask "" "vbmeta" "vbmeta.img" true;
        UpdateSuperTask; ResizeTask "system" "0" "";
        FlashTask "" "system" "system.img" false].
Proof. reflexivity. Qed.

Example catalog_without_system_image :
  fst (@CollectTasksFromImageList Reference.libbase Reference.collaborators images
         (Reference.plan [("boot.img", [x01])] false) (Reference.world []))
  = Fail (Died "could not load 'system.img'").
Proof. reflexivity. Qed.

Example copy_avb_footer_relocates :
  let image := replicate 36 x11 ++ Samples.avb_footer in
  let buf := mkBuffer FB_BUFFER_FD FB_BUFFER_FD [] 100 image 100 in
  fst (@copy_avb_footer Reference.libbase Reference.collaborators None "boot" buf
         (Reference.world [("partition-size:boot", "128")]))
  = Ok (mkBuffer FB_BUFFER_FD FB_BUFFER_FD [] 128
                 (take 64 image ++ Samples.avb_footer) 100).
Proof. reflexivity. Qed.

(** ** The monad *)

Lemma bind_Ok_inv {A B} (m : M A) (f : A -> M B) w b w' :
  bind m f w = (Ok b, w') ->
  exists a w1, m w = (Ok a, w1) /\ f a w1 = (Ok b, w').
Proof.
  unfold bind. destruct (m w) as [[a|e] w1]; intros Hb.
  - exists a, w1. auto.
  - discriminate.
Qed.

Lemma bind_Ok {A B} (m : M A) (f : A -> M B) w a w1 :
  m w = (Ok a, w1) -> bind m f w = f a w1.
Proof. unfold bind. intros ->. reflexivity. Qed.

Lemma bind_Fail {A B} (m : M A) (f : A -> M B) w e w1 :
  m w = (Fail e, w1) -> bind m f w = (Fail e, w1).
Proof. unfold bind. intros ->. reflexivity. Qed.

(** ** Slot resolution *)

Section SlotFacts.
Context `{LibBase}.

Lemma char_roundtrip z : 0 <= z < 128 -> C.char_to_int (C.int_to_char z) = z.
Proof.
  intros Hz. unfold C.char_to_int, C.int_to_char.
  rewrite Z.mod_small by lia.
  rewrite N_ascii_embedding by lia.
  rewrite Z2N.id by lia.
  destruct (Z.ltb_spec z 128); lia.
Qed.

Lemma char_a : C.char_to_int "a" = 97.
Proof. reflexivity. Qed.

Lemma slot_letter_inj a b :
  0 <= a < 26 -> 0 <= b < 26 -> slot_letter a = slot_letter b -> a = b.
Proof.
  intros Ha Hb Heq.
  assert (Hc : C.char_to_int (C.front (slot_letter a))
               = C.char_to_int (C.front (slot_letter b))) by (rewrite Heq; reflexivity).
  unfold slot_letter in Hc. simpl in Hc.
  rewrite char_a in Hc. rewrite !char_roundtrip in Hc by lia. lia.
Qed.

Lemma get_other_slot_letter N c :
  1 <= N <= 26 -> 0 <= c < N ->
  get_other_slot (slot_letter c) N = slot_letter ((c + 1) mod N).
Proof.
  intros HN Hc. unfold get_other_slot.
  destruct (Z.eqb_spec N 0) as [->|_]; [lia|].
  unfold slot_letter at 1. cbn [C.front C.string1].
  rewrite char_a, char_roundtrip by lia.
  replace (c + 97 - 97 + 1) with (c + 1) by lia.
  rewrite Z.rem_mod_nonneg by lia.
  unfold slot_letter. rewrite char_a. reflexivity.
Qed.

(** C10: with [count = 0], [get_other_slot] returns the empty string for
    every current-slot string; it does not fail. *)
Theorem get_other_slot_count_zero (current_slot : string) :
  get_other_slot current_slot 0 = "".
Proof. reflexivity. Qed.

Lemma slot_letter_inj_wide a b :
  0 <= a < 159 -> 0 <= b < 159 -> slot_letter a = slot_letter b -> a = b.
Proof.
  intros Ha Hb Heq.
  assert (Hc : N_of_ascii (C.front (slot_letter a)) = N_of_ascii (C.front (slot_letter b)))
    by (rewrite Heq; reflexivity).
  unfold slot_letter in Hc. cbn [C.front C.string1] in Hc.
  rewrite char_a in Hc. unfold C.int_to_char in Hc.
  rewrite !Z.mod_small in Hc by lia.
  rewrite !N_ascii_embedding in Hc by lia. lia.
Qed.

Lemma get_other_slot_letter_wide N c :
  1 <= N <= 32 -> 0 <= c < N ->
  get_other_slot (slot_letter c) N = slot_letter ((c + 1) mod N).
Proof.
  intros HN Hc.
  destruct (Z.eq_dec c 31) as [-> | Hlow].
  - assert (N = 32) as -> by lia. reflexivity.
  - unfold get_other_slot.
    destruct (Z.eqb_spec N 0) as [->|_]; [lia|].
    unfold slot_letter at 1. cbn [C.front C.string1].
    rewrite char_a, char_roundtrip by lia.
    replace (c + 97 - 97 + 1) with (c + 1) by lia.
    rewrite Z.rem_mod_nonneg by lia.
    unfold slot_letter. rewrite char_a. reflexivity.
Qed.

(** C6 (amended): for a slot count [N] from 2 to 32 and a current slot [c]
    below [N], [get_other_slot] gives the cyclic successor of [c] among the
    [N] slot names from ['a'], and applying it twice gives [c] back if and
    only if [N = 2]. *)
Theorem get_other_slot_cycle (N c : Z) :
  2 <= N <= 32 -> 0 <= c < N ->
  get_other_slot (slot_letter c) N = slot_letter ((c + 1) mod N)
  /\ (get_other_slot (get_other_slot (slot_letter c) N) N = slot_letter c <-> N = 2).
Proof.
  intros HN Hc. split; [apply get_other_slot_letter_wide; lia|].
  assert (Hm : 0 <= (c + 1) mod N < N) by (apply Z.mod_pos_bound; lia).
  rewrite !get_other_slot_letter_wide by lia.
  assert (Hm2 : 0 <= ((c + 1) mod N + 1) mod N < N) by (apply Z.mod_pos_bound; lia).
  split.
  - intros Heq. apply slot_letter_inj_wide in Heq; [|lia..].
    destruct (Z.eq_dec (c + 1) N) as [E|E].
    + rewrite E, Z.mod_same in Heq by lia. simpl in Heq.
      rewrite Z.mod_small in Heq by lia. lia.
    + rewrite (Z.mod_small (c + 1)) in Heq by lia.
      destruct (Z.eq_dec (c + 1 + 1) N) as [E2|E2].
      * rewrite E2, Z.mod_same in Heq by lia. lia.
      * rewrite Z.mod_small in Heq by lia. lia.
  - intros ->. f_equal.
    assert (c = 0 \/ c = 1) as [-> | ->] by lia; reflexivity.
Qed.

Lemma get_other_slot_cycle_witness :
  get_other_slot (slot_letter 31) 32 = slot_letter ((31 + 1) mod 32)
  /\ (get_other_slot (get_other_slot (slot_letter 31) 32) 32 = slot_letter 31 <-> 32 = 2).
Proof. apply (get_other_slot_cycle 32 31); lia. Defined.

(** C6 as stated does not hold for every count: a plain [char] has 8 bits
    and is signed, so with 33 slots the name of slot 31 is the character
    128, read back as -128, and the remainder of -224 by 33 is -26: the
    slot after it comes out as ["G"], not as the name of slot 32. *)
Lemma other_slot_of_slot_31_of_33 :
  get_other_slot (slot_letter 31) 33 = "G"
  /\ slot_letter ((31 + 1) mod 33) <> "G"
  /\ ~ other_slot_cycles_for_every_count.
Proof.
  assert (Hrun : get_other_slot (slot_letter 31) 33 = "G") by reflexivity.
  assert (Hname : slot_letter ((31 + 1) mod 33) <> "G") by (vm_compute; discriminate).
  split; [exact Hrun|]. split; [exact Hname|].
  intros Hclaim.
  destruct (Hclaim 33 31 ltac:(lia) ltac:(lia)) as [_ Hnext].
  specialize (Hnext ltac:(lia)). rewrite Hrun in Hnext.
  apply Hname. symmetry. exact Hnext.
Qed.

Lemma get_slot_count_sent w :
  exists count, get_slot_count w = (Ok count, sent "slot-count" w).
Proof.
  unfold get_slot_count, bind, GetVar, ret.
  destruct (vars w "slot-count") as [var|]; [destruct (ParseInt var)|]; eauto.
Qed.

Lemma eqb_string1_long (c a b : ascii) (s : string) :
  String.eqb (C.string1 c) (String a (String b s)) = false.
Proof. unfold C.string1. simpl. destruct (Ascii.eqb c a); reflexivity. Qed.

Lemma supported_slots_lines (count : Z) :
  length (supported_slots count) = Z.to_nat count
  /\ (forall i : nat, (i < Z.to_nat count)%nat ->
      supported_slots count !! i
      = Some (String (ascii_of_N (Z.to_N ((97 + Z.of_nat i) mod 256))) ""))
  /\ (forall valid : ascii,
      0 <= C.char_to_int valid - C.char_to_int "a" < count ->
      C.string1 valid ∈ supported_slots count).
Proof.
  unfold supported_slots. split; [|split].
  - rewrite length_map, length_seq. reflexivity.
  - intros i Hi. rewrite list_lookup_fmap, lookup_seq_lt by exact Hi.
    cbn [fmap option_fmap option_map Nat.add]. rewrite char_a.
    unfold C.string1, C.int_to_char. rewrite (Z.add_comm (Z.of_nat i) 97). reflexivity.
  - intros valid Hvalid. rewrite char_a in Hvalid.
    apply list_elem_of_fmap.
    exists (Z.to_nat (C.char_to_int valid - 97)). split.
    + rewrite char_a, Z2Nat.id by lia.
      replace (C.char_to_int valid - 97 + 97) with (C.char_to_int valid) by lia.
      f_equal. unfold C.int_to_char, C.char_to_int in *.
      pose proof (N_ascii_bounded valid) as Hbound.
      destruct (Z.ltb_spec (Z.of_N (N_of_ascii valid)) 128); [|lia].
      rewrite Z.mod_small, N2Z.id, ascii_N_embedding by lia. reflexivity.
    + apply elem_of_seq. lia.
Qed.

(** C5: [verify_slot("all", true)] returns ["all"] without asking the
    device; with [allow_all] unset and a device reporting at least one slot
    it returns ["a"]; for a one-letter name outside the range
    ['a' .. 'a' + count) it terminates the process: with
    [die("Device does not support slots")] when the device has no slot, and
    otherwise with [exit(1)] after the line naming the slot and one line per
    slot of the device, line [i] being the character ['a' + i]; every name
    that would have been accepted is among these lines.  The count is the
    number the device reports as [slot-count], 0 when it reports none or one
    that does not parse.  The only trace these calls leave is the
    [slot-count] request: the globals and the device variables are as
    before. *)
Theorem verify_slot_spec (w w' : World) (count : Z) :
  get_slot_count w = (Ok count, w') ->
  verify_slot "all" true w = (Ok "all", w)
  /\ (0 < count -> verify_slot "all" false w = (Ok "a", w'))
  /\ (forall (letter : ascii) (allow_all : bool),
        ~ (0 <= C.char_to_int letter - C.char_to_int "a" < count) ->
        exists lines : list string,
          verify_slot (C.string1 letter) allow_all w
          = (Fail (if count =? 0 then Died "Device does not support slots"
                   else Exited 1 (("Slot " ++ C.string1 letter
                                   ++ " does not exist. supported slots are:")%string
                                  :: lines)),
             w')
          /\ length lines = Z.to_nat count
          /\ (forall i : nat, (i < Z.to_nat count)%nat ->
              lines !! i
              = Some (String (ascii_of_N (Z.to_N ((97 + Z.of_nat i) mod 256))) ""))
          /\ (forall valid : ascii,
              0 <= C.char_to_int valid - C.char_to_int "a" < count ->
              C.string1 valid ∈ lines))
  /\ count = match vars w "slot-count" with
             | Some var => match ParseInt var with Some n => n | None => 0 end
             | None => 0
             end
  /\ w' = sent "slot-count" w
  /\ vars w' = vars w /\ target_sparse_limit w' = target_sparse_limit w
  /\ flash_capturer w' = flash_capturer w
  /\ g_disable_verity w' = g_disable_verity w
  /\ g_disable_verification w' = g_disable_verification w.
Proof.
  intros Hcount.
  assert (Hw' : w' = sent "slot-count" w)
    by (destruct (get_slot_count_sent w) as [c Hc]; congruence).
  assert (Hreported : count = match vars w "slot-count" with
                              | Some var => match ParseInt var with Some n => n | None => 0 end
                              | None => 0
                              end).
  { unfold get_slot_count, bind, GetVar, ret in Hcount.
    destruct (vars w "slot-count") as [var|]; [|congruence].
    destruct (ParseInt var); congruence. }
  split; [reflexivity|].
  split; [|split; [|split; [exact Hreported | subst w'; repeat split]]].
  - intros Hpos. unfold verify_slot. simpl.
    rewrite (bind_Ok _ _ _ _ _ Hcount).
    destruct (Z.ltb_spec 0 count); [reflexivity | lia].
  - intros letter allow_all Hout. exists (supported_slots count).
    split; [|apply supported_slots_lines].
    unfold verify_slot.
    rewrite (eqb_string1_long letter "a" "l" "l").
    rewrite (bind_Ok _ _ _ _ _ Hcount).
    destruct (Z.eqb_spec count 0) as [->|Hne]; [reflexivity|].
    rewrite (eqb_string1_long letter "o" "t" "her").
    cbn [C.size C.string1 String.length C.front].
    change (Z.of_nat 1 =? 1) with true. cbn [andb].
    destruct (Z.leb_spec 0 (C.char_to_int letter - C.char_to_int "a"));
      destruct (Z.ltb_spec (C.char_to_int letter - C.char_to_int "a") count);
      cbn [andb]; try lia; reflexivity.
Qed.

End SlotFacts.

Lemma verify_slot_spec_witness :
  let w := Reference.world [("slot-count", "2")] in
  let w' := sent "slot-count" w in
  let verify_slot := @verify_slot Reference.libbase in
  verify_slot "all" true w = (Ok "all", w)
  /\ (0 < 2 -> verify_slot "all" false w = (Ok "a", w'))
  /\ (forall (letter : ascii) (allow_all : bool),
        ~ (0 <= C.char_to_int letter - C.char_to_int "a" < 2) ->
        exists lines : list string,
          verify_slot (C.string1 letter) allow_all w
          = (Fail (Exited 1 (("Slot " ++ C.string1 letter
                              ++ " does not exist. supported slots are:")%string
                             :: lines)),
             w')
          /\ length lines = 2%nat
          /\ (forall i : nat, (i < 2)%nat ->
              lines !! i
              = Some (String (ascii_of_N (Z.to_N ((97 + Z.of_nat i) mod 256))) ""))
          /\ (forall valid : ascii,
              0 <= C.char_to_int valid - C.char_to_int "a" < 2 ->
              C.string1 valid ∈ lines))
  /\ 2 = match vars w "slot-count" with
         | Some var => match @ParseInt Reference.libbase var with Some n => n | None => 0 end
         | None => 0
         end
  /\ w' = sent "slot-count" w
  /\ vars w' = vars w /\ target_sparse_limit w' = target_sparse_limit w
  /\ flash_capturer w' = flash_capturer w
  /\ g_disable_verity w' = g_disable_verity w
  /\ g_disable_verification w' = g_disable_verification w.
Proof.
  intros w w'.
  apply (@verify_slot_spec Reference.libbase w w' 2). reflexivity.
Defined.

(** On a device with two slots the name [c] is refused after the lines
    [a] and [b]. *)
Example verify_slot_lists_a_b :
  fst (@verify_slot Reference.libbase "c" false (Reference.world [("slot-count", "2")]))
  = Fail (Exited 1 ["Slot c does not exist. supported slots are:"; "a"; "b"]).
Proof. reflexivity. Qed.

(** ** Sparse limit *)

Section SparseFacts.
Context `{LibBase} `{Collaborators}.

Lemma get_uint_var_sent name w :
  exists value, get_uint_var name w = (Ok value, sent name w).
Proof.
  unfold get_uint_var, bind, GetVar, ret.
  destruct (vars w name) as [value_str|]; [|eauto].
  destruct (String.eqb value_str ""); [eauto|].
  destruct (ParseUint64 (Trim value_str)); eauto.
Qed.

(** C3 (amended): [get_sparse_limit] takes the plan's explicit limit when it
    is non-zero, without asking the device or touching the cache.  With no
    explicit limit it dies in capture mode with "sparse limit is not set",
    leaving the state as it is; outside capture mode it asks the device for
    [max-download-size] only while the cache [target_sparse_limit] is [-1]
    and stores the answer there (the number the device reports, 0 when it
    reports none or one that does not parse); a cached value that is not
    positive gives 0.  Whichever limit is in force, the result is 0 when the image fits in
    it and otherwise the smaller of the limit and 1 GiB. *)
Theorem get_sparse_limit_spec (size : Z) (fp : FlashingPlan) (w : World) :
  let explicit := C.to_int64 (sparse_limit fp) in
  (explicit <> 0 ->
     get_sparse_limit size fp w = (Ok (resparse_answer explicit size), w))
  /\ (explicit = 0 -> flash_capturer w = true ->
      get_sparse_limit size fp w = (Fail (Died "sparse limit is not set"), w))
  /\ (explicit = 0 -> flash_capturer w = false -> target_sparse_limit w <> -1 ->
      let limit := target_sparse_limit w in
      get_sparse_limit size fp w
      = (Ok (if 0 <? limit then resparse_answer limit size else 0), w))
  /\ (explicit = 0 -> flash_capturer w = false -> target_sparse_limit w = -1 ->
      exists reported,
        get_uint_var "max-download-size" w = (Ok reported, sent "max-download-size" w)
        /\ reported = match vars w "max-download-size" with
                      | Some value_str =>
                          if String.eqb value_str "" then 0
                          else match ParseUint64 (Trim value_str) with
                               | Some value => value
                               | None => 0
                               end
                      | None => 0
                      end
        /\ let limit := C.to_int64 reported in
           get_sparse_limit size fp w
           = (Ok (if 0 <? limit then resparse_answer limit size else 0),
              cached limit (sent "max-download-size" w)))
  /\ (forall limit,
        (size <= limit -> resparse_answer limit size = 0)
        /\ (limit < size -> resparse_answer limit size = Z.min limit RESPARSE_LIMIT))
  /\ RESPARSE_LIMIT = 2 ^ 30.
Proof.
  intros explicit. unfold get_sparse_limit, sparse_limit_choice. fold explicit.
  split; [|split; [|split; [|split; [|split; [|reflexivity]]]]].
  - intros Hne. destruct (Z.eqb_spec explicit 0); [contradiction|].
    unfold bind, ret, resparse_answer. destruct (explicit <? size); reflexivity.
  - intros -> Hcap. cbn [Z.eqb].
    unfold bind, has_flash_capturer, get, die, fail. rewrite Hcap. reflexivity.
  - intros -> Hcap Hcached. cbn [Z.eqb].
    unfold bind, has_flash_capturer, get, ret, resparse_answer. rewrite Hcap.
    destruct (Z.eqb_spec (target_sparse_limit w) (-1)); [contradiction|].
    destruct (0 <? target_sparse_limit w); [|reflexivity].
    destruct (target_sparse_limit w <? size); reflexivity.
  - intros -> Hcap Hcached. cbn [Z.eqb].
    destruct (get_uint_var_sent "max-download-size" w) as [reported Hrep].
    exists reported. split; [exact Hrep|]. split.
    { unfold get_uint_var, bind, GetVar, ret in Hrep.
      destruct (vars w "max-download-size") as [value_str|]; [|congruence].
      destruct (String.eqb value_str ""); [congruence|].
      destruct (ParseUint64 (Trim value_str)); congruence. }
    unfold bind, has_flash_capturer, get, ret, resparse_answer. rewrite Hcap, Hcached.
    cbn [Z.eqb Pos.eqb]. rewrite Hrep.
    unfold set_target_sparse_limit. cbn [target_sparse_limit cached].
    destruct (0 <? C.to_int64 reported); [|reflexivity].
    destruct (C.to_int64 reported <? size); reflexivity.
  - intros limit. unfold resparse_answer.
    destruct (Z.ltb_spec limit size); split; intros; try reflexivity; lia.
Qed.

End SparseFacts.

Lemma get_sparse_limit_spec_witness :
  let explicit := mkFlashingPlan None "" "" "" false true true (2 * 2 ^ 30) in
  let unset := mkFlashingPlan None "" "" "" false true true 0 in
  let w := Reference.world [("max-download-size", "100")] in
  let capturing := mkWorld (Reference.device [("max-download-size", "100")]) [] (-1)
                           true false false in
  @get_sparse_limit Reference.libbase (3 * 2 ^ 30) explicit w
  = (Ok (resparse_answer (C.to_int64 (2 * 2 ^ 30)) (3 * 2 ^ 30)), w)
  /\ @get_sparse_limit Reference.libbase 200 unset capturing
     = (Fail (Died "sparse limit is not set"), capturing)
  /\ @get_sparse_limit Reference.libbase 200 unset (cached 100 w)
     = (Ok (if 0 <? 100 then resparse_answer 100 200 else 0), cached 100 w)
  /\ exists reported,
       @get_uint_var Reference.libbase "max-download-size" w
       = (Ok reported, sent "max-download-size" w)
       /\ reported = 100
       /\ @get_sparse_limit Reference.libbase 200 unset w
          = (Ok (if 0 <? C.to_int64 reported
                 then resparse_answer (C.to_int64 reported) 200 else 0),
             cached (C.to_int64 reported) (sent "max-download-size" w)).
Proof.
  intros explicit unset w capturing. split; [|split; [|split]].
  - apply (@get_sparse_limit_spec Reference.libbase (3 * 2 ^ 30) explicit w).
    discriminate.
  - apply (@get_sparse_limit_spec Reference.libbase 200 unset capturing); reflexivity.
  - apply (@get_sparse_limit_spec Reference.libbase 200 unset (cached 100 w));
      [reflexivity | reflexivity | discriminate].
  - apply (@get_sparse_limit_spec Reference.libbase 200 unset w); reflexivity.
Defined.

(** C3 as stated does not hold for the explicit limit: with [-S 2G] and an
    image of 3 GiB the limit returned is 1 GiB, not the plan's 2 GiB. *)
Lemma explicit_limit_is_capped :
  ~ @explicit_limit_returned Reference.libbase.
Proof.
  intros Hclaim.
  specialize (Hclaim (mkFlashingPlan None "" "" "" false true true (2 * 2 ^ 30))
                     (3 * 2 ^ 30) (Reference.world [])).
  cbn [sparse_limit] in Hclaim.
  assert (Hrun : fst (@get_sparse_limit Reference.libbase (3 * 2 ^ 30)
                        (mkFlashingPlan None "" "" "" false true true (2 * 2 ^ 30))
                        (Reference.world [])) = Ok (2 ^ 30)) by reflexivity.
  rewrite Hrun in Hclaim.
  assert (Hne : Ok (2 ^ 30) = Ok (2 * 2 ^ 30) :> Outcome Z) by (apply Hclaim; lia).
  inversion Hne.
Qed.

(** ** Verified-boot footer and vbmeta *)

Section AvbFacts.
Context `{LibBase} `{Collaborators}.

Lemma or_assign_to_N (c : byte) (mask : N) :
  (mask < 4)%N -> Byte.to_N (or_assign c mask) = N.lor (Byte.to_N c) mask.
Proof.
  intros Hmask.
  assert (mask = 0 \/ mask = 1 \/ mask = 2 \/ mask = 3)%N as [-> | [-> | [-> | ->]]] by lia;
    destruct c; reflexivity.
Qed.

Lemma compare_eq_magic (data : list byte) (pos : Z) (magic : list byte) :
  0 <= pos -> pos <= Z.of_nat (length data) -> length magic = 4%nat ->
  take 4 (drop (Z.to_nat pos) data) = magic ->
  compare_eq data pos 4 magic = Ok true.
Proof.
  intros Hpos Hlen Hmagic Htake. unfold compare_eq.
  destruct (Z.ltb_spec (Z.of_nat (length data)) pos); [lia|].
  change (Z.to_nat 4) with 4%nat. rewrite Htake, Nat.eqb_refl, andb_true_r.
  f_equal. clear. induction magic as [|b magic IH]; [reflexivity|].
  cbn. rewrite IH. destruct b; reflexivity.
Qed.

Lemma or_at_lookup (data : list byte) (pos : Z) (mask : N) (c : byte) :
  data !! Z.to_nat pos = Some c ->
  or_at data pos mask = Ok (<[Z.to_nat pos := or_assign c mask]> data).
Proof. unfold or_at. intros ->. reflexivity. Qed.

(** C9: a buffer whose declared size is below 256 is returned as it is,
    with no failure, whatever flags were requested and whatever the bytes
    are (no magic is looked for). *)
Theorem rewrite_vbmeta_buffer_small (buf : fastboot_buffer) (vbmeta_in_boot : bool)
  (w : World) :
  sz buf < 256 -> rewrite_vbmeta_buffer buf vbmeta_in_boot w = (Ok buf, w).
Proof.
  intros Hsz. unfold rewrite_vbmeta_buffer.
  destruct (Z.ltb_spec (sz buf) 256); [reflexivity | lia].
Qed.

Lemma be_to_Z_nonneg (bs : list byte) : 0 <= be_to_Z bs.
Proof.
  unfold be_to_Z.
  assert (Hfold : forall acc, 0 <= acc ->
            0 <= fold_left (fun acc b => acc * 256 + Z.of_N (Byte.to_N b)) bs acc).
  { induction bs as [|b bs IH]; intros acc Hacc; cbn [fold_left]; [exact Hacc|].
    apply IH. lia. }
  apply Hfold. lia.
Qed.

Lemma locate_vbmeta_nonneg (buf : fastboot_buffer) (vbmeta_in_boot : bool) (w w' : World)
  (vbmeta_offset : Z) :
  locate_vbmeta buf vbmeta_in_boot w = (Ok vbmeta_offset, w') -> 0 <= vbmeta_offset.
Proof.
  unfold locate_vbmeta. destruct vbmeta_in_boot.
  - intros Hrun. apply bind_Ok_inv in Hrun as (found & w1 & _ & Hrun).
    destruct found; [|discriminate].
    unfold lift, read_be64 in Hrun. destruct (_ <=? _); [|discriminate].
    injection Hrun as <- _. apply be_to_Z_nonneg.
  - intros Hrun. injection Hrun as <- _. lia.
Qed.

(** C8 (amended): when [rewrite_vbmeta_buffer] runs on a buffer of at least
    256 bytes that has the vbmeta magic at the offset it locates and holds
    the flag byte at [vbmeta_offset + 123], it returns normally; in the
    buffer it leaves, that byte is the old byte or-ed with the requested
    flags, so bit 0 is set when disable-verity was requested and bit 1 when
    disable-verification was; every other byte, the length, the size and the
    other fields of the buffer, and the state, are as before.  The offset is
    0 for a vbmeta image, and for a boot image the one its footer, found at
    64 bytes from the end, records.  The size of a [std::string] fits in 64
    bits. *)
Theorem rewrite_vbmeta_buffer_flags (buf : fastboot_buffer) (vbmeta_in_boot : bool)
  (w : World) (vbmeta_offset : Z) :
  256 <= sz buf ->
  locate_vbmeta buf vbmeta_in_boot w = (Ok vbmeta_offset, w) ->
  take 4 (drop (Z.to_nat vbmeta_offset) (fd buf)) = AVB_MAGIC ->
  vbmeta_offset + 123 < Z.of_nat (length (fd buf)) < 2 ^ 64 ->
  let pos := Z.to_nat (vbmeta_offset + 123) in
  exists (buf' : fastboot_buffer) (old new : byte),
    rewrite_vbmeta_buffer buf vbmeta_in_boot w = (Ok buf', w)
    /\ fd buf !! pos = Some old
    /\ fd buf' !! pos = Some new
    /\ Byte.to_N new = N.lor (Byte.to_N old) (requested_flags w)
    /\ (g_disable_verity w = true -> N.testbit (Byte.to_N new) 0 = true)
    /\ (g_disable_verification w = true -> N.testbit (Byte.to_N new) 1 = true)
    /\ (forall i, i <> pos -> fd buf' !! i = fd buf !! i)
    /\ length (fd buf') = length (fd buf)
    /\ sz buf' = sz buf /\ image_size buf' = image_size buf
    /\ buf_type buf' = buf_type buf /\ file_type buf' = file_type buf
    /\ files buf' = files buf
    /\ (vbmeta_in_boot = false -> vbmeta_offset = 0)
    /\ (vbmeta_in_boot = true ->
        let footer_offset := (sz buf - AVB_FOOTER_SIZE) mod 2 ^ 64 in
        compare_eq (fd buf) footer_offset AVB_FOOTER_MAGIC_LEN AVB_FOOTER_MAGIC = Ok true
        /\ read_be64 (fd buf) (footer_offset + AvbFooter_vbmeta_offset) = Ok vbmeta_offset).
Proof.
  intros Hsz Hloc Hmagic [Hinside Hbound] pos.
  assert (Hlocated : (vbmeta_in_boot = false -> vbmeta_offset = 0)
            /\ (vbmeta_in_boot = true ->
                let footer_offset := (sz buf - AVB_FOOTER_SIZE) mod 2 ^ 64 in
                compare_eq (fd buf) footer_offset AVB_FOOTER_MAGIC_LEN AVB_FOOTER_MAGIC
                = Ok true
                /\ read_be64 (fd buf) (footer_offset + AvbFooter_vbmeta_offset)
                   = Ok vbmeta_offset)).
  { pose proof Hloc as Hloc'. unfold locate_vbmeta in Hloc'. destruct vbmeta_in_boot.
    - split; [discriminate|]. intros _ footer_offset.
      apply bind_Ok_inv in Hloc' as (found & w1 & Hfound & Hread).
      unfold lift in Hfound. injection Hfound as Hfound <-.
      destruct found; [|discriminate].
      unfold lift in Hread. injection Hread as Hread. auto.
    - split; [|discriminate]. intros _. injection Hloc' as <-. reflexivity. }
  pose proof (locate_vbmeta_nonneg _ _ _ _ _ Hloc) as Hnonneg.
  assert (Hpos : (pos < length (fd buf))%nat) by (unfold pos; lia).
  destruct (lookup_lt_is_Some_2 (fd buf) pos Hpos) as [old Hold].
  assert (Hflags : C.to_uint64 (123 + vbmeta_offset) = vbmeta_offset + 123).
  { unfold C.to_uint64. rewrite Z.mod_small; lia. }
  set (c1 := if g_disable_verity w then or_assign old 1 else old).
  set (c2 := if g_disable_verification w then or_assign c1 2 else c1).
  exists (mkBuffer (buf_type buf) (file_type buf) (files buf) (sz buf)
                   (<[pos := c2]> (fd buf)) (image_size buf)), old, c2.
  cbn [fd sz image_size buf_type file_type files].
  assert (Hc2 : Byte.to_N c2 = N.lor (Byte.to_N old) (requested_flags w)).
  { unfold c2, c1, requested_flags.
    destruct (g_disable_verity w), (g_disable_verification w);
      rewrite ?or_assign_to_N by lia; rewrite ?or_assign_to_N by lia;
      rewrite ?N.lor_assoc, ?N.lor_0_r; reflexivity. }
  split; [|split; [exact Hold|split; [|split; [exact Hc2|split; [|split; [|split;
    [|split; [|repeat (split; [reflexivity|]); exact Hlocated]]]]]]]].
  - unfold rewrite_vbmeta_buffer.
    destruct (Z.ltb_spec (sz buf) 256); [lia|].
    rewrite (bind_Ok _ _ _ _ _ Hloc).
    unfold lift at 1. unfold bind at 1. change AVB_MAGIC_LEN with 4.
    rewrite (compare_eq_magic (fd buf) vbmeta_offset AVB_MAGIC) by (auto; lia).
    rewrite Hflags. fold pos.
    unfold bind, get, lift, ret, with_fd, c2, c1.
    destruct (g_disable_verity w).
    + rewrite (or_at_lookup _ _ _ old) by exact Hold. fold pos.
      destruct (g_disable_verification w).
      * rewrite (or_at_lookup _ _ _ (or_assign old 1)); fold pos.
        -- rewrite list_insert_insert_eq. reflexivity.
        -- apply list_lookup_insert_eq. exact Hpos.
      * reflexivity.
    + destruct (g_disable_verification w).
      * rewrite (or_at_lookup _ _ _ old) by exact Hold. reflexivity.
      * rewrite list_insert_id by exact Hold. reflexivity.
  - apply list_lookup_insert_eq. exact Hpos.
  - intros Hv. rewrite Hc2. unfold requested_flags. rewrite Hv.
    rewrite N.lor_spec, N.lor_spec.
    destruct (g_disable_verification w); cbn; apply orb_true_r.
  - intros Hv. rewrite Hc2. unfold requested_flags. rewrite Hv.
    rewrite N.lor_spec, N.lor_spec.
    destruct (g_disable_verity w); cbn; apply orb_true_r.
  - intros i Hi. apply list_lookup_insert_ne. congruence.
  - apply length_insert.
Qed.

End AvbFacts.

Lemma rewrite_vbmeta_buffer_small_witness :
  rewrite_vbmeta_buffer Samples.short_buffer false Samples.disabling_world
  = (Ok Samples.short_buffer, Samples.disabling_world).
Proof.
  apply (rewrite_vbmeta_buffer_small Samples.short_buffer false Samples.disabling_world).
  simpl. lia.
Defined.

Lemma rewrite_vbmeta_buffer_flags_witness :
  let buf := Samples.boot_buffer in
  let w := Samples.disabling_world in
  exists (buf' : fastboot_buffer) (old new : byte),
    rewrite_vbmeta_buffer buf true w = (Ok buf', w)
    /\ fd buf !! Z.to_nat (64 + 123) = Some old
    /\ fd buf' !! Z.to_nat (64 + 123) = Some new
    /\ Byte.to_N new = N.lor (Byte.to_N old) (requested_flags w)
    /\ (g_disable_verity w = true -> N.testbit (Byte.to_N new) 0 = true)
    /\ (g_disable_verification w = true -> N.testbit (Byte.to_N new) 1 = true)
    /\ (forall i, i <> Z.to_nat (64 + 123) -> fd buf' !! i = fd buf !! i)
    /\ length (fd buf') = length (fd buf)
    /\ sz buf' = sz buf /\ image_size buf' = image_size buf
    /\ buf_type buf' = buf_type buf /\ file_type buf' = file_type buf
    /\ files buf' = files buf
    /\ (true = false -> 64 = 0)
    /\ (true = true ->
        let footer_offset := (sz buf - AVB_FOOTER_SIZE) mod 2 ^ 64 in
        compare_eq (fd buf) footer_offset AVB_FOOTER_MAGIC_LEN AVB_FOOTER_MAGIC = Ok true
        /\ read_be64 (fd buf) (footer_offset + AvbFooter_vbmeta_offset) = Ok 64).
Proof.
  intros buf w.
  apply (rewrite_vbmeta_buffer_flags buf true w 64).
  - simpl. lia.
  - reflexivity.
  - reflexivity.
  - simpl. lia.
Defined.

(** C8 as stated does not hold for a short buffer: a vbmeta image of 200
    bytes begins with the magic marker and holds the flag byte, and with
    disable-verity requested it comes back with that byte still 0, since
    [rewrite_vbmeta_buffer] leaves every buffer below 256 bytes alone. *)
Lemma short_vbmeta_is_left_unflagged :
  ~ @flag_set_on_every_vbmeta Reference.collaborators.
Proof.
  intros Hclaim.
  pose (buf := @mkBuffer Reference.collaborators FB_BUFFER_FD FB_BUFFER_FD [] 200
                 (AVB_MAGIC ++ replicate 196 x00) 200).
  destruct (Hclaim buf Samples.disabling_world) as (buf' & flags & Hrun & Hbyte & Hbit);
    [reflexivity | reflexivity | simpl; lia | reflexivity |].
  assert (Hsame : rewrite_vbmeta_buffer buf false Samples.disabling_world
                  = (Ok buf, Samples.disabling_world)) by reflexivity.
  rewrite Hsame in Hrun. injection Hrun as <-.
  assert (Hzero : fd buf !! 123%nat = Some x00) by reflexivity.
  rewrite Hzero in Hbyte. injection Hbyte as <-. discriminate Hbit.
Qed.

Section FooterFacts.
Context `{LibBase} `{Collaborators}.

Lemma is_logical_sent partition w :
  exists logical,
    is_logical partition w = (Ok logical, sent ("is-logical:" ++ partition)%string w).
Proof.
  unfold is_logical, bind, GetVar, ret.
  destruct (vars w _); eauto.
Qed.

Lemma should_flash_in_userspace_outcomes source partition_name :
  (exists b, should_flash_in_userspace source partition_name = Ok b)
  \/ should_flash_in_userspace source partition_name = Fail Crashed.
Proof.
  unfold should_flash_in_userspace, find_item_given_name.
  destruct source as [src|].
  - destruct (ReadFile src "super_empty.img"); [|eauto].
    destruct (ReadFromImageBlob l); eauto.
  - destruct ANDROID_PRODUCT_OUT; [|eauto].
    destruct (_ || _); [eauto|].
    destruct (ReadFromImageFile _); eauto.
Qed.

Lemma should_flash_in_userspace_null source partition_name :
  if null_metadata source
  then should_flash_in_userspace source partition_name = Fail Crashed
  else exists b, should_flash_in_userspace source partition_name = Ok b.
Proof.
  unfold null_metadata, should_flash_in_userspace, find_item_given_name.
  destruct source as [src|].
  - destruct (ReadFile src "super_empty.img") as [contents|]; [|eauto].
    destruct (ReadFromImageBlob contents); eauto.
  - destruct ANDROID_PRODUCT_OUT; [|eauto].
    destruct (_ || _); [eauto|].
    destruct (ReadFromImageFile _); eauto.
Qed.

(** C7: what [copy_avb_footer] does when the image file is sparse, or the
    device says the partition is logical, or the partition is one to flash
    in userspace.  It returns the buffer it was given, except in one case,
    which only a sparse image can reach: the image has at least 64 bytes,
    the partition is not logical and the [super_empty.img] of the source
    does not parse; then [should_flash_in_userspace] dereferences a null
    pointer before the test for a sparse image is reached.  A partition is
    logical when the device reports ["yes"] for it, which is asked only for
    an image of at least 64 bytes.  The device variables and the globals are
    untouched either way. *)
Theorem copy_avb_footer_noop_unless_null_metadata (source : option ImageSource)
  (partition : string) (buf : fastboot_buffer) (w : World) (logical : bool) :
  fst (is_logical partition w) = Ok logical ->
  file_type buf = FB_BUFFER_SPARSE
  \/ logical = true
  \/ should_flash_in_userspace source partition = Ok true ->
  exists w',
    copy_avb_footer source partition buf w
    = (if (AVB_FOOTER_SIZE <=? sz buf) && negb logical && null_metadata source
       then Fail Crashed else Ok buf, w')
    /\ (null_metadata source = true -> AVB_FOOTER_SIZE <= sz buf -> logical = false ->
        file_type buf = FB_BUFFER_SPARSE)
    /\ logical = match vars w ("is-logical:" ++ partition)%string with
                 | Some value => String.eqb value "yes"
                 | None => false
                 end
    /\ w' = (if AVB_FOOTER_SIZE <=? sz buf
             then sent ("is-logical:" ++ partition)%string w else w)
    /\ vars w' = vars w
    /\ target_sparse_limit w' = target_sparse_limit w
    /\ flash_capturer w' = flash_capturer w
    /\ g_disable_verity w' = g_disable_verity w
    /\ g_disable_verification w' = g_disable_verification w.
Proof.
  intros Hlogical Hcond.
  assert (Hvalue : logical = match vars w ("is-logical:" ++ partition)%string with
                             | Some value => String.eqb value "yes"
                             | None => false
                             end).
  { unfold is_logical, bind, GetVar, ret in Hlogical.
    destruct (vars w ("is-logical:" ++ partition)%string);
      cbn [fst] in Hlogical; congruence. }
  unfold copy_avb_footer.
  pose proof (should_flash_in_userspace_null source partition) as Huser.
  assert (Hsparse : null_metadata source = true -> AVB_FOOTER_SIZE <= sz buf ->
                    logical = false -> file_type buf = FB_BUFFER_SPARSE).
  { intros Hnull _ ->. rewrite Hnull in Huser.
    destruct Hcond as [Hs | [Hl | Hu]]; [exact Hs | discriminate | congruence]. }
  destruct (Z.ltb_spec (sz buf) AVB_FOOTER_SIZE) as [Hsmall|Hbig].
  - exists w. destruct (Z.leb_spec AVB_FOOTER_SIZE (sz buf)); [lia|].
    cbn [andb]. unfold ret. repeat split; auto.
  - destruct (Z.leb_spec AVB_FOOTER_SIZE (sz buf)); [|lia]. cbn [andb].
    destruct (is_logical_sent partition w) as [logical' Hlog].
    rewrite Hlog in Hlogical. cbn [fst] in Hlogical. injection Hlogical as ->.
    rewrite (bind_Ok _ _ _ _ _ Hlog).
    exists (sent ("is-logical:" ++ partition)%string w).
    split; [|repeat split; auto].
    destruct logical; [reflexivity|]. cbn [negb andb].
    unfold bind, lift.
    destruct (null_metadata source); [rewrite Huser; reflexivity|].
    destruct Huser as [b Hb]. rewrite Hb.
    destruct b; [reflexivity|].
    destruct (file_type buf) eqn:Hft; [|reflexivity].
    destruct Hcond as [Hs | [Hl | Hu]]; [discriminate | discriminate | congruence].
Qed.

End FooterFacts.

(** The failing input: a sparse boot image from a package whose
    [super_empty.img] is damaged, for a device on which [boot] is not
    logical.  The call crashes instead of returning the buffer. *)
Lemma copy_avb_footer_noop_unless_null_metadata_witness :
  let w := Reference.world [("partition-size:boot", "4096")] in
  exists w',
    @copy_avb_footer Reference.libbase Damaged.collaborators
      (Some Damaged.package) "boot" Damaged.sparse_boot w
    = (Fail Crashed, w')
    /\ (@null_metadata Damaged.collaborators (Some Damaged.package) = true ->
        AVB_FOOTER_SIZE <= sz Damaged.sparse_boot -> false = false ->
        file_type Damaged.sparse_boot = FB_BUFFER_SPARSE)
    /\ false = match vars w ("is-logical:" ++ "boot")%string with
               | Some value => String.eqb value "yes"
               | None => false
               end
    /\ w' = sent "is-logical:boot" w
    /\ vars w' = vars w
    /\ target_sparse_limit w' = target_sparse_limit w
    /\ flash_capturer w' = flash_capturer w
    /\ g_disable_verity w' = g_disable_verity w
    /\ g_disable_verification w' = g_disable_verification w.
Proof.
  intros w.
  apply (@copy_avb_footer_noop_unless_null_metadata Reference.libbase Damaged.collaborators
           (Some Damaged.package) "boot" Damaged.sparse_boot w false).
  - reflexivity.
  - left. reflexivity.
Defined.

(** With the same package read by a liblp that parses the metadata, the
    buffer comes back as it is. *)
Example copy_avb_footer_sparse_parsed :
  fst (@copy_avb_footer Reference.libbase Reference.collaborators
         (Some Damaged.package) "boot" Samples.sparse_buffer
         (Reference.world [("partition-size:boot", "4096")]))
  = Ok Samples.sparse_buffer.
Proof. reflexivity. Qed.

(** ** The fastboot-info interpreter *)

Section ScriptFacts.
Context `{LibBase} `{Collaborators}.

Lemma eqb_neq (a b : string) : a <> b -> String.eqb a b = false.
Proof. intros Hne. apply String.eqb_neq. exact Hne. Qed.

Lemma Tokenize_from_nonempty (s delimiters tok : string) :
  Forall (fun token => token <> "") (Tokenize_from s delimiters tok).
Proof.
  revert tok. induction s as [|c rest IH]; intros tok; cbn.
  - destruct (String.eqb_spec tok ""); auto.
  - destruct (is_delimiter delimiters c); [|apply IH].
    apply Forall_app. split; [|apply IH].
    destruct (String.eqb_spec tok ""); auto.
Qed.

Lemma Tokenize_nonempty (s delimiters : string) :
  Forall (fun token => token <> "") (Tokenize s delimiters).
Proof. apply Tokenize_from_nonempty. Qed.

Lemma ParseFlashCommand_parts_overflow fp parts apply_vbmeta slot partition img_name :
  Forall (fun token => token <> "") parts ->
  (room partition img_name < length (positional parts))%nat ->
  ParseFlashCommand_parts fp parts apply_vbmeta slot partition img_name = None.
Proof.
  intros Hne. revert apply_vbmeta slot partition img_name. unfold positional, is_flag.
  induction Hne as [|part rest Hpart _ IH]; intros apply_vbmeta slot partition img_name Hroom.
  - cbn in Hroom. lia.
  - cbn [ParseFlashCommand_parts]. cbn [List.filter] in Hroom.
    destruct (String.eqb part "--apply-vbmeta"); [apply IH; exact Hroom|].
    destruct (String.eqb part "--slot-other"); [apply IH; exact Hroom|].
    cbn [orb negb length] in Hroom.
    unfold room in Hroom.
    destruct (String.eqb_spec partition "") as [->|Hp].
    + apply IH. unfold room. rewrite (eqb_neq part "") by exact Hpart.
      destruct (String.eqb img_name ""); cbn in *; lia.
    + destruct (String.eqb img_name "") eqn:Hi; [|reflexivity].
      apply IH. unfold room. rewrite (eqb_neq partition "") by exact Hp.
      rewrite (eqb_neq part "") by exact Hpart. cbn in *. lia.
Qed.

Lemma ParseFlashCommand_parts_flags fp parts apply_vbmeta slot partition img_name :
  positional parts = [] ->
  exists apply_vbmeta' slot',
    ParseFlashCommand_parts fp parts apply_vbmeta slot partition img_name
    = Some (apply_vbmeta', slot', partition, img_name).
Proof.
  revert apply_vbmeta slot. induction parts as [|part rest IH]; intros apply_vbmeta slot Hpos.
  - eauto.
  - cbn [ParseFlashCommand_parts]. unfold positional in Hpos. cbn [List.filter] in Hpos.
    unfold is_flag in Hpos.
    destruct (String.eqb part "--apply-vbmeta"); [apply IH; exact Hpos|].
    destruct (String.eqb part "--slot-other"); [apply IH; exact Hpos|].
    discriminate.
Qed.

Lemma malformed_directive_rejected fp command :
  Forall (fun token => token <> "") command ->
  malformed_directive command -> ParseFastbootInfoLine fp command = None.
Proof.
  intros Hne Hbad. destruct Hbad as
    [name args Hf Hr Hu He | args Hpos | args Hlen | args Hlen | args Hargs | args Hlen];
    cbn [ParseFastbootInfoLine].
  - rewrite !eqb_neq by assumption. reflexivity.
  - cbn. unfold ParseFlashCommand.
    destruct (ParseFlashCommand_parts_flags fp args false (slot_override fp) "" "" Hpos)
      as (a & s & ->).
    reflexivity.
  - cbn. unfold ParseFlashCommand.
    rewrite ParseFlashCommand_parts_overflow; [reflexivity | | exact Hlen].
    inversion Hne; assumption.
  - cbn. destruct args as [|a [|b args]]; cbn in Hlen; try lia. reflexivity.
  - cbn. destruct args; [contradiction | reflexivity].
  - cbn. destruct args as [|a [|b args]]; cbn in Hlen; try lia; reflexivity.
Qed.

Lemma rejected_line_returns_empty fp text :
  rejected_line (wants_wipe fp) (Tokenize text " ") ->
  ParseFastbootInfo_line fp text = ReturnEmpty.
Proof.
  intros Hrej. unfold ParseFastbootInfo_line.
  pose proof (Tokenize_nonempty text " ") as Hne.
  destruct Hrej as [number more Hbad | number v Hv Hlt | name args Hwipe Hbad
                    | name args Hhash Hver Hwipe Hbad].
  - cbn. destruct more as [|m more].
    + destruct Hbad as [Hbad | Hbad]; [contradiction|]. rewrite Hbad. reflexivity.
    + reflexivity.
  - cbn. rewrite Hv. destruct (Z.leb_spec v FASTBOOT_INFO_VERSION); [lia | reflexivity].
  - cbn -[ParseFastbootInfoLine]. rewrite Hwipe.
    rewrite malformed_directive_rejected; [reflexivity | | exact Hbad].
    inversion Hne; assumption.
  - cbn [IsIgnore]. destruct (Ascii.eqb_spec (C.front name) "#"); [contradiction|].
    cbn [hd length tl].
    assert (Hv : (1 <? S (length args))%nat && String.eqb name "version" = false).
    { destruct (String.eqb_spec name "version") as [->|]; [|apply andb_false_r].
      destruct args; [reflexivity|]. exfalso. apply Hver. split; congruence. }
    assert (Hw : (2 <=? S (length args))%nat && String.eqb name "if-wipe" = false).
    { destruct (String.eqb_spec name "if-wipe") as [->|]; [|apply andb_false_r].
      destruct args; [reflexivity|]. exfalso. apply Hwipe. split; congruence. }
    rewrite Hv, Hw.
    rewrite malformed_directive_rejected; [reflexivity | exact Hne | exact Hbad].
Qed.

Lemma ParseFastbootInfo_loop_returns_empty fp file tasks text :
  text ∈ file -> ParseFastbootInfo_line fp text = ReturnEmpty ->
  ParseFastbootInfo_loop fp file tasks = None.
Proof.
  intros Hin Hline. revert tasks.
  induction Hin as [text rest | text other rest _ IH]; intros tasks;
    cbn [ParseFastbootInfo_loop].
  - rewrite Hline. reflexivity.
  - destruct (ParseFastbootInfo_line fp other); auto.
Qed.

(** C2 (amended): if a line of the script that is not skipped (a blank
    line and a comment are skipped, and so is an [if-wipe] line when
    [wants_wipe] is unset) is a malformed or unsupported version line, or
    carries an unrecognized or malformed directive, [ParseFastbootInfo]
    returns the empty task list, and neither the device nor the globals are
    touched. *)
Theorem ParseFastbootInfo_fails_closed (fp : FlashingPlan) (file : list string)
  (w : World) (text : string) :
  text ∈ file -> rejected_line (wants_wipe fp) (Tokenize text " ") ->
  ParseFastbootInfo fp file w = (Ok [], w).
Proof.
  intros Hin Hrej. unfold ParseFastbootInfo.
  rewrite (ParseFastbootInfo_loop_returns_empty fp file [] text Hin);
    [reflexivity|].
  apply rejected_line_returns_empty. exact Hrej.
Qed.

Lemma version_line_accepted fp :
  ParseUint32 "1" = Some 1 -> ParseFastbootInfo_line fp "version 1" = Continue.
Proof.
  intros Hparse. unfold ParseFastbootInfo_line.
  change (Tokenize "version 1" " ") with ["version"; "1"].
  cbn. rewrite Hparse. reflexivity.
Qed.

Lemma flash_boot_line fp :
  ParseFastbootInfo_line fp "flash boot" = EmplaceBack (flash_boot fp).
Proof. reflexivity. Qed.

Lemma if_wipe_erase_line fp :
  ParseFastbootInfo_line fp "if-wipe erase userdata"
  = if wants_wipe fp then EmplaceBack (WipeTask "userdata") else Continue.
Proof.
  unfold ParseFastbootInfo_line.
  change (Tokenize "if-wipe erase userdata" " ") with ["if-wipe"; "erase"; "userdata"].
  cbn. destruct (wants_wipe fp); reflexivity.
Qed.

Lemma if_wipe_script_loop fp :
  ParseUint32 "1" = Some 1 ->
  ParseFastbootInfo_loop fp (Split if_wipe_script newline) [] = Some (if_wipe_tasks fp).
Proof.
  intros Hparse.
  change (Split if_wipe_script newline)
    with ["version 1"; "flash boot"; "if-wipe erase userdata"; ""].
  cbn [ParseFastbootInfo_loop].
  rewrite (version_line_accepted fp Hparse), flash_boot_line, if_wipe_erase_line.
  unfold if_wipe_tasks. destruct (wants_wipe fp); reflexivity.
Qed.

Lemma AddResizeTasks_if_wipe fp src :
  source fp = Some src -> IsDynamicPartition (source fp) (flash_boot fp) = false ->
  AddResizeTasks fp (if_wipe_tasks fp) = Ok (false, if_wipe_tasks fp).
Proof.
  intros Hsrc Hdyn. unfold AddResizeTasks. unfold flash_boot in Hdyn.
  rewrite Hsrc in Hdyn |- *.
  destruct (ReadFile src "super_empty.img") as [contents|]; [|reflexivity].
  destruct (ReadFromImageBlob contents); [|reflexivity].
  unfold if_wipe_tasks, flash_boot.
  destruct (wants_wipe fp); cbn; rewrite Hsrc, Hdyn; reflexivity.
Qed.

(** C4: for the script [version 1 / flash boot / if-wipe erase userdata],
    when no OptimizedFlashSuper task is made and [boot] is not a dynamic
    partition, the task list is exactly the flash of [boot] if [wants_wipe]
    is unset, and the flash of [boot] followed by the wipe of [userdata] if
    it is set. *)
Theorem ParseFastbootInfo_if_wipe (fp : FlashingPlan) (src : ImageSource) (w w1 : World) :
  ParseUint32 "1" = Some 1 ->
  source fp = Some src ->
  Initialize fp (if_wipe_tasks fp) w = (Ok None, w1) ->
  IsDynamicPartition (source fp) (flash_boot fp) = false ->
  (wants_wipe fp = false ->
   ParseFastbootInfo fp (Split if_wipe_script newline) w = (Ok [flash_boot fp], w1))
  /\ (wants_wipe fp = true ->
      ParseFastbootInfo fp (Split if_wipe_script newline) w
      = (Ok [flash_boot fp; WipeTask "userdata"], w1)).
Proof.
  intros Hparse Hsrc Hinit Hdyn.
  assert (Hrun : ParseFastbootInfo fp (Split if_wipe_script newline) w
                 = (Ok (if_wipe_tasks fp), w1)).
  { unfold ParseFastbootInfo. rewrite (if_wipe_script_loop fp Hparse).
    rewrite (bind_Ok _ _ _ _ _ Hinit).
    unfold bind, lift. rewrite (AddResizeTasks_if_wipe fp src Hsrc Hdyn). reflexivity. }
  rewrite Hrun. unfold if_wipe_tasks. split; intros ->; reflexivity.
Qed.

(** Whatever the collaborators do, the script with the unchecked
    [if-wipe] line does not give the empty list when [wants_wipe] is
    unset. *)
Lemma if_wipe_line_unchecked_everywhere fp w w' :
  ParseUint32 "1" = Some 1 -> wants_wipe fp = false ->
  ParseFastbootInfo fp ["version 1"; "flash boot"; "if-wipe frobnicate userdata"] w
  <> (Ok [], w').
Proof.
  intros Hparse Hwipe. unfold ParseFastbootInfo. cbn [ParseFastbootInfo_loop].
  rewrite (version_line_accepted fp Hparse), flash_boot_line.
  assert (Hline : ParseFastbootInfo_line fp "if-wipe frobnicate userdata" = Continue).
  { unfold ParseFastbootInfo_line.
    change (Tokenize "if-wipe frobnicate userdata" " ")
      with ["if-wipe"; "frobnicate"; "userdata"].
    cbn. rewrite Hwipe. reflexivity. }
  rewrite Hline. cbn [app]. unfold bind, lift, ret.
  destruct (Initialize fp [flash_boot fp] w) as [[[kept|]|e] w1]; [| |discriminate].
  - intros Heq. injection Heq as Heq _. destruct kept; discriminate Heq.
  - unfold AddResizeTasks.
    destruct (source fp) as [src|]; [|discriminate].
    destruct (ReadFile src "super_empty.img") as [contents|]; [|discriminate].
    destruct (ReadFromImageBlob contents); [|discriminate].
    cbn. destruct (IsDynamicPartition _ _); cbn; discriminate.
Qed.

End ScriptFacts.

Lemma ParseFastbootInfo_fails_closed_witness :
  let fp := Reference.plan [] true in
  let w := Reference.world [] in
  @ParseFastbootInfo Reference.libbase Reference.collaborators fp
    ["version 1"; "flash boot"; "if-wipe erase"] w = (Ok [], w).
Proof.
  intros fp w.
  apply (@ParseFastbootInfo_fails_closed Reference.libbase Reference.collaborators
           fp ["version 1"; "flash boot"; "if-wipe erase"] w "if-wipe erase").
  - apply list_elem_of_In. simpl. auto.
  - change (Tokenize "if-wipe erase" " ") with ["if-wipe"; "erase"].
    apply if_wipe_malformed; [reflexivity|].
    apply erase_without_one_partition. simpl. lia.
Defined.

(** C2 as stated does not hold: with [wants_wipe] unset, the script
    [version 1 / flash boot / if-wipe frobnicate userdata] has a line with
    an unrecognized directive, and yet [ParseFastbootInfo] returns the flash
    of [boot]. *)
Lemma if_wipe_line_is_not_checked :
  ~ @fails_closed_on_every_line Reference.libbase Reference.collaborators.
Proof.
  intros Hclaim.
  specialize (Hclaim (Reference.plan [] false)
                     ["version 1"; "flash boot"; "if-wipe frobnicate userdata"]
                     (Reference.world []) "if-wipe frobnicate userdata").
  assert (Hrun : fst (@ParseFastbootInfo Reference.libbase Reference.collaborators
                        (Reference.plan [] false)
                        ["version 1"; "flash boot"; "if-wipe frobnicate userdata"]
                        (Reference.world []))
                 = Ok [FlashTask "" "boot" "boot.img" false]) by reflexivity.
  rewrite Hclaim in Hrun.
  - discriminate Hrun.
  - apply list_elem_of_In. simpl. auto.
  - change (Tokenize "if-wipe frobnicate userdata" " ")
      with ["if-wipe"; "frobnicate"; "userdata"].
    apply if_wipe_malformed; [reflexivity|].
    apply unknown_directive; discriminate.
Qed.

Lemma ParseFastbootInfo_if_wipe_witness :
  let fp := Reference.plan [] true in
  let w := Reference.world [] in
  (wants_wipe fp = false ->
   @ParseFastbootInfo Reference.libbase Reference.collaborators fp
     (Split if_wipe_script newline) w = (Ok [flash_boot fp], w))
  /\ (wants_wipe fp = true ->
      @ParseFastbootInfo Reference.libbase Reference.collaborators fp
        (Split if_wipe_script newline) w
      = (Ok [flash_boot fp; WipeTask "userdata"], w)).
Proof.
  intros fp w.
  apply (@ParseFastbootInfo_if_wipe Reference.libbase Reference.collaborators
           fp (Reference.image_source []) w w); reflexivity.
Defined.

(** ** The task list of the catalog strategy *)

Section OrderFacts.
Context `{LibBase} `{Collaborators}.

Lemma separated_precedes P Q tasks : separated P Q tasks -> precedes P Q tasks.
Proof.
  intros (front & back & -> & Hfront & Hback) i j x y Hi Hj HP HQ.
  destruct (Nat.lt_ge_cases i (length front)) as [Hlt | Hge].
  - destruct (Nat.lt_ge_cases j (length front)) as [Hjlt | Hjge]; [|lia].
    rewrite lookup_app_l in Hj by exact Hjlt.
    exfalso. exact (Forall_lookup_1 _ _ _ _ Hfront Hj HQ).
  - rewrite lookup_app_r in Hi by exact Hge.
    exfalso. exact (Forall_lookup_1 _ _ _ _ Hback Hi HP).
Qed.

Lemma sublist_Forall (P : Task -> Prop) (l' l : list Task) :
  sublist l' l -> Forall P l -> Forall P l'.
Proof.
  induction 1 as [|x l1 l2 _ IH | x l1 l2 _ IH]; intros Hall.
  - constructor.
  - inversion Hall; subst. constructor; auto.
  - inversion Hall; subst. auto.
Qed.

Lemma separated_sublist P Q tasks' tasks :
  sublist tasks' tasks -> separated P Q tasks -> separated P Q tasks'.
Proof.
  intros Hsub (front & back & -> & Hfront & Hback).
  apply sublist_app_r in Hsub as (front' & back' & -> & Hf & Hb).
  exists front', back'. eauto using sublist_Forall.
Qed.

Lemma separated_snoc P Q tasks t :
  separated P Q tasks -> ~ P t -> separated P Q (tasks ++ [t]).
Proof.
  intros (front & back & -> & Hfront & Hback) Ht.
  exists front, (back ++ [t]). rewrite app_assoc. split; [reflexivity|].
  split; [exact Hfront|]. apply Forall_app. auto.
Qed.

Lemma separated_insert P Q before middle after :
  separated P Q (before ++ after) ->
  Forall (fun t => ~ P t /\ ~ Q t) middle ->
  separated P Q (before ++ middle ++ after).
Proof.
  intros (front & back & Heq & Hfront & Hback) Hmid.
  assert (HmP : Forall (fun t => ~ P t) middle)
    by (eapply Forall_impl; [exact Hmid | intros t [? ?]; assumption]).
  assert (HmQ : Forall (fun t => ~ Q t) middle)
    by (eapply Forall_impl; [exact Hmid | intros t [? ?]; assumption]).
  apply app_eq_inv in Heq as [(k & -> & ->) | (k & -> & ->)].
  - exists front, (k ++ middle ++ after).
    rewrite <- !app_assoc. split; [reflexivity|].
    apply Forall_app in Hback as [Hk Ha].
    split; [exact Hfront|]. repeat (apply Forall_app; split); assumption.
  - exists (before ++ middle ++ k), back.
    rewrite <- !app_assoc. split; [reflexivity|].
    apply Forall_app in Hfront as [Hb Hk].
    split; [|exact Hback]. repeat (apply Forall_app; split); assumption.
Qed.

Lemma flash_task_of_cons entry entries t :
  flash_task_of entries t -> flash_task_of (entry :: entries) t.
Proof.
  intros (image & slot & Hin & ->). exists image, slot.
  split; [apply list_elem_of_further; exact Hin | reflexivity].
Qed.

Lemma AddFlashTasks_added fp entries tasks w tasks' w' :
  AddFlashTasks fp entries tasks w = (Ok tasks', w') ->
  exists added, tasks' = tasks ++ added /\ Forall (flash_task_of entries) added.
Proof.
  revert tasks w. induction entries as [|[image slot] rest IH]; intros tasks w Hrun.
  - cbn in Hrun. unfold ret in Hrun. injection Hrun as <- <-.
    exists []. rewrite app_nil_r. auto.
  - cbn [AddFlashTasks] in Hrun.
    destruct (source fp) as [src|]; [|discriminate].
    apply bind_Ok_inv in Hrun as (loaded & w1 & _ & Hrest).
    destruct loaded.
    + apply IH in Hrest as (added & -> & Hall).
      exists (FlashTask slot (part_name image) (img_name image)
                        (is_vbmeta_partition (part_name image)) :: added).
      rewrite <- app_assoc. split; [reflexivity|].
      constructor.
      * exists image, slot. split; [apply list_elem_of_here | reflexivity].
      * eapply Forall_impl; [exact Hall | intros t; apply flash_task_of_cons].
    + destruct (optional_if_no_image image); [|discriminate].
      apply IH in Hrest as (added & -> & Hall).
      exists added. split; [reflexivity|].
      eapply Forall_impl; [exact Hall | intros t; apply flash_task_of_cons].
Qed.

Lemma CollectImages_types fp imgs boot_images os_images :
  CollectImages fp imgs = (boot_images, os_images) ->
  (forall image slot, (image, slot) ∈ boot_images ->
     image ∈ imgs /\ type image = BootCritical)
  /\ (forall image slot, (image, slot) ∈ os_images ->
        image ∈ imgs /\ type image = Normal).
Proof.
  revert boot_images os_images.
  induction imgs as [|first rest IH]; intros boot_images os_images Hrun.
  - cbn in Hrun. injection Hrun as <- <-.
    split; intros image slot Hin; inversion Hin.
  - cbn [CollectImages] in Hrun.
    destruct (CollectImages fp rest) as [boot os].
    destruct (IH boot os eq_refl) as [Hboot Hos].
    assert (Hkeep :
      (forall image slot, (image, slot) ∈ boot ->
         image ∈ first :: rest /\ type image = BootCritical)
      /\ (forall image slot, (image, slot) ∈ os ->
            image ∈ first :: rest /\ type image = Normal)).
    { split; intros image slot Hin;
        [destruct (Hboot image slot Hin) | destruct (Hos image slot Hin)];
        split; auto using list_elem_of_further. }
    destruct (IsSecondary first && skip_secondary fp).
    { injection Hrun as <- <-. exact Hkeep. }
    destruct Hkeep as [Hb Ho].
    destruct (type first) eqn:Hty; injection Hrun as <- <-; split; auto;
      intros image slot Hin; apply elem_of_cons in Hin as [Heq | Hin]; eauto;
      injection Heq as -> ->; (split; [apply list_elem_of_here | exact Hty]).
Qed.

Lemma AddResizeTasks_scan_resize fp tasks i loc resize_tasks :
  Forall is_resize resize_tasks ->
  Forall is_resize (snd (AddResizeTasks_scan fp tasks i loc resize_tasks)).
Proof.
  revert i loc resize_tasks.
  induction tasks as [|task rest IH]; intros i loc resize_tasks Hall; cbn.
  - exact Hall.
  - destruct (AsFlashTask task && IsDynamicPartition (source fp) task); apply IH.
    + apply Forall_app. split; [exact Hall|]. repeat constructor.
    + exact Hall.
Qed.

Lemma AddResizeTasks_shape fp tasks added tasks' :
  AddResizeTasks fp tasks = Ok (added, tasks') ->
  exists n resize_tasks,
    tasks' = take n tasks ++ resize_tasks ++ drop n tasks
    /\ Forall is_resize resize_tasks.
Proof.
  unfold AddResizeTasks. intros Hrun.
  assert (Hsame : exists n resize_tasks,
             tasks = take n tasks ++ resize_tasks ++ drop n tasks
             /\ Forall is_resize resize_tasks).
  { exists 0%nat, []. split; [reflexivity | constructor]. }
  destruct (source fp) as [src|]; [|discriminate].
  destruct (ReadFile src "super_empty.img") as [contents|];
    [|injection Hrun as <- <-; exact Hsame].
  destruct (ReadFromImageBlob contents); [|injection Hrun as <- <-; exact Hsame].
  pose proof (AddResizeTasks_scan_resize fp tasks 0 None [] (Forall_nil_2 _)) as Hres.
  destruct (AddResizeTasks_scan fp tasks 0 None []) as [[loc|] resize_tasks];
    injection Hrun as <- <-; [|exact Hsame].
  exists loc, resize_tasks. split; [reflexivity | exact Hres].
Qed.

Lemma ImageType_eqb_eq a b : ImageType_eqb a b = true -> a = b.
Proof. destruct a, b; cbn; congruence. Qed.

Lemma flashes_image_type imgs ty1 ty2 t :
  catalog_unambiguous imgs = true ->
  flashes_image imgs ty1 t -> flashes_image imgs ty2 t -> ty1 = ty2.
Proof.
  intros Hcat (a & sa & Ha & <- & ->) (b & sb & Hb & <- & Heq).
  injection Heq as _ Hpart Himg _.
  unfold catalog_unambiguous in Hcat. rewrite forallb_forall in Hcat.
  apply list_elem_of_In in Ha, Hb.
  specialize (Hcat a Ha). rewrite forallb_forall in Hcat. specialize (Hcat b Hb).
  rewrite Hpart, Himg, !String.eqb_refl in Hcat. cbn in Hcat.
  apply ImageType_eqb_eq. exact Hcat.
Qed.

Lemma flash_task_flashes imgs entries ty t :
  (forall image slot, (image, slot) ∈ entries -> image ∈ imgs /\ type image = ty) ->
  flash_task_of entries t -> flashes_image imgs ty t.
Proof.
  intros Hentries (image & slot & Hin & ->).
  destruct (Hentries image slot Hin) as [Himg Hty].
  exists image, slot. auto.
Qed.

(** C1: in the task list of [CollectTasksFromImageList], whichever images
    load, every flash task of a BootCritical image comes before the
    UpdateSuper task, and the UpdateSuper task comes before every flash task
    of a Normal image.  The catalog is any list in which a partition and
    file name determine the type, as in [images]; of
    [OptimizedFlashSuperTask::Initialize] it is assumed that it only takes
    tasks out of the vector. *)
Theorem CollectTasksFromImageList_order (imgs : list Image) (fp : FlashingPlan)
  (w w' : World) (tasks : list Task) :
  catalog_unambiguous imgs = true ->
  Initialize_only_removes ->
  CollectTasksFromImageList imgs fp w = (Ok tasks, w') ->
  precedes (flashes_image imgs BootCritical) is_update_super tasks
  /\ precedes is_update_super (flashes_image imgs Normal) tasks.
Proof.
  intros Hcat Hinit Hrun. unfold CollectTasksFromImageList in Hrun.
  destruct (CollectImages fp imgs) as [boot_images os_images] eqn:Hcollect.
  apply CollectImages_types in Hcollect as [Hboot Hos].
  apply bind_Ok_inv in Hrun as (tasks1 & w1 & Hadd1 & Hrun).
  apply bind_Ok_inv in Hrun as (tasks2 & w2 & Hadd2 & Hrun).
  apply bind_Ok_inv in Hrun as (flash_super_task & w3 & Hopt & Hrun).
  apply AddFlashTasks_added in Hadd1 as (boots & -> & Hboots).
  apply AddFlashTasks_added in Hadd2 as (oss & -> & Hoss).
  cbn [app] in *.
  assert (HB : Forall (flashes_image imgs BootCritical) boots)
    by (eapply Forall_impl; [exact Hboots | intros t; exact (flash_task_flashes _ _ _ t Hboot)]).
  assert (HN : Forall (flashes_image imgs Normal) oss)
    by (eapply Forall_impl; [exact Hoss | intros t; exact (flash_task_flashes _ _ _ t Hos)]).
  assert (Hflash_us : forall ty t, flashes_image imgs ty t -> ~ is_update_super t).
  { intros ty t (image & slot & _ & _ & ->) Hus. discriminate Hus. }
  assert (Hsep1 : separated (flashes_image imgs BootCritical) is_update_super
                            ((boots ++ [UpdateSuperTask]) ++ oss)).
  { exists boots, (UpdateSuperTask :: oss). rewrite <- app_assoc.
    split; [reflexivity|]. split.
    - eapply Forall_impl; [exact HB | intros t; apply Hflash_us].
    - constructor.
      + intros Hf. exact (Hflash_us _ _ Hf eq_refl).
      + eapply Forall_impl; [exact HN|]. intros t Ht Hb.
        pose proof (flashes_image_type imgs _ _ t Hcat Ht Hb). discriminate. }
  assert (Hsep2 : separated is_update_super (flashes_image imgs Normal)
                            ((boots ++ [UpdateSuperTask]) ++ oss)).
  { exists (boots ++ [UpdateSuperTask]), oss.
    split; [reflexivity|]. split.
    - apply Forall_app. split.
      + eapply Forall_impl; [exact HB|]. intros t Ht Hn.
        pose proof (flashes_image_type imgs _ _ t Hcat Ht Hn). discriminate.
      + constructor; [|constructor]. intros Hf. exact (Hflash_us _ _ Hf eq_refl).
    - eapply Forall_impl; [exact HN | intros t; apply Hflash_us]. }
  destruct flash_super_task as [kept|].
  - unfold ret in Hrun. injection Hrun as <- <-.
    apply Hinit in Hopt.
    split; apply separated_precedes, separated_snoc;
      try (eapply separated_sublist; [exact Hopt|]; assumption).
    + intros (image & slot & _ & _ & Heq). discriminate Heq.
    + intros Hus. discriminate Hus.
  - apply bind_Ok_inv in Hrun as ([added final] & w4 & Hresize & Hrun).
    unfold ret in Hrun. injection Hrun as <- <-. cbn [snd].
    unfold lift in Hresize. injection Hresize as Hresize _.
    apply AddResizeTasks_shape in Hresize as (n & resize_tasks & -> & Hres).
    split; apply separated_precedes, separated_insert;
      rewrite ?take_drop; try assumption;
      (eapply Forall_impl; [exact Hres|]; intros t Ht; split;
       [intros Hp | intros Hq]; destruct t; try contradiction;
       try discriminate;
       try (destruct Hp as (? & ? & _ & _ & Heq); discriminate Heq);
       try (destruct Hq as (? & ? & _ & _ & Heq); discriminate Heq)).
Qed.

End OrderFacts.

Lemma CollectTasksFromImageList_order_witness :
  let tasks :=
    [FlashTask "" "boot" "boot.img" false; FlashTask "" "vbmeta" "vbmeta.img" true;
     UpdateSuperTask; ResizeTask "system" "0" ""; FlashTask "" "system" "system.img" false] in
  precedes (flashes_image images BootCritical) is_update_super tasks
  /\ precedes is_update_super (flashes_image images Normal) tasks.
Proof.
  intros tasks.
  pose (fp := Reference.plan Samples.product_out false).
  pose (w := Reference.world [("max-download-size", "4096")]).
  apply (@CollectTasksFromImageList_order Reference.libbase Reference.collaborators
           images fp w
           (snd (@CollectTasksFromImageList Reference.libbase Reference.collaborators
                   images fp w))
           tasks).
  - reflexivity.
  - intros fp0 ts ts' w0 w0' Hinit. discriminate Hinit.
  - apply injective_projections; [vm_compute; reflexivity | reflexivity].
Defined.

(** * Further properties *)

(** ** Strings *)

Lemma append_nil_r (s : string) : (s ++ "")%string = s.
Proof. induction s as [|c s IH]; cbn; [reflexivity | rewrite IH; reflexivity]. Qed.

Lemma append_assoc (a b c : string) : ((a ++ b) ++ c = a ++ (b ++ c))%string.
Proof. induction a as [|x a IH]; cbn; [reflexivity | rewrite IH; reflexivity]. Qed.


Lemma Split_from_free (base rest delimiters tok : string) :
  free_of delimiters base ->
  Split_from (base ++ rest) delimiters tok = Split_from rest delimiters (tok ++ base).
Proof.
  unfold free_of. revert tok. induction base as [|c base IH]; intros tok Hfree; cbn.
  - rewrite append_nil_r. reflexivity.
  - cbn in Hfree. apply andb_true_iff in Hfree as [Hc Hbase].
    apply negb_true_iff in Hc. rewrite Hc, IH by exact Hbase.
    rewrite append_assoc. reflexivity.
Qed.

Lemma Split_from_nonempty (s delimiters tok : string) :
  Split_from s delimiters tok <> [].
Proof.
  revert tok. induction s as [|c s IH]; intros tok; cbn; [discriminate|].
  destruct (is_delimiter delimiters c); [discriminate | apply IH].
Qed.

Lemma Join_cons_nonempty (token : string) (rest : list string) (separator : string) :
  rest <> [] -> Join (token :: rest) separator = (token ++ separator ++ Join rest separator)%string.
Proof. destruct rest; [contradiction | reflexivity]. Qed.

Lemma Join_Split_from (s tok : string) :
  Join (Split_from s ":" tok) ":" = (tok ++ s)%string.
Proof.
  revert tok. induction s as [|c s IH]; intros tok; cbn [Split_from].
  - cbn. rewrite append_nil_r. reflexivity.
  - destruct (is_delimiter ":" c) eqn:Hc; cbv iota.
    + rewrite Join_cons_nonempty by apply Split_from_nonempty.
      rewrite IH. cbn in Hc. rewrite orb_false_r in Hc.
      apply Ascii.eqb_eq in Hc. subst c. reflexivity.
    + rewrite IH, append_assoc. reflexivity.
Qed.

(** The first token of a partition name and what [Join] makes of the
    tokens once the first one is replaced. *)
Lemma Split_base (base rest : string) :
  free_of ":" base -> colon_suffix rest ->
  hd "" (Split (base ++ rest) ":") = base
  /\ forall first, Join (first :: tl (Split (base ++ rest) ":")) ":" = (first ++ rest)%string.
Proof.
  intros Hfree Hrest. unfold Split. rewrite Split_from_free by exact Hfree. cbn [append].
  destruct Hrest as [-> | [more ->]]; cbn.
  - split; [reflexivity|]. intros first. rewrite append_nil_r. reflexivity.
  - split; [reflexivity|]. intros first.
    destruct (Split_from more ":" "") as [|t l] eqn:E;
      [exfalso; exact (Split_from_nonempty _ _ _ E)|].
    rewrite <- E, Join_Split_from. reflexivity.
Qed.

(** ** Slots and partition names *)

Section PartitionFacts.
Context `{LibBase}.

Lemma length_one (s : string) : C.size s = 1 -> exists c, s = C.string1 c.
Proof.
  unfold C.size. destruct s as [|c [|d s]]; cbn [String.length]; intros Hlen; try lia.
  exists c. reflexivity.
Qed.

(** X1: [verify_slot] is sound for a slot named on the command line: when it
    returns for a name other than ["other"], the result is ["all"] (asked
    for with [allow_all]), or ["a"] on a device that reports at least one
    slot, or the name itself, which is then a single letter in the range
    ['a' .. 'a' + slot-count). *)
Theorem verify_slot_sound (slot_name : string) (allow_all : bool) (w w' : World)
  (slot : string) :
  verify_slot slot_name allow_all w = (Ok slot, w') -> slot_name <> "other" ->
  (slot_name = "all" /\ allow_all = true /\ slot = "all")
  \/ (slot_name = "all" /\ allow_all = false /\ slot = "a"
      /\ exists count, get_slot_count w = (Ok count, w') /\ 0 < count)
  \/ (slot = slot_name /\ exists letter count,
        slot_name = C.string1 letter /\ get_slot_count w = (Ok count, w')
        /\ 0 <= C.char_to_int letter - C.char_to_int "a" < count).
Proof.
  intros Hrun Hother. unfold verify_slot in Hrun.
  destruct (String.eqb_spec slot_name "all") as [-> | Hall].
  - destruct allow_all.
    + left. injection Hrun as <- <-. auto.
    + right; left. apply bind_Ok_inv in Hrun as (count & w1 & Hcount & Hrun).
      destruct (Z.ltb_spec 0 count); [|discriminate].
      injection Hrun as <- <-. eauto 8.
  - right; right. apply bind_Ok_inv in Hrun as (count & w1 & Hcount & Hrun).
    destruct (count =? 0); [discriminate|].
    destruct (String.eqb_spec slot_name "other"); [contradiction|].
    destruct (Z.eqb_spec (C.size slot_name) 1) as [Hsize|]; [|discriminate].
    destruct (Z.leb_spec 0 (C.char_to_int (C.front slot_name) - C.char_to_int "a"));
      [|discriminate].
    destruct (Z.ltb_spec (C.char_to_int (C.front slot_name) - C.char_to_int "a") count);
      [|discriminate].
    cbn in Hrun. injection Hrun as <- <-.
    destruct (length_one _ Hsize) as [letter ->].
    split; [reflexivity|]. exists letter, count. cbn in *. auto.
Qed.

Lemma get_slot_count_stable w w1 count w' :
  get_slot_count w = (Ok count, w') -> vars w1 = vars w ->
  get_slot_count w1 = (Ok count, sent "slot-count" w1).
Proof.
  unfold get_slot_count, bind, GetVar, ret. intros Hrun ->.
  destruct (vars w "slot-count") as [var|]; [destruct (ParseInt var)|];
    injection Hrun as <- _; reflexivity.
Qed.

Lemma get_current_slot_plain w c rest :
  vars w "current-slot" = Some (String c rest) -> c <> "_"%char ->
  get_current_slot w = (Ok (String c rest), sent "current-slot" w).
Proof.
  intros Hvar Hc. unfold get_current_slot, bind, GetVar, ret. rewrite Hvar.
  destruct c as [[] [] [] [] [] [] [] []]; try reflexivity. contradiction.
Qed.

Lemma get_current_slot_underscore w rest :
  vars w "current-slot" = Some (String "_" rest) ->
  get_current_slot w = (Ok rest, sent "current-slot" w).
Proof.
  intros Hvar. unfold get_current_slot, bind, GetVar, ret. rewrite Hvar. reflexivity.
Qed.

Lemma get_current_slot_unknown w :
  vars w "current-slot" = None -> get_current_slot w = (Ok "", sent "current-slot" w).
Proof.
  intros Hvar. unfold get_current_slot, bind, GetVar, ret. rewrite Hvar. reflexivity.
Qed.

Lemma slot_letter_not_empty c : String.eqb (get_other_slot (slot_letter c) 1) "" = false.
Proof. reflexivity. Qed.

(** X2: on a device with [N] slots whose current slot is the letter
    number [c], reported with or without a leading underscore,
    [verify_slot("other")] returns the cyclic successor of [c]; it asks the
    device for [slot-count] and [current-slot] and nothing else. *)
Theorem verify_slot_other_is_successor (w : World) (N c : Z) (allow_all : bool)
  (reported : string) :
  1 <= N <= 26 -> 0 <= c < N ->
  get_slot_count w = (Ok N, sent "slot-count" w) ->
  vars w "current-slot" = Some reported ->
  reported = slot_letter c \/ reported = String "_" (slot_letter c) ->
  verify_slot "other" allow_all w
  = (Ok (slot_letter ((c + 1) mod N)), sent "current-slot" (sent "slot-count" w)).
Proof.
  intros HN Hc Hcount Hvar Hrep. unfold verify_slot.
  change (String.eqb "other" "all") with false. cbv iota.
  rewrite (bind_Ok _ _ _ _ _ Hcount).
  destruct (Z.eqb_spec N 0); [lia|].
  change (String.eqb "other" "other") with true. cbv iota.
  unfold get_other_slot_count.
  assert (Hcur : get_current_slot (sent "slot-count" w)
                 = (Ok (slot_letter c), sent "current-slot" (sent "slot-count" w))).
  { destruct Hrep as [-> | ->].
    - apply get_current_slot_plain; [exact Hvar|].
      intros Heq.
      assert (Hval : C.char_to_int (C.int_to_char (c + C.char_to_int "a"))
                     = C.char_to_int "_") by (rewrite Heq; reflexivity).
      rewrite char_a, char_roundtrip in Hval by lia.
      change (C.char_to_int "_") with 95 in Hval. lia.
    - apply get_current_slot_underscore. exact Hvar. }
  unfold bind at 1. unfold bind at 1. rewrite Hcur. unfold ret at 1.
  rewrite get_other_slot_letter by lia.
  unfold slot_letter at 1. cbn [C.string1 String.eqb]. reflexivity.
Qed.

Lemma do_for_partition_slotted part base rest slot force_slot w :
  part = (base ++ rest)%string -> free_of ":" base -> colon_suffix rest ->
  vars w ("has-slot:" ++ base)%string = Some "yes" -> slot <> "" ->
  do_for_partition part slot force_slot w
  = (Ok (base ++ "_" ++ slot ++ rest)%string, sent ("has-slot:" ++ base)%string w).
Proof.
  intros -> Hfree Hrest Hvar Hslot. unfold do_for_partition.
  destruct (Split_base base rest Hfree Hrest) as [Hhd Hjoin].
  rewrite Hhd, Hjoin. unfold bind, GetVar, ret. rewrite Hvar.
  change (String.eqb "yes" "yes") with true. cbv iota.
  rewrite (proj2 (String.eqb_neq slot "") Hslot).
  rewrite !append_assoc. reflexivity.
Qed.

Lemma do_for_partition_unslotted part slot force_slot w :
  vars w ("has-slot:" ++ hd "" (Split part ":"))%string <> Some "yes" ->
  do_for_partition part slot force_slot w
  = (Ok part, sent ("has-slot:" ++ hd "" (Split part ":"))%string w).
Proof.
  intros Hvar. unfold do_for_partition, bind, GetVar, ret.
  destruct (vars w _) as [value|]; [|reflexivity].
  destruct (String.eqb_spec value "yes") as [->|]; [contradiction | reflexivity].
Qed.

Lemma string1_not_empty c : C.string1 c <> "".
Proof. discriminate. Qed.

Lemma do_for_slots_names part base rest force_slot N w :
  part = (base ++ rest)%string -> free_of ":" base -> colon_suffix rest ->
  vars w ("has-slot:" ++ base)%string = Some "yes" ->
  get_slot_count w = (Ok N, sent "slot-count" w) ->
  forall (rounds : nat) (i : nat) (w1 : World),
    vars w1 = vars w -> (Z.of_nat i + Z.of_nat rounds >= N) ->
    fst (do_for_slots rounds (Z.of_nat i) N part force_slot w1)
    = Ok (map (fun k : nat =>
                 (base ++ "_" ++ C.string1 (C.int_to_char (Z.of_nat k + C.char_to_int "a"))
                  ++ rest)%string)
              (seq i (Z.to_nat N - i))).
Proof.
  intros Hpart Hfree Hrest Hvar Hcount.
  induction rounds as [|rounds IH]; intros i w1 Hw1 Hfuel; cbn [do_for_slots].
  - destruct (Z.ltb_spec (Z.of_nat i) N); [lia|].
    replace (Z.to_nat N - i)%nat with 0%nat by lia. reflexivity.
  - destruct (Z.ltb_spec (Z.of_nat i) N) as [Hlt|Hge].
    + rewrite (bind_Ok _ _ _ _ _
                 (do_for_partition_slotted part base rest _ force_slot w1 Hpart Hfree Hrest
                    (eq_trans (f_equal (fun v => v _) Hw1) Hvar) (string1_not_empty _))).
      rewrite (bind_Ok _ _ _ _ _
                 (get_slot_count_stable w _ N _ Hcount
                    (Hw1 : vars (sent _ w1) = vars w))).
      unfold bind.
      specialize (IH (S i) (sent "slot-count" (sent ("has-slot:" ++ base)%string w1)) Hw1).
      replace (Z.of_nat i + 1) with (Z.of_nat (S i)) by lia.
      assert (Hfuel' : Z.of_nat (S i) + Z.of_nat rounds >= N) by lia.
      specialize (IH Hfuel').
      destruct (do_for_slots rounds (Z.of_nat (S i)) N part force_slot _) as [[names|e] w2];
        cbn [fst] in IH; [|discriminate IH].
      injection IH as ->. unfold ret. cbn [fst].
      replace (Z.to_nat N - i)%nat with (S (Z.to_nat N - S i)) by lia.
      reflexivity.
    + replace (Z.to_nat N - i)%nat with 0%nat by lia. reflexivity.
Qed.

(** X3: [do_for_partitions] with slot ["all"] on a partition that has
    slots calls [func] once per slot of the device, in the order of the slot
    letters, with the name [base_slot]; what follows a colon in the
    partition argument is carried over to each name. *)
Theorem do_for_partitions_all_slots (part base rest : string) (force_slot : bool)
  (N : Z) (w : World) :
  part = (base ++ rest)%string -> free_of ":" base -> colon_suffix rest ->
  vars w ("has-slot:" ++ base)%string = Some "yes" ->
  get_slot_count w = (Ok N, sent "slot-count" w) ->
  fst (do_for_partitions part "all" force_slot w)
  = Ok (map (fun slot => (base ++ "_" ++ slot ++ rest)%string) (supported_slots N)).
Proof.
  intros Hpart Hfree Hrest Hvar Hcount. unfold do_for_partitions.
  change (String.eqb "all" "all") with true. cbv iota.
  destruct (Split_base base rest Hfree Hrest) as [Hhd _]. rewrite Hpart, Hhd.
  unfold bind at 1. unfold GetVar at 1. rewrite Hvar.
  change (String.eqb "yes" "yes") with true. cbv iota.
  rewrite (bind_Ok _ _ _ _ _
             (get_slot_count_stable w (sent ("has-slot:" ++ base)%string w) N _ Hcount eq_refl)).
  rewrite <- Hpart.
  pose proof (do_for_slots_names part base rest force_slot N w Hpart Hfree Hrest Hvar Hcount
                (Z.to_nat N) 0%nat
                (sent "slot-count" (sent ("has-slot:" ++ base)%string w)) eq_refl
                ltac:(lia)) as Hloop.
  change (Z.of_nat 0) with 0 in Hloop. rewrite Hloop.
  unfold supported_slots. rewrite map_map, Nat.sub_0_r. reflexivity.
Qed.

(** X4: [do_for_partitions] with a single slot calls [func] once: with
    the partition as given when the device does not report it as slotted,
    with [base_slot] when it does; with an empty slot on a slotted partition
    and a device that does not tell its current slot the process dies. *)
Theorem do_for_partitions_one_slot (part base rest slot : string) (force_slot : bool)
  (w : World) :
  part = (base ++ rest)%string -> free_of ":" base -> colon_suffix rest ->
  slot <> "all" ->
  (vars w ("has-slot:" ++ base)%string <> Some "yes" ->
   fst (do_for_partitions part slot force_slot w) = Ok [part])
  /\ (vars w ("has-slot:" ++ base)%string = Some "yes" -> slot <> "" ->
      fst (do_for_partitions part slot force_slot w)
      = Ok [(base ++ "_" ++ slot ++ rest)%string])
  /\ (vars w ("has-slot:" ++ base)%string = Some "yes" -> slot = "" ->
      vars w "current-slot" = None ->
      fst (do_for_partitions part slot force_slot w)
      = Fail (Died "Failed to identify current slot")).
Proof.
  intros Hpart Hfree Hrest Hall. unfold do_for_partitions.
  rewrite (proj2 (String.eqb_neq slot "all") Hall).
  destruct (Split_base base rest Hfree Hrest) as [Hhd Hjoin].
  split; [|split].
  - intros Hvar.
    rewrite (bind_Ok _ _ _ _ _ (do_for_partition_unslotted part slot force_slot w
                                  ltac:(rewrite Hpart, Hhd; exact Hvar))).
    reflexivity.
  - intros Hvar Hslot.
    rewrite (bind_Ok _ _ _ _ _ (do_for_partition_slotted part base rest slot force_slot w
                                  Hpart Hfree Hrest Hvar Hslot)).
    reflexivity.
  - intros Hvar -> Hcur. unfold do_for_partition. rewrite Hpart, Hhd.
    unfold bind at 1. unfold bind at 1. unfold GetVar at 1. rewrite Hvar.
    change (String.eqb "yes" "yes") with true. cbn [String.eqb].
    unfold bind. rewrite get_current_slot_unknown by exact Hcur. reflexivity.
Qed.

(** When the device does not answer [has-slot], ["all"] dies and any other
    slot goes on with the partition as given. *)
Lemma do_for_partitions_without_has_slot (part slot : string) (force_slot : bool)
  (w : World) :
  vars w ("has-slot:" ++ hd "" (Split part ":"))%string = None ->
  (slot = "all" ->
   fst (do_for_partitions part slot force_slot w)
   = Fail (Died "Could not check if partition has slot"))
  /\ (slot <> "all" -> fst (do_for_partitions part slot force_slot w) = Ok [part]).
Proof.
  intros Hvar. unfold do_for_partitions. split.
  - intros ->. change (String.eqb "all" "all") with true. cbv iota.
    unfold bind, GetVar. rewrite Hvar. reflexivity.
  - intros Hall. rewrite (proj2 (String.eqb_neq slot "all") Hall).
    rewrite (bind_Ok _ _ _ _ _ (do_for_partition_unslotted part slot force_slot w
                                  ltac:(rewrite Hvar; discriminate))).
    reflexivity.
Qed.

Lemma get_current_slot_runs w :
  exists current, get_current_slot w = (Ok current, sent "current-slot" w).
Proof.
  unfold get_current_slot, bind, GetVar, ret.
  destruct (vars w "current-slot") as [[|c rest]|]; eauto.
  destruct c as [[] [] [] [] [] [] [] []]; eauto.
Qed.

Lemma sent_vars name w : vars (sent name w) = vars w.
Proof. reflexivity. Qed.

(** X5: [DetermineSlot] always returns.  A plan that does not skip the
    secondary images afterwards has a non-empty secondary slot; a plan that
    skipped them before still does; a slot given on the command line becomes
    the current slot; a device that does not report [slot-count] makes the
    plan skip the secondary images.  The source, the slot override, the wipe
    flag and the sparse limit of the plan, the device variables and the
    sparse-limit cache are untouched. *)
Theorem DetermineSlot_plan (fp : FlashingPlan) (w : World) :
  exists (fp' : FlashingPlan) (w' : World),
    DetermineSlot fp w = (Ok fp', w')
    /\ (skip_secondary fp' = false -> secondary_slot fp' <> "")
    /\ (skip_secondary fp = true ->
        skip_secondary fp' = true /\ secondary_slot fp' = secondary_slot fp)
    /\ (slot_override fp <> "" -> current_slot fp' = slot_override fp)
    /\ (vars w "slot-count" = None -> skip_secondary fp' = true)
    /\ source fp' = source fp /\ slot_override fp' = slot_override fp
    /\ wants_wipe fp' = wants_wipe fp /\ sparse_limit fp' = sparse_limit fp
    /\ vars w' = vars w /\ target_sparse_limit w' = target_sparse_limit w.
Proof.
  unfold DetermineSlot.
  assert (Hcur : exists current w1,
            (if String.eqb (slot_override fp) "" then get_current_slot
             else ret (slot_override fp)) w = (Ok current, w1)
            /\ vars w1 = vars w /\ target_sparse_limit w1 = target_sparse_limit w
            /\ (slot_override fp <> "" -> current = slot_override fp)).
  { destruct (String.eqb_spec (slot_override fp) "") as [E|E].
    - destruct (get_current_slot_runs w) as [current Hrun].
      exists current, (sent "current-slot" w). rewrite E. repeat split; auto.
      intros Hne; contradiction.
    - exists (slot_override fp), w. repeat split; auto. }
  destruct Hcur as (current & w1 & Hrun & Hvars1 & Hcache1 & Hcurrent).
  rewrite (bind_Ok _ _ _ _ _ Hrun). cbn [skip_secondary slot_override].
  destruct (skip_secondary fp) eqn:Hskip.
  { eexists _, w1. split; [reflexivity|]. cbn.
    repeat split; auto; discriminate. }
  assert (Hsec : exists secondary w2,
            (if negb (String.eqb (slot_override fp) "")
                && negb (String.eqb (slot_override fp) "all")
             then get_other_slot_of (slot_override fp)
             else get_other_slot_current) w1 = (Ok secondary, w2)
            /\ vars w2 = vars w /\ target_sparse_limit w2 = target_sparse_limit w
            /\ (vars w "slot-count" = None -> secondary = "")).
  { destruct (get_slot_count_sent w1) as [count Hcount].
    assert (Hzero : vars w "slot-count" = None -> forall w3, vars w3 = vars w ->
                    get_slot_count w3 = (Ok 0, sent "slot-count" w3)).
    { intros Hnone w3 Hw3. unfold get_slot_count, bind, GetVar, ret.
      rewrite Hw3, Hnone. reflexivity. }
    destruct (_ && _).
    - unfold get_other_slot_of. rewrite (bind_Ok _ _ _ _ _ Hcount).
      eexists _, _. split; [reflexivity|]. repeat split; auto.
      intros Hnone. rewrite (Hzero Hnone w1 Hvars1) in Hcount.
      injection Hcount as <-. reflexivity.
    - unfold get_other_slot_current.
      destruct (get_current_slot_runs w1) as [cur Hc]. rewrite (bind_Ok _ _ _ _ _ Hc).
      destruct (get_slot_count_sent (sent "current-slot" w1)) as [count2 Hcount2].
      rewrite (bind_Ok _ _ _ _ _ Hcount2).
      eexists _, _. split; [reflexivity|]. repeat split; auto.
      intros Hnone. rewrite (Hzero Hnone (sent "current-slot" w1) Hvars1) in Hcount2.
      injection Hcount2 as <-. reflexivity. }
  destruct Hsec as (secondary & w2 & Hrun2 & Hvars2 & Hcache2 & Hnone).
  cbn [source slot_override current_slot secondary_slot wants_wipe
       should_optimize_flash_super sparse_limit skip_secondary].
  rewrite (bind_Ok _ _ _ _ _ Hrun2).
  destruct (String.eqb_spec secondary "") as [E|E].
  - unfold supports_AB.
    destruct (get_slot_count_sent w2) as [count Hcount].
    unfold bind at 1. unfold bind at 1. rewrite Hcount. unfold ret.
    eexists _, _. split; [reflexivity|]. cbn.
    repeat split; auto; discriminate.
  - eexists _, w2. split; [reflexivity|]. cbn.
    repeat split; auto; try discriminate;
      try (intros Hn; exfalso; apply E, Hnone, Hn).
Qed.

End PartitionFacts.

Lemma verify_slot_sound_witness :
  let w := Reference.world [("slot-count", "2")] in
  let get_slot_count := @get_slot_count Reference.libbase in
  ("b" = "all" /\ false = true /\ "b" = "all")
  \/ ("b" = "all" /\ false = false /\ "b" = "a"
      /\ exists count, get_slot_count w = (Ok count, sent "slot-count" w) /\ 0 < count)
  \/ ("b" = "b" /\ exists letter count,
        "b" = C.string1 letter /\ get_slot_count w = (Ok count, sent "slot-count" w)
        /\ 0 <= C.char_to_int letter - C.char_to_int "a" < count).
Proof.
  intros w.
  apply (@verify_slot_sound Reference.libbase "b" false w (sent "slot-count" w) "b");
    [reflexivity | discriminate].
Defined.

Lemma verify_slot_other_is_successor_witness :
  let w := Reference.world [("slot-count", "2"); ("current-slot", "a")] in
  @verify_slot Reference.libbase "other" false w
  = (Ok (slot_letter ((0 + 1) mod 2)), sent "current-slot" (sent "slot-count" w)).
Proof.
  intros w.
  apply (@verify_slot_other_is_successor Reference.libbase w 2 0 false "a");
    [lia | lia | reflexivity | reflexivity | left; reflexivity].
Defined.

Lemma do_for_partitions_all_slots_witness :
  let w := Reference.world [("has-slot:boot", "yes"); ("slot-count", "2")] in
  fst (@do_for_partitions Reference.libbase "boot" "all" false w)
  = Ok (map (fun slot => ("boot" ++ "_" ++ slot ++ "")%string) (supported_slots 2)).
Proof.
  intros w.
  apply (@do_for_partitions_all_slots Reference.libbase "boot" "boot" "" false 2 w);
    [reflexivity | reflexivity | left; reflexivity | reflexivity | reflexivity].
Defined.

Lemma do_for_partitions_one_slot_witness :
  let w := Reference.world [("has-slot:boot", "yes")] in
  let do_for_partitions := @do_for_partitions Reference.libbase in
  (vars w ("has-slot:" ++ "boot")%string <> Some "yes" ->
   fst (do_for_partitions "boot" "b" false w) = Ok ["boot"])
  /\ (vars w ("has-slot:" ++ "boot")%string = Some "yes" -> "b" <> "" ->
      fst (do_for_partitions "boot" "b" false w) = Ok [("boot" ++ "_" ++ "b" ++ "")%string])
  /\ (vars w ("has-slot:" ++ "boot")%string = Some "yes" -> "b" = "" ->
      vars w "current-slot" = None ->
      fst (do_for_partitions "boot" "b" false w)
      = Fail (Died "Failed to identify current slot")).
Proof.
  intros w.
  apply (@do_for_partitions_one_slot Reference.libbase "boot" "boot" "" "b" false w);
    [reflexivity | reflexivity | left; reflexivity | discriminate].
Defined.

(** X6: every image collected by [CollectImages] comes from the catalog
    and is not of type [Extra]; a secondary image is collected only when the
    plan does not skip secondaries, and then for the secondary slot; every
    other image is collected for the slot override. *)
Theorem CollectImages_slots (fp : FlashingPlan) (imgs : list Image)
  (image : Image) (slot : string) :
  (image, slot) ∈ fst (CollectImages fp imgs) ++ snd (CollectImages fp imgs) ->
  image ∈ imgs /\ type image <> Extra
  /\ (IsSecondary image = true -> skip_secondary fp = false /\ slot = secondary_slot fp)
  /\ (IsSecondary image = false -> slot = slot_override fp).
Proof.
  induction imgs as [|first rest IH]; cbn [CollectImages].
  - cbn. intros Hin. inversion Hin.
  - destruct (CollectImages fp rest) as [boot os]. cbn [fst snd] in IH.
    assert (Hrest : (image, slot) ∈ boot ++ os ->
                    image ∈ first :: rest /\ type image <> Extra
                    /\ (IsSecondary image = true ->
                        skip_secondary fp = false /\ slot = secondary_slot fp)
                    /\ (IsSecondary image = false -> slot = slot_override fp)).
    { intros Hin. destruct (IH Hin) as (? & ? & ? & ?).
      auto using list_elem_of_further. }
    assert (Hfirst : IsSecondary first && skip_secondary fp = false ->
                     (image, slot)
                     = (first, if IsSecondary first then secondary_slot fp
                               else slot_override fp) ->
                     type first <> Extra ->
                     image ∈ first :: rest /\ type image <> Extra
                     /\ (IsSecondary image = true ->
                         skip_secondary fp = false /\ slot = secondary_slot fp)
                     /\ (IsSecondary image = false -> slot = slot_override fp)).
    { intros Hskip Heq Hty. injection Heq as -> ->.
      split; [apply list_elem_of_here|]. split; [exact Hty|].
      destruct (IsSecondary first); cbn in Hskip; split; intros; auto; discriminate. }
    destruct (IsSecondary first && skip_secondary fp) eqn:Hskip; [exact Hrest|].
    destruct (type first) eqn:Hty; cbn [fst snd]; intros Hin; auto.
    + apply elem_of_cons in Hin as [Heq | Hin]; auto.
    + apply elem_of_app in Hin as [Hin | Hin].
      * apply Hrest, elem_of_app. auto.
      * apply elem_of_cons in Hin as [Heq | Hin].
        -- apply Hfirst; auto.
        -- apply Hrest, elem_of_app. auto.
Qed.

(** ** Sparse limit and buffer loading *)

Lemma CollectImages_slots_witness :
  let fp := Reference.plan [] false in
  let boot := mkImage "boot" "boot.img" "boot.sig" "boot" false BootCritical in
  boot ∈ images /\ type boot <> Extra
  /\ (IsSecondary boot = true -> skip_secondary fp = false /\ "" = secondary_slot fp)
  /\ (IsSecondary boot = false -> "" = slot_override fp).
Proof.
  intros fp boot.
  apply (CollectImages_slots fp images boot "").
  apply list_elem_of_here.
Defined.

Section LoadFacts.
Context `{LibBase} `{Collaborators}.

Lemma to_int64_small z : 0 <= z < 2 ^ 63 -> C.to_int64 z = z.
Proof. intros Hz. unfold C.to_int64. rewrite Z.mod_small; lia. Qed.



(** X8: when the plan has no limit of its own, [get_sparse_limit] asks
    the device at most once: after a first call that left a value in the
    cache, a second call answers from the cache and leaves the state as it
    is, and the first call did not change the device variables. *)
Theorem get_sparse_limit_asks_once (size1 size2 : Z) (fp : FlashingPlan) (w w1 : World)
  (limit1 : Z) :
  C.to_int64 (sparse_limit fp) = 0 ->
  get_sparse_limit size1 fp w = (Ok limit1, w1) ->
  target_sparse_limit w1 <> -1 ->
  get_sparse_limit size2 fp w1
  = (Ok (if 0 <? target_sparse_limit w1
         then resparse_answer (target_sparse_limit w1) size2 else 0), w1)
  /\ vars w1 = vars w.
Proof.
  intros Hplan Hrun Hcache.
  assert (Hcapture : flash_capturer w1 = false /\ vars w1 = vars w).
  { unfold get_sparse_limit, sparse_limit_choice in Hrun. rewrite Hplan in Hrun.
    cbn [Z.eqb] in Hrun.
    apply bind_Ok_inv in Hrun as (choice & w2 & Hchoice & Hrun).
    apply bind_Ok_inv in Hchoice as (capturing & w3 & Hcap & Hchoice).
    unfold has_flash_capturer, get in Hcap. injection Hcap as <- <-.
    destruct (flash_capturer w) eqn:Hfc; [discriminate|].
    apply bind_Ok_inv in Hchoice as (cache & w4 & Hget & Hchoice).
    unfold get in Hget. injection Hget as <- <-.
    apply bind_Ok_inv in Hchoice as (u & w5 & Hquery & Hchoice).
    apply bind_Ok_inv in Hchoice as (cache' & w6 & Hget & Hchoice).
    unfold get in Hget. injection Hget as <- <-.
    assert (Hw5 : flash_capturer w5 = false /\ vars w5 = vars w).
    { destruct (target_sparse_limit w =? -1).
      - apply bind_Ok_inv in Hquery as (value & w7 & Hvalue & Hset).
        destruct (get_uint_var_sent "max-download-size" w) as [v Hv].
        rewrite Hv in Hvalue. injection Hvalue as <- <-.
        unfold set_target_sparse_limit in Hset. injection Hset as _ <-. cbn. auto.
      - injection Hquery as _ <-. auto. }
    assert (w2 = w5) as ->.
    { destruct (0 <? target_sparse_limit w5); injection Hchoice as _ <-; reflexivity. }
    assert (w1 = w5) as ->.
    { destruct choice as [c|]; [destruct (c <? size1)|]; injection Hrun as _ <-; reflexivity. }
    exact Hw5. }
  destruct Hcapture as [Hfc Hvars]. split; [|exact Hvars].
  unfold get_sparse_limit, sparse_limit_choice. rewrite Hplan. cbn [Z.eqb].
  unfold bind, has_flash_capturer, get, ret, resparse_answer. rewrite Hfc.
  destruct (Z.eqb_spec (target_sparse_limit w1) (-1)); [contradiction|].
  destruct (0 <? target_sparse_limit w1); [|reflexivity].
  destruct (target_sparse_limit w1 <? size2); reflexivity.
Qed.

(** X9: a buffer loaded by [load_buf_fd] holds the file it was given;
    it is typed sparse exactly when libsparse imports the file, with the
    length of the sparse image as image size, and typed as a plain file with
    the file size as image size otherwise; a buffer to be sent whole has the
    file size as [sz], a buffer to be sent in pieces has at least one piece
    and its [sz] is not set. *)
Theorem load_buf_fd_buffer (file : list byte) (buf buf' : fastboot_buffer)
  (fp : FlashingPlan) (w w' : World) :
  load_buf_fd file buf fp w = (Ok (Some buf'), w') ->
  fd buf' = file
  /\ get_file_size file <> -1
  /\ (file_type buf' = FB_BUFFER_SPARSE <->
      exists s, sparse_file_import file = Some s /\ image_size buf' = sparse_file_len s
                /\ 0 <= image_size buf')
  /\ (file_type buf' = FB_BUFFER_FD -> image_size buf' = get_file_size file)
  /\ (buf_type buf' = FB_BUFFER_FD -> sz buf' = get_file_size file /\ files buf' = files buf)
  /\ (buf_type buf' = FB_BUFFER_SPARSE -> files buf' <> [] /\ sz buf' = sz buf).
Proof.
  unfold load_buf_fd. intros Hrun.
  destruct (Z.eqb_spec (get_file_size file) (-1)) as [|Hsize]; [discriminate|].
  destruct (sparse_file_import file) as [s|] eqn:Himport.
  - destruct (Z.ltb_spec (sparse_file_len s) 0) as [|Hlen]; [discriminate|].
    apply bind_Ok_inv in Hrun as (limit & w1 & _ & Hrun).
    destruct (limit =? 0).
    + injection Hrun as <- _. cbn. repeat split; auto; try discriminate.
      intros _. eauto.
    + apply bind_Ok_inv in Hrun as (chunks & w2 & _ & Hrun).
      destruct chunks as [|chunk chunks]; [discriminate|].
      injection Hrun as <- _. cbn. repeat split; auto; try discriminate.
      intros _. eauto.
  - apply bind_Ok_inv in Hrun as (limit & w1 & _ & Hrun).
    destruct (limit =? 0).
    + injection Hrun as <- _. cbn. repeat split; auto; try discriminate.
      intros (s & Hs & _). discriminate.
    + apply bind_Ok_inv in Hrun as (chunks & w2 & _ & Hrun).
      destruct chunks as [|chunk chunks]; [discriminate|].
      injection Hrun as <- _. cbn. repeat split; auto; try discriminate.
      intros (s & Hs & _). discriminate.
Qed.

End LoadFacts.


Lemma get_sparse_limit_asks_once_witness :
  let fp := Reference.plan [] false in
  let w := Reference.world [("max-download-size", "100")] in
  let w1 := cached 100 (sent "max-download-size" w) in
  @get_sparse_limit Reference.libbase 50 fp w1
  = (Ok (if 0 <? target_sparse_limit w1
         then resparse_answer (target_sparse_limit w1) 50 else 0), w1)
  /\ vars w1 = vars w.
Proof.
  intros fp w w1.
  apply (@get_sparse_limit_asks_once Reference.libbase 200 50 fp w w1 100);
    [reflexivity | reflexivity | simpl; lia].
Defined.

Lemma load_buf_fd_buffer_witness :
  let file := [x01; x02] in
  let buf := @local_buffer Reference.collaborators in
  let buf' := @mkBuffer Reference.collaborators FB_BUFFER_FD FB_BUFFER_FD [] 2 file 2 in
  let get_file_size := @get_file_size Reference.collaborators in
  fd buf' = file
  /\ get_file_size file <> -1
  /\ (file_type buf' = FB_BUFFER_SPARSE <->
      exists s, @sparse_file_import Reference.collaborators file = Some s
                /\ image_size buf' = @sparse_file_len Reference.collaborators s
                /\ 0 <= image_size buf')
  /\ (file_type buf' = FB_BUFFER_FD -> image_size buf' = get_file_size file)
  /\ (buf_type buf' = FB_BUFFER_FD -> sz buf' = get_file_size file /\ files buf' = files buf)
  /\ (buf_type buf' = FB_BUFFER_SPARSE -> files buf' <> [] /\ sz buf' = sz buf).
Proof.
  intros file buf buf' get_file_size.
  pose (fp := Reference.plan [] false).
  pose (w := Reference.world [("max-download-size", "4096")]).
  apply (@load_buf_fd_buffer Reference.libbase Reference.collaborators file buf buf' fp w
           (cached 4096 (sent "max-download-size" w))).
  reflexivity.
Defined.

(** ** Footer relocation and vbmeta rewriting *)

Section AvbMoreFacts.
Context `{LibBase} `{Collaborators}.

Lemma write_footer_at_past_end (data footer : list byte) (pos : Z) :
  Z.of_nat (length data) <= pos + Z.of_nat (length footer) -> 0 <= pos ->
  let file := write_footer_at data pos footer in
  Z.of_nat (length file) = pos + Z.of_nat (length footer)
  /\ drop (Z.to_nat pos) file = footer
  /\ (forall n, (n <= Z.to_nat pos)%nat -> (n <= length data)%nat ->
      take n file = take n data)
  /\ (forall i, (length data <= i < Z.to_nat pos)%nat -> file !! i = Some x00).
Proof.
  intros Hlen Hpos file. unfold file, write_footer_at.
  set (p := Z.to_nat pos).
  assert (Hpad : length (take p (data ++ replicate (p - length data) x00)) = p).
  { rewrite length_take, length_app, length_replicate. lia. }
  rewrite (drop_ge data (p + length footer)) by lia. rewrite app_nil_r.
  split; [|split; [|split]].
  - rewrite length_app, Hpad. lia.
  - apply drop_app_length'. symmetry. exact Hpad.
  - intros n Hnp Hnd. rewrite take_app_le by lia.
    rewrite take_take, Nat.min_l by lia. apply take_app_le. exact Hnd.
  - intros i Hi. rewrite lookup_app_l by lia.
    rewrite lookup_take_lt by lia. rewrite lookup_app_r by lia.
    apply lookup_replicate_2. lia.
Qed.

Lemma copy_avb_footer_writes_footer (source : option ImageSource) (partition : string)
  (buf : fastboot_buffer) (w w' : World) (size : Z) :
  AVB_FOOTER_SIZE <= sz buf ->
  Z.of_nat (length (fd buf)) = sz buf ->
  file_type buf = FB_BUFFER_FD ->
  fst (is_logical partition w) = Ok false ->
  should_flash_in_userspace source partition = Ok false ->
  get_partition_size partition (snd (is_logical partition w)) = (Ok size, w') ->
  sz buf < size < 2 ^ 63 ->
  take 4 (drop (Z.to_nat (sz buf - AVB_FOOTER_SIZE)) (fd buf)) = AVB_FOOTER_MAGIC ->
  copy_avb_footer source partition buf w
  = (Ok (mkBuffer (buf_type buf) (file_type buf) (files buf) size
                  (write_footer_at (fd buf) (size - AVB_FOOTER_SIZE)
                     (drop (Z.to_nat (sz buf - AVB_FOOTER_SIZE)) (fd buf)))
                  (image_size buf)),
     w').
Proof.
  unfold AVB_FOOTER_SIZE. intros Hsz Hlen Hft Hlog Huser Hsize Hbig Hmagic.
  unfold copy_avb_footer, AVB_FOOTER_SIZE.
  destruct (Z.ltb_spec (sz buf) 64); [lia|].
  destruct (is_logical partition w) as [r w1] eqn:Hrun. cbn [fst snd] in Hlog, Hsize.
  subst r. unfold bind at 1. rewrite Hrun.
  unfold bind at 1. unfold lift at 1. rewrite Huser, Hft.
  rewrite (bind_Ok _ _ _ _ _ Hsize).
  rewrite to_int64_small by lia.
  destruct (Z.eqb_spec size (sz buf)); [lia|].
  destruct (Z.ltb_spec size (sz buf)); [lia|].
  assert (Hoff : C.to_uint64 (sz buf - 64) = sz buf - 64)
    by (unfold C.to_uint64; rewrite Z.mod_small; lia).
  rewrite Hoff. unfold bind, lift. change AVB_FOOTER_MAGIC_LEN with 4.
  rewrite (compare_eq_magic (fd buf) (sz buf - 64) AVB_FOOTER_MAGIC)
    by (auto; lia).
  reflexivity.
Qed.

(** X10: when [copy_avb_footer] meets an image that ends in an AVB
    footer and is smaller than its physical partition, the buffer it leaves
    has the size of the partition, the 64 bytes of the footer are its last 64
    bytes, the bytes before the old footer are as they were, and every byte
    from the old end of the image up to the new footer is zero. *)
Theorem copy_avb_footer_moves_footer_to_end (source : option ImageSource) (partition : string)
  (buf : fastboot_buffer) (w w' : World) (size : Z) :
  AVB_FOOTER_SIZE <= sz buf ->
  Z.of_nat (length (fd buf)) = sz buf ->
  file_type buf = FB_BUFFER_FD ->
  fst (is_logical partition w) = Ok false ->
  should_flash_in_userspace source partition = Ok false ->
  get_partition_size partition (snd (is_logical partition w)) = (Ok size, w') ->
  sz buf < size < 2 ^ 63 ->
  take 4 (drop (Z.to_nat (sz buf - AVB_FOOTER_SIZE)) (fd buf)) = AVB_FOOTER_MAGIC ->
  exists file : list byte,
    copy_avb_footer source partition buf w
    = (Ok (mkBuffer (buf_type buf) (file_type buf) (files buf) size file (image_size buf)),
       w')
    /\ Z.of_nat (length file) = size
    /\ drop (Z.to_nat (size - AVB_FOOTER_SIZE)) file
       = drop (Z.to_nat (sz buf - AVB_FOOTER_SIZE)) (fd buf)
    /\ take (Z.to_nat (sz buf - AVB_FOOTER_SIZE)) file
       = take (Z.to_nat (sz buf - AVB_FOOTER_SIZE)) (fd buf)
    /\ (forall i, (Z.to_nat (sz buf) <= i < Z.to_nat (size - AVB_FOOTER_SIZE))%nat ->
        file !! i = Some x00).
Proof.
  intros Hsz Hlen Hft Hlog Huser Hsize Hbig Hmagic.
  pose proof (copy_avb_footer_writes_footer source partition buf w w' size
                Hsz Hlen Hft Hlog Huser Hsize Hbig Hmagic) as Hcopy.
  unfold AVB_FOOTER_SIZE in *.
  set (footer := drop (Z.to_nat (sz buf - 64)) (fd buf)) in *.
  assert (Hfooter : Z.of_nat (length footer) = 64)
    by (unfold footer; rewrite length_drop; lia).
  destruct (write_footer_at_past_end (fd buf) footer (size - 64) ltac:(lia) ltac:(lia))
    as (Hl & Hdrop & Htake & Hzero).
  exists (write_footer_at (fd buf) (size - 64) footer).
  split; [exact Hcopy|]. split; [lia|]. split; [exact Hdrop|]. split.
  - apply Htake; lia.
  - intros i Hi. apply Hzero. lia.
Qed.

Lemma rewrite_vbmeta_buffer_or_flags (buf : fastboot_buffer) (vbmeta_in_boot : bool)
  (w : World) (vbmeta_offset : Z) :
  256 <= sz buf ->
  locate_vbmeta buf vbmeta_in_boot w = (Ok vbmeta_offset, w) ->
  carries_vbmeta (fd buf) vbmeta_offset ->
  let pos := Z.to_nat (vbmeta_offset + 123) in
  exists (data : list byte) (old new : byte),
    rewrite_vbmeta_buffer buf vbmeta_in_boot w = (Ok (with_fd buf data), w)
    /\ fd buf !! pos = Some old
    /\ data !! pos = Some new
    /\ Byte.to_N new = N.lor (Byte.to_N old) (requested_flags w)
    /\ (forall i, i <> pos -> data !! i = fd buf !! i)
    /\ length data = length (fd buf).
Proof.
  intros Hsz Hloc (Hnonneg & Hinside & Hbound & Hmagic) pos.
  assert (Hpos : (pos < length (fd buf))%nat) by (unfold pos; lia).
  destruct (lookup_lt_is_Some_2 (fd buf) pos Hpos) as [old Hold].
  assert (Hflags : C.to_uint64 (123 + vbmeta_offset) = vbmeta_offset + 123).
  { unfold C.to_uint64. rewrite Z.mod_small; lia. }
  set (c1 := if g_disable_verity w then or_assign old 1 else old).
  set (c2 := if g_disable_verification w then or_assign c1 2 else c1).
  exists (<[pos := c2]> (fd buf)), old, c2.
  assert (Hc2 : Byte.to_N c2 = N.lor (Byte.to_N old) (requested_flags w)).
  { unfold c2, c1, requested_flags.
    destruct (g_disable_verity w), (g_disable_verification w);
      rewrite ?or_assign_to_N by lia; rewrite ?or_assign_to_N by lia;
      rewrite ?N.lor_assoc, ?N.lor_0_r; reflexivity. }
  split; [|split; [exact Hold|split; [|split; [exact Hc2|split]]]].
  - unfold rewrite_vbmeta_buffer.
    destruct (Z.ltb_spec (sz buf) 256); [lia|].
    rewrite (bind_Ok _ _ _ _ _ Hloc).
    unfold lift at 1. unfold bind at 1. change AVB_MAGIC_LEN with 4.
    rewrite (compare_eq_magic (fd buf) vbmeta_offset AVB_MAGIC) by (auto; lia).
    rewrite Hflags. fold pos.
    unfold bind, get, lift, ret, c2, c1.
    destruct (g_disable_verity w).
    + rewrite (or_at_lookup _ _ _ old) by exact Hold. fold pos.
      destruct (g_disable_verification w).
      * rewrite (or_at_lookup _ _ _ (or_assign old 1)); fold pos.
        -- rewrite list_insert_insert_eq. reflexivity.
        -- apply list_lookup_insert_eq. exact Hpos.
      * reflexivity.
    + destruct (g_disable_verification w).
      * rewrite (or_at_lookup _ _ _ old) by exact Hold. reflexivity.
      * rewrite list_insert_id by exact Hold. reflexivity.
  - apply list_lookup_insert_eq. exact Hpos.
  - intros i Hi. apply list_lookup_insert_ne. congruence.
  - apply length_insert.
Qed.

Lemma take_drop_agree (l1 l2 : list byte) (n off k : nat) :
  (forall i, (i < n)%nat -> l1 !! i = l2 !! i) -> (off + k <= n)%nat ->
  take k (drop off l1) = take k (drop off l2).
Proof.
  intros Hagree Hfit. apply list_eq. intros i.
  destruct (Nat.lt_ge_cases i k).
  - rewrite !lookup_take_lt, !lookup_drop by lia. apply Hagree. lia.
  - rewrite !lookup_take_ge by lia. reflexivity.
Qed.

(** X11: [copy_avb_footer] either leaves the buffer as it is or makes
    it longer, and the latter only for a plain file of at least 64 bytes
    with the footer magic at its end, on a partition that is neither logical
    nor flashed in userspace; the type, the pieces and the image size of the
    buffer are kept. *)
Theorem copy_avb_footer_changes_only_to_grow (source : option ImageSource)
  (partition : string) (buf buf' : fastboot_buffer) (w w' : World) :
  copy_avb_footer source partition buf w = (Ok buf', w') ->
  buf' = buf
  \/ (AVB_FOOTER_SIZE <= sz buf /\ sz buf < sz buf'
      /\ file_type buf = FB_BUFFER_FD
      /\ compare_eq (fd buf) (C.to_uint64 (sz buf - AVB_FOOTER_SIZE)) AVB_FOOTER_MAGIC_LEN
                    AVB_FOOTER_MAGIC = Ok true
      /\ fst (is_logical partition w) = Ok false
      /\ should_flash_in_userspace source partition = Ok false
      /\ buf_type buf' = buf_type buf /\ file_type buf' = file_type buf
      /\ files buf' = files buf /\ image_size buf' = image_size buf).
Proof.
  unfold copy_avb_footer. intros Hrun.
  destruct (Z.ltb_spec (sz buf) AVB_FOOTER_SIZE); [left; injection Hrun as <- _; reflexivity|].
  apply bind_Ok_inv in Hrun as (logical & w1 & Hlog & Hrun).
  destruct logical; [left; injection Hrun as <- _; reflexivity|].
  apply bind_Ok_inv in Hrun as (userspace & w2 & Huser & Hrun).
  unfold lift in Huser. injection Huser as Huser <-.
  destruct userspace; [left; injection Hrun as <- _; reflexivity|].
  destruct (file_type buf) eqn:Hft; [|left; injection Hrun as <- _; reflexivity].
  apply bind_Ok_inv in Hrun as (size & w3 & Hsize & Hrun).
  destruct (Z.eqb_spec (C.to_int64 size) (sz buf)) as [|Hne];
    [left; injection Hrun as <- _; reflexivity|].
  destruct (Z.ltb_spec (C.to_int64 size) (sz buf));
    [left; injection Hrun as <- _; reflexivity|].
  apply bind_Ok_inv in Hrun as (found & w4 & Hfound & Hrun).
  unfold lift in Hfound. injection Hfound as Hfound <-.
  destruct found; [|left; injection Hrun as <- _; reflexivity].
  right. injection Hrun as <- _. cbn [buf_type file_type files image_size sz].
  rewrite Hlog. repeat split; auto; lia.
Qed.

(** X12: when [rewrite_vbmeta_buffer] returns for a buffer of at least
    256 bytes, the vbmeta magic stands at the offset it worked on, which is 0
    for a vbmeta image and is read from a footer with the footer magic for a
    boot image; the state, the size and the length of the buffer are
    unchanged. *)
Theorem rewrite_vbmeta_buffer_checks_magic (buf buf' : fastboot_buffer)
  (vbmeta_in_boot : bool) (w w' : World) :
  rewrite_vbmeta_buffer buf vbmeta_in_boot w = (Ok buf', w') -> 256 <= sz buf ->
  exists vbmeta_offset : Z,
    locate_vbmeta buf vbmeta_in_boot w = (Ok vbmeta_offset, w)
    /\ compare_eq (fd buf) vbmeta_offset AVB_MAGIC_LEN AVB_MAGIC = Ok true
    /\ (vbmeta_in_boot = false -> vbmeta_offset = 0)
    /\ (vbmeta_in_boot = true ->
        compare_eq (fd buf) (C.to_uint64 (sz buf - AVB_FOOTER_SIZE)) AVB_FOOTER_MAGIC_LEN
                   AVB_FOOTER_MAGIC = Ok true)
    /\ w' = w /\ sz buf' = sz buf /\ length (fd buf') = length (fd buf).
Proof.
  unfold rewrite_vbmeta_buffer. intros Hrun Hsz.
  destruct (Z.ltb_spec (sz buf) 256); [lia|].
  apply bind_Ok_inv in Hrun as (vbmeta_offset & w1 & Hloc & Hrun).
  assert (Hw1 : w1 = w
                /\ (vbmeta_in_boot = false -> vbmeta_offset = 0)
                /\ (vbmeta_in_boot = true ->
                    compare_eq (fd buf) (C.to_uint64 (sz buf - AVB_FOOTER_SIZE))
                               AVB_FOOTER_MAGIC_LEN AVB_FOOTER_MAGIC = Ok true)).
  { unfold locate_vbmeta in Hloc. destruct vbmeta_in_boot.
    - apply bind_Ok_inv in Hloc as (found & w2 & Hfound & Hloc).
      unfold lift in Hfound. injection Hfound as Hfound <-.
      destruct found; [|discriminate].
      unfold lift in Hloc. injection Hloc as _ <-. split; [reflexivity|].
      split; [discriminate | auto].
    - injection Hloc as <- <-. split; [reflexivity|]. split; [auto | discriminate]. }
  destruct Hw1 as (-> & Hzero & Hfooter).
  apply bind_Ok_inv in Hrun as (found & w2 & Hfound & Hrun).
  unfold lift in Hfound. injection Hfound as Hfound <-.
  destruct found; [|discriminate].
  apply bind_Ok_inv in Hrun as (verity & w3 & Hv & Hrun).
  unfold get in Hv. injection Hv as <- <-.
  apply bind_Ok_inv in Hrun as (data1 & w4 & Hd1 & Hrun).
  apply bind_Ok_inv in Hrun as (verification & w5 & Hv & Hrun).
  unfold get in Hv. injection Hv as <- <-.
  apply bind_Ok_inv in Hrun as (data2 & w6 & Hd2 & Hrun).
  unfold ret in Hrun. injection Hrun as <- <-.
  assert (Hor : forall data pos mask data' wa wb,
             lift (or_at data pos mask) wa = (Ok data', wb) ->
             wb = wa /\ length data' = length data).
  { intros data pos mask data' wa wb. unfold lift, or_at.
    destruct (data !! Z.to_nat pos); intros Heq; [|discriminate].
    injection Heq as <- <-. split; [reflexivity | apply length_insert]. }
  assert (Hd1' : w4 = w /\ length data1 = length (fd buf)).
  { destruct (g_disable_verity w).
    - apply Hor in Hd1. exact Hd1.
    - injection Hd1 as <- <-. auto. }
  destruct Hd1' as [-> Hlen1].
  assert (Hd2' : w6 = w /\ length data2 = length data1).
  { destruct (g_disable_verification w).
    - apply Hor in Hd2. exact Hd2.
    - injection Hd2 as <- <-. auto. }
  destruct Hd2' as [-> Hlen2].
  exists vbmeta_offset. cbn. repeat split; auto. congruence.
Qed.

Lemma rewrite_vbmeta_small_eq (buf : fastboot_buffer) (vbmeta_in_boot : bool) (w : World) :
  sz buf < 256 -> rewrite_vbmeta_buffer buf vbmeta_in_boot w = (Ok buf, w).
Proof.
  intros Hsz. unfold rewrite_vbmeta_buffer.
  destruct (Z.ltb_spec (sz buf) 256); [reflexivity | lia].
Qed.

Lemma or_assign_idempotent (c : byte) (mask : N) :
  (mask < 4)%N -> or_assign (or_assign c mask) mask = or_assign c mask.
Proof.
  intros Hmask.
  assert (mask = 0 \/ mask = 1 \/ mask = 2 \/ mask = 3)%N as [-> | [-> | [-> | ->]]] by lia;
    destruct c; reflexivity.
Qed.

Lemma or_assign_commute (c : byte) :
  or_assign (or_assign (or_assign c 1) 2) 1 = or_assign (or_assign c 1) 2.
Proof. destruct c; reflexivity. Qed.

(** X13: rewriting the flags of a vbmeta image is idempotent: running
    [rewrite_vbmeta_buffer] on its own result gives the same buffer
    again. *)
Theorem rewrite_vbmeta_buffer_idempotent (buf buf1 : fastboot_buffer) (w w1 : World) :
  rewrite_vbmeta_buffer buf false w = (Ok buf1, w1) ->
  rewrite_vbmeta_buffer buf1 false w1 = (Ok buf1, w1).
Proof.
  intros Hrun.
  destruct (Z.ltb_spec (sz buf) 256) as [Hsmall|Hbig].
  - rewrite rewrite_vbmeta_small_eq in Hrun by exact Hsmall.
    injection Hrun as <- <-. apply rewrite_vbmeta_small_eq. exact Hsmall.
  - unfold rewrite_vbmeta_buffer in Hrun |- *.
    destruct (Z.ltb_spec (sz buf) 256); [lia|].
    cbn [locate_vbmeta] in Hrun |- *. unfold bind at 1 in Hrun. unfold ret at 1 in Hrun.
    apply bind_Ok_inv in Hrun as (found & w2 & Hfound & Hrun).
    unfold lift in Hfound. injection Hfound as Hfound <-.
    destruct found; [|discriminate].
    unfold C.to_uint64 in Hrun |- *. change ((123 + 0) mod 2 ^ 64) with 123 in Hrun |- *.
    unfold bind, get, lift, ret, or_at in Hrun.
    change (Z.to_nat 123) with 123%nat in Hrun.
    assert (Hshape : exists c c', fd buf !! 123%nat = Some c
                       /\ (buf1 = with_fd buf (<[123%nat := c']> (fd buf)))
                       /\ w1 = w
                       /\ c' = (if g_disable_verification w
                                then or_assign (if g_disable_verity w
                                                then or_assign c 1 else c) 2
                                else if g_disable_verity w then or_assign c 1 else c)
                       \/ (g_disable_verity w = false /\ g_disable_verification w = false
                           /\ buf1 = with_fd buf (fd buf) /\ w1 = w)).
    { destruct (g_disable_verity w) eqn:Hv, (g_disable_verification w) eqn:Hvf.
      - destruct (fd buf !! 123%nat) as [c|] eqn:Hc; [|discriminate].
        rewrite list_lookup_insert_eq in Hrun by (apply lookup_lt_Some in Hc; exact Hc).
        rewrite list_insert_insert_eq in Hrun. injection Hrun as <- <-.
        exists c, (or_assign (or_assign c 1) 2). left. auto.
      - destruct (fd buf !! 123%nat) as [c|] eqn:Hc; [|discriminate].
        injection Hrun as <- <-. exists c, (or_assign c 1). left. auto.
      - destruct (fd buf !! 123%nat) as [c|] eqn:Hc; [|discriminate].
        injection Hrun as <- <-. exists c, (or_assign c 2). left. auto.
      - injection Hrun as <- <-. exists x00, x00. right. auto. }
    destruct Hshape as (c & c' & [(Hc & -> & -> & Hc') | (Hv & Hvf & -> & ->)]).
    + cbn [sz with_fd fd]. destruct (Z.ltb_spec (sz buf) 256); [lia|].
      assert (Hlt : (123 < length (fd buf))%nat) by (apply lookup_lt_Some in Hc; exact Hc).
      assert (Hmagic : compare_eq (<[123%nat := c']> (fd buf)) 0 AVB_MAGIC_LEN AVB_MAGIC
                       = Ok true).
      { unfold compare_eq in Hfound |- *. rewrite length_insert.
        destruct (Z.of_nat (length (fd buf)) <? 0); [discriminate|].
        change (Z.to_nat 0) with 0%nat in *. rewrite drop_0 in Hfound |- *.
        change (Z.to_nat AVB_MAGIC_LEN) with 4%nat in *.
        rewrite take_insert_ge by lia. exact Hfound. }
      unfold bind at 1. unfold ret at 1. unfold bind at 1. unfold lift at 1.
      rewrite Hmagic. unfold bind, get, lift, ret, or_at.
      change (Z.to_nat 123) with 123%nat.
      rewrite Hc'.
      destruct (g_disable_verity w), (g_disable_verification w);
        rewrite ?list_lookup_insert_eq by exact Hlt;
        rewrite ?list_insert_insert_eq;
        rewrite ?list_lookup_insert_eq by exact Hlt;
        rewrite ?list_insert_insert_eq;
        rewrite ?or_assign_commute, ?or_assign_idempotent by lia;
        reflexivity.
    + cbn [sz with_fd fd]. destruct (Z.ltb_spec (sz buf) 256); [lia|].
      unfold bind at 1. unfold ret at 1. unfold bind at 1. unfold lift at 1.
      rewrite Hfound. unfold bind, get, lift, ret. rewrite Hv, Hvf. reflexivity.
Qed.

(** X14: for a partition that the device does not report as logical,
    [get_partition_size] always returns: the size is the parsed
    [partition-size] when the device reports one that parses, and 0
    otherwise; the device variables are unchanged. *)
Theorem get_partition_size_dies_only_if_logical (partition : string) (w : World) :
  vars w ("is-logical:" ++ partition)%string <> Some "yes" ->
  exists w' : World,
    get_partition_size partition w
    = (Ok match vars w ("partition-size:" ++ partition)%string with
          | Some reported =>
              match ParseUint64 (fb_fix_numeric_var reported) with
              | Some size => size
              | None => 0
              end
          | None => 0
          end,
       w')
    /\ vars w' = vars w.
Proof.
  intros Hlog. unfold get_partition_size.
  assert (Hnot : forall w1, vars w1 = vars w ->
            is_logical partition w1
            = (Ok false, sent ("is-logical:" ++ partition)%string w1)).
  { intros w1 Hw1. unfold is_logical, bind, GetVar, ret. rewrite Hw1.
    destruct (vars w _) as [value|]; [|reflexivity].
    destruct (String.eqb_spec value "yes") as [->|]; [contradiction | reflexivity]. }
  unfold bind at 1. unfold GetVar at 1.
  destruct (vars w ("partition-size:" ++ partition)%string) as [reported|] eqn:Hrep.
  - destruct (ParseUint64 (fb_fix_numeric_var reported)) as [size|] eqn:Hparse.
    + eexists. split; reflexivity.
    + rewrite (bind_Ok _ _ _ _ _ (Hnot (sent ("partition-size:" ++ partition)%string w) eq_refl)).
      eexists. split; reflexivity.
  - rewrite (bind_Ok _ _ _ _ _ (Hnot (sent ("partition-size:" ++ partition)%string w) eq_refl)).
    eexists. split; reflexivity.
Qed.

End AvbMoreFacts.

Lemma copy_avb_footer_moves_footer_to_end_witness :
  let image := replicate 36 x11 ++ Samples.avb_footer in
  let buf := @mkBuffer Reference.collaborators FB_BUFFER_FD FB_BUFFER_FD [] 100 image 100 in
  let w := Reference.world [("partition-size:boot", "128")] in
  let w' := sent "partition-size:boot" (sent "is-logical:boot" w) in
  exists file : list byte,
    @copy_avb_footer Reference.libbase Reference.collaborators None "boot" buf w
    = (Ok (mkBuffer (buf_type buf) (file_type buf) (files buf) 128 file (image_size buf)),
       w')
    /\ Z.of_nat (length file) = 128
    /\ drop (Z.to_nat (128 - AVB_FOOTER_SIZE)) file
       = drop (Z.to_nat (sz buf - AVB_FOOTER_SIZE)) (fd buf)
    /\ take (Z.to_nat (sz buf - AVB_FOOTER_SIZE)) file
       = take (Z.to_nat (sz buf - AVB_FOOTER_SIZE)) (fd buf)
    /\ (forall i, (Z.to_nat (sz buf) <= i < Z.to_nat (128 - AVB_FOOTER_SIZE))%nat ->
        file !! i = Some x00).
Proof.
  intros image buf w w'.
  apply (@copy_avb_footer_moves_footer_to_end Reference.libbase Reference.collaborators
           None "boot" buf w w' 128);
    [unfold AVB_FOOTER_SIZE; simpl; lia | reflexivity | reflexivity | reflexivity
    | reflexivity | reflexivity | simpl; lia | reflexivity].
Defined.

Lemma copy_avb_footer_changes_only_to_grow_witness :
  let image := replicate 36 x11 ++ Samples.avb_footer in
  let buf := @mkBuffer Reference.collaborators FB_BUFFER_FD FB_BUFFER_FD [] 100 image 100 in
  let buf' := @mkBuffer Reference.collaborators FB_BUFFER_FD FB_BUFFER_FD [] 128
                        (take 64 image ++ Samples.avb_footer) 100 in
  let w := Reference.world [("partition-size:boot", "128")] in
  buf' = buf
  \/ (AVB_FOOTER_SIZE <= sz buf /\ sz buf < sz buf'
      /\ file_type buf = FB_BUFFER_FD
      /\ compare_eq (fd buf) (C.to_uint64 (sz buf - AVB_FOOTER_SIZE)) AVB_FOOTER_MAGIC_LEN
                    AVB_FOOTER_MAGIC = Ok true
      /\ fst (@is_logical "boot" w) = Ok false
      /\ @should_flash_in_userspace Reference.collaborators None "boot" = Ok false
      /\ buf_type buf' = buf_type buf /\ file_type buf' = file_type buf
      /\ files buf' = files buf /\ image_size buf' = image_size buf).
Proof.
  intros image buf buf' w.
  apply (@copy_avb_footer_changes_only_to_grow Reference.libbase Reference.collaborators
           None "boot" buf buf' w (sent "partition-size:boot" (sent "is-logical:boot" w))).
  reflexivity.
Defined.

Lemma rewrite_vbmeta_buffer_checks_magic_witness :
  let buf := Samples.boot_buffer in
  let buf' := with_fd buf (<[187%nat := x03]> (fd buf)) in
  let w := Samples.disabling_world in
  exists vbmeta_offset : Z,
    locate_vbmeta buf true w = (Ok vbmeta_offset, w)
    /\ compare_eq (fd buf) vbmeta_offset AVB_MAGIC_LEN AVB_MAGIC = Ok true
    /\ (true = false -> vbmeta_offset = 0)
    /\ (true = true ->
        compare_eq (fd buf) (C.to_uint64 (sz buf - AVB_FOOTER_SIZE)) AVB_FOOTER_MAGIC_LEN
                   AVB_FOOTER_MAGIC = Ok true)
    /\ w = w /\ sz buf' = sz buf /\ length (fd buf') = length (fd buf).
Proof.
  intros buf buf' w.
  apply (@rewrite_vbmeta_buffer_checks_magic Reference.collaborators buf buf' true w w);
    [reflexivity | simpl; lia].
Defined.

Lemma rewrite_vbmeta_buffer_idempotent_witness :
  let buf := @mkBuffer Reference.collaborators FB_BUFFER_FD FB_BUFFER_FD [] 256
                       Samples.vbmeta_struct 256 in
  let buf1 := with_fd buf (<[123%nat := x03]> Samples.vbmeta_struct) in
  let w := Samples.disabling_world in
  rewrite_vbmeta_buffer buf1 false w = (Ok buf1, w).
Proof.
  intros buf buf1 w.
  apply (@rewrite_vbmeta_buffer_idempotent Reference.collaborators buf buf1 w w).
  reflexivity.
Defined.

Lemma get_partition_size_dies_only_if_logical_witness :
  let w := Reference.world [("partition-size:boot", "128")] in
  exists w' : World,
    @get_partition_size Reference.libbase Reference.collaborators "boot" w = (Ok 128, w')
    /\ vars w' = vars w.
Proof.
  intros w.
  apply (@get_partition_size_dies_only_if_logical Reference.libbase Reference.collaborators
           "boot" w).
  simpl. discriminate.
Defined.

(** ** Task lists *)

Section TaskFacts.
Context `{LibBase} `{Collaborators}.

Lemma AddResizeTasks_scan_spec (fp : FlashingPlan) (tasks : list Task) (i : nat)
  (loc : option nat) (resize_tasks : list Task) :
  exists loc',
    AddResizeTasks_scan fp tasks i loc resize_tasks
    = (loc', resize_tasks
             ++ map (resize_task_for fp) (List.filter (is_dynamic_flash fp) tasks))
    /\ match loc, loc' with
       | Some l, _ => loc' = Some l
       | None, None => List.filter (is_dynamic_flash fp) tasks = []
       | None, Some l =>
           exists before task after,
             tasks = before ++ task :: after /\ l = (i + length before)%nat
             /\ List.filter (is_dynamic_flash fp) before = []
             /\ is_dynamic_flash fp task = true
       end.
Proof.
  revert i loc resize_tasks.
  induction tasks as [|task rest IH]; intros i loc resize_tasks.
  - exists loc. cbn. rewrite app_nil_r. split; [reflexivity|]. destruct loc; reflexivity.
  - cbn [AddResizeTasks_scan List.filter].
    change (AsFlashTask task && IsDynamicPartition (source fp) task)
      with (is_dynamic_flash fp task).
    destruct (is_dynamic_flash fp task) eqn:Hdyn.
    + destruct (IH (S i) (match loc with None => Some i | Some _ => loc end)
                  (resize_tasks ++ [ResizeTask (GetPartition task) "0" (slot_override fp)]))
        as (loc' & Hscan & Hloc).
      exists loc'. rewrite Hscan. cbn [map]. rewrite <- app_assoc.
      split; [reflexivity|].
      destruct loc as [l|]; [exact Hloc|]. subst loc'.
      exists [], task, rest. cbn. repeat split; auto.
    + destruct (IH (S i) loc resize_tasks) as (loc' & Hscan & Hloc).
      exists loc'. split; [exact Hscan|].
      destruct loc as [l0|]; [exact Hloc|].
      destruct loc' as [l|]; [|exact Hloc].
      destruct Hloc as (before & task' & after & -> & -> & Hbefore & Htask').
      exists (task :: before), task', after. cbn [List.filter length app].
      rewrite Hdyn.
      repeat split; auto; lia.
Qed.

(** X15: [AddResizeTasks] leaves the task list as it is when it
    reports that nothing was added.  Otherwise the list has a first flash
    task of a dynamic partition, and the new list is the old one with, right
    before that task, one resize-to-0 task for every flash task of a dynamic
    partition, in the order of these flash tasks. *)
Theorem AddResizeTasks_resizes_before_first_dynamic_flash (fp : FlashingPlan)
  (tasks tasks' : list Task) (added : bool) :
  AddResizeTasks fp tasks = Ok (added, tasks') ->
  (added = false -> tasks' = tasks)
  /\ (added = true ->
      exists before task after,
        tasks = before ++ task :: after
        /\ List.filter (is_dynamic_flash fp) before = []
        /\ is_dynamic_flash fp task = true
        /\ tasks' = before
                    ++ map (resize_task_for fp)
                           (List.filter (is_dynamic_flash fp) (task :: after))
                    ++ task :: after).
Proof.
  unfold AddResizeTasks. intros Hrun.
  destruct (source fp) as [src|]; [|discriminate].
  destruct (ReadFile src "super_empty.img") as [contents|];
    [|injection Hrun as <- <-; split; [reflexivity | discriminate]].
  destruct (ReadFromImageBlob contents);
    [|injection Hrun as <- <-; split; [reflexivity | discriminate]].
  destruct (AddResizeTasks_scan_spec fp tasks 0 None []) as (loc' & Hscan & Hloc).
  rewrite Hscan in Hrun. cbn [app] in Hrun.
  destruct loc' as [first|];
    [|injection Hrun as <- <-; split; [reflexivity | discriminate]].
  injection Hrun as <- <-. split; [discriminate|]. intros _.
  destruct Hloc as (before & task & after & -> & -> & Hbefore & Htask).
  exists before, task, after. repeat split; auto.
  cbn [Nat.add]. rewrite take_app_length, drop_app_length.
  rewrite List.filter_app, Hbefore. reflexivity.
Qed.

Lemma AddFlashTasks_kept (fp : FlashingPlan) (entries : list (Image * string))
  (tasks tasks' : list Task) (w w' : World) :
  AddFlashTasks fp entries tasks w = (Ok tasks', w') ->
  exists kept : list (Image * string),
    sublist kept entries
    /\ tasks' = tasks ++ map task_of_entry kept
    /\ Forall (source_opens fp) kept
    /\ Forall (fun entry => optional_if_no_image (fst entry) = true \/ entry ∈ kept)
              entries.
Proof.
  revert tasks w. induction entries as [|[image slot] rest IH]; intros tasks w Hrun.
  - cbn in Hrun. unfold ret in Hrun. injection Hrun as <- <-.
    exists []. rewrite app_nil_r. repeat split; auto.
  - cbn [AddFlashTasks] in Hrun.
    destruct (source fp) as [src|] eqn:Hsrc; [|discriminate].
    apply bind_Ok_inv in Hrun as (loaded & w1 & Hload & Hrest).
    destruct loaded.
    + assert (Hopen : source_opens fp (image, slot)).
      { destruct (OpenFile src (img_name image)) as [file|] eqn:Hfile.
        - exists src, file. auto.
        - unfold ret in Hload. discriminate. }
      apply IH in Hrest as (kept & Hsub & -> & Hkept & Hall).
      exists ((image, slot) :: kept). rewrite <- app_assoc.
      split; [constructor; exact Hsub|]. split; [reflexivity|].
      split; [constructor; assumption|].
      constructor; [right; apply list_elem_of_here|].
      eapply Forall_impl; [exact Hall|].
      intros entry [Hopt | Hin]; [left; exact Hopt | right; apply list_elem_of_further, Hin].
    + destruct (optional_if_no_image image) eqn:Hopt; [|discriminate].
      apply IH in Hrest as (kept & Hsub & -> & Hkept & Hall).
      exists kept. split; [constructor; exact Hsub|]. split; [reflexivity|].
      split; [exact Hkept|]. constructor; [left; exact Hopt | exact Hall].
Qed.

(** X16: the tasks added by [AddFlashTasks] are the flash tasks of a
    sublist of the entries, in the order of the entries; each of these
    entries has a file that the image source opens, and every entry that is
    left out is optional. *)
Theorem AddFlashTasks_in_entry_order (fp : FlashingPlan) (entries : list (Image * string))
  (tasks tasks' : list Task) (w w' : World) :
  AddFlashTasks fp entries tasks w = (Ok tasks', w') ->
  exists kept : list (Image * string),
    sublist kept entries
    /\ tasks' = tasks ++ map task_of_entry kept
    /\ Forall (source_opens fp) kept
    /\ (forall entry, entry ∈ entries -> entry ∉ kept ->
        optional_if_no_image (fst entry) = true).
Proof.
  intros Hrun.
  destruct (AddFlashTasks_kept _ _ _ _ _ _ Hrun) as (kept & Hsub & Htasks & Hkept & Hall).
  exists kept. repeat split; auto.
  intros entry Hin Hout. rewrite Forall_forall in Hall.
  destruct (Hall entry Hin) as [Hopt | Hkeep]; [exact Hopt | contradiction].
Qed.

Lemma CollectImages_complete (fp : FlashingPlan) (imgs : list Image) (image : Image) :
  image ∈ imgs -> type image <> Extra -> IsSecondary image && skip_secondary fp = false ->
  exists slot, (image, slot) ∈ fst (CollectImages fp imgs)
               \/ (image, slot) ∈ snd (CollectImages fp imgs).
Proof.
  intros Hin Hty Hskip. induction imgs as [|first rest IH]; [inversion Hin|].
  cbn [CollectImages]. destruct (CollectImages fp rest) as [boot_images os_images].
  cbn [fst snd] in IH.
  apply elem_of_cons in Hin as [<- | Hin].
  - rewrite Hskip.
    exists (if IsSecondary image then secondary_slot fp else slot_override fp).
    destruct (type image); [left | right | contradiction]; apply list_elem_of_here.
  - destruct (IH Hin) as (slot & Hslot). exists slot.
    destruct (IsSecondary first && skip_secondary fp); [exact Hslot|].
    destruct (type first); cbn [fst snd]; [| |exact Hslot];
      destruct Hslot as [Hb | Ho]; auto using list_elem_of_further.
Qed.

Lemma CollectTasksFromImageList_opens_required (imgs : list Image) (fp : FlashingPlan)
  (w w' : World) (tasks : list Task) (image : Image) (slot : string) :
  CollectTasksFromImageList imgs fp w = (Ok tasks, w') ->
  (image, slot) ∈ fst (CollectImages fp imgs) \/ (image, slot) ∈ snd (CollectImages fp imgs) ->
  optional_if_no_image image = false ->
  source_opens fp (image, slot).
Proof.
  intros Hrun Hslot Hopt. unfold CollectTasksFromImageList in Hrun.
  destruct (CollectImages fp imgs) as [boot_images os_images]. cbn [fst snd] in Hslot.
  apply bind_Ok_inv in Hrun as (tasks1 & w1 & Hadd1 & Hrun).
  apply bind_Ok_inv in Hrun as (tasks2 & w2 & Hadd2 & _).
  apply AddFlashTasks_kept in Hadd1 as (kept1 & _ & _ & Hkept1 & Hall1).
  apply AddFlashTasks_kept in Hadd2 as (kept2 & _ & _ & Hkept2 & Hall2).
  rewrite Forall_forall in Hall1, Hall2, Hkept1, Hkept2.
  destruct Hslot as [Hb | Ho].
  - destruct (Hall1 _ Hb) as [Habs | Hk]; [cbn in Habs; congruence | auto].
  - destruct (Hall2 _ Ho) as [Habs | Hk]; [cbn in Habs; congruence | auto].
Qed.

(** X17: [CollectTasksFromImageList] does not return a task list when
    a required image is missing: if the catalog has an image that is not
    [Extra], not a skipped secondary and not optional, and the source cannot
    open its file, the call fails. *)
Theorem CollectTasksFromImageList_needs_required_images (imgs : list Image)
  (fp : FlashingPlan) (image : Image) (src : ImageSource) (w : World) :
  image ∈ imgs -> type image <> Extra ->
  IsSecondary image && skip_secondary fp = false ->
  optional_if_no_image image = false ->
  source fp = Some src -> OpenFile src (img_name image) = None ->
  exists (failure : Failure) (w' : World),
    CollectTasksFromImageList imgs fp w = (Fail failure, w').
Proof.
  intros Hin Hty Hskip Hopt Hsrc Hfile.
  destruct (CollectTasksFromImageList imgs fp w) as [[tasks|failure] w'] eqn:Hrun;
    [exfalso | eauto].
  destruct (CollectImages_complete fp imgs image Hin Hty Hskip) as (slot & Hslot).
  destruct (CollectTasksFromImageList_opens_required imgs fp w w' tasks image slot
              Hrun Hslot Hopt) as (src' & file & Hsrc' & Hfile').
  cbn [fst] in Hfile'. congruence.
Qed.

Lemma ParseFlashCommand_parts_fill (fp : FlashingPlan) (parts : list string)
  (apply_vbmeta : bool) (slot partition img_name : string) :
  ParseFlashCommand_parts fp parts apply_vbmeta slot partition img_name
  = match fill_arguments partition img_name (positional parts) with
    | None => None
    | Some (partition', img_name') =>
        Some (apply_vbmeta || has_flag "--apply-vbmeta" parts,
              if has_flag "--slot-other" parts then secondary_slot fp else slot,
              partition', img_name')
    end.
Proof.
  revert apply_vbmeta slot partition img_name.
  induction parts as [|part rest IH]; intros apply_vbmeta slot partition img_name.
  - cbn. rewrite orb_false_r. reflexivity.
  - cbn [ParseFlashCommand_parts]. unfold positional, has_flag, is_flag in IH |- *.
    cbn [List.filter existsb].
    rewrite (String.eqb_sym "--apply-vbmeta" part), (String.eqb_sym "--slot-other" part).
    destruct (String.eqb_spec part "--apply-vbmeta") as [->|Hvb].
    + change ("--apply-vbmeta" =? "--slot-other")%string with false.
      cbn [orb negb]. rewrite IH.
      destruct (fill_arguments _ _ _) as [[p i]|]; [|reflexivity].
      rewrite orb_true_r. reflexivity.
    + destruct (String.eqb_spec part "--slot-other") as [->|Hso].
      * cbn [orb negb]. rewrite IH.
        destruct (fill_arguments _ _ _) as [[p i]|]; [|reflexivity].
        destruct (existsb (String.eqb "--slot-other") rest); reflexivity.
      * cbn [negb orb fill_arguments].
        destruct (String.eqb partition ""); [apply IH|].
        destruct (String.eqb img_name ""); [apply IH | reflexivity].
Qed.

(** X18: on tokens of a line (none of them empty), [ParseFlashCommand]
    reads the two flags wherever they stand and however often: the task has
    the secondary slot exactly when [--slot-other] occurs and applies vbmeta
    exactly when [--apply-vbmeta] occurs; the other arguments must be one
    (the partition, with [partition.img] as image) or two (partition and
    image), else no task is made. *)
Theorem ParseFlashCommand_reads_flags_anywhere (fp : FlashingPlan) (parts : list string) :
  Forall (fun token => token <> "") parts ->
  ParseFlashCommand fp parts = flash_command_task fp parts.
Proof.
  intros Hne. unfold ParseFlashCommand, flash_command_task.
  rewrite ParseFlashCommand_parts_fill. cbn [orb].
  assert (Hpos : Forall (fun token => token <> "") (positional parts)).
  { unfold positional. rewrite Forall_forall in Hne |- *.
    intros token Hin. apply Hne. apply list_elem_of_In in Hin.
    apply List.filter_In in Hin as [Hin _]. apply list_elem_of_In. exact Hin. }
  destruct (positional parts) as [|partition [|img_name [|extra more]]]; cbn.
  - reflexivity.
  - apply Forall_cons in Hpos as [Hp _]. rewrite !(eqb_neq _ _ Hp). reflexivity.
  - apply Forall_cons in Hpos as [Hp Hpos]. apply Forall_cons in Hpos as [Hi _].
    rewrite !(eqb_neq _ _ Hp), !(eqb_neq _ _ Hi). reflexivity.
  - apply Forall_cons in Hpos as [Hp Hpos]. apply Forall_cons in Hpos as [Hi _].
    rewrite !(eqb_neq _ _ Hp), !(eqb_neq _ _ Hi). reflexivity.
Qed.

Lemma Tokenize_from_front (s tok : string) :
  tok <> "" ->
  exists token more, Tokenize_from s " " tok = token :: more /\ C.front token = C.front tok.
Proof.
  revert tok. induction s as [|c rest IH]; intros tok Hne; cbn [Tokenize_from].
  - rewrite (eqb_neq _ _ Hne). eauto.
  - destruct (is_delimiter " " c).
    + rewrite (eqb_neq _ _ Hne). cbn. eauto.
    + destruct (IH (tok ++ String c "")%string) as (token & more & Htok & Hfront).
      * destruct tok; [contradiction | discriminate].
      * exists token, more. split; [exact Htok|]. rewrite Hfront.
        destruct tok; [contradiction | reflexivity].
Qed.

Lemma Tokenize_skip_spaces (text : string) :
  Tokenize text " " = Tokenize (skip_spaces text) " ".
Proof.
  unfold Tokenize. induction text as [|c rest IH]; [reflexivity|].
  cbn [skip_spaces]. destruct (Ascii.eqb_spec c " ") as [->|Hc]; [|reflexivity].
  cbn. exact IH.
Qed.

Lemma blank_or_comment_ignored (fp : FlashingPlan) (text : string) :
  is_blank_or_comment text = true -> ParseFastbootInfo_line fp text = Continue.
Proof.
  unfold is_blank_or_comment, ParseFastbootInfo_line. rewrite Tokenize_skip_spaces.
  destruct (skip_spaces text) as [|c rest] eqn:Hskip; [reflexivity|].
  intros Hc. apply Ascii.eqb_eq in Hc. subst c.
  unfold Tokenize. cbn [Tokenize_from is_delimiter existsb list_ascii_of_string].
  change (Ascii.eqb "#" " ") with false. cbn [orb append].
  destruct (Tokenize_from_front rest "#") as (token & more & -> & Hfront); [discriminate|].
  unfold IsIgnore. rewrite Hfront. reflexivity.
Qed.

Lemma ParseFastbootInfo_loop_skip (fp : FlashingPlan) (before after : list string)
  (text : string) (tasks : list Task) :
  ParseFastbootInfo_line fp text = Continue ->
  ParseFastbootInfo_loop fp (before ++ text :: after) tasks
  = ParseFastbootInfo_loop fp (before ++ after) tasks.
Proof.
  intros Hline. revert tasks. induction before as [|first rest IH]; intros tasks; cbn.
  - rewrite Hline. reflexivity.
  - destruct (ParseFastbootInfo_line fp first); auto.
Qed.

(** X19: a line of a fastboot-info script that holds nothing but
    spaces, or whose first character other than a space is [#], can be
    taken out of the script without changing what [ParseFastbootInfo]
    does. *)
Theorem ParseFastbootInfo_ignores_blank_and_comment_lines (fp : FlashingPlan)
  (before after : list string) (text : string) :
  is_blank_or_comment text = true ->
  ParseFastbootInfo fp (before ++ text :: after) = ParseFastbootInfo fp (before ++ after).
Proof.
  intros Hline. unfold ParseFastbootInfo.
  rewrite (ParseFastbootInfo_loop_skip fp before after text []
             (blank_or_comment_ignored fp text Hline)).
  reflexivity.
Qed.

(** ** Requirements *)

Lemma back_snoc (stem : string) (c : ascii) : back (stem ++ String c "") = Ok c.
Proof.
  unfold back. induction stem as [|a stem IH]; [reflexivity|].
  cbn [append String.length]. rewrite Nat.sub_1_r. cbn [Nat.pred].
  destruct (stem ++ String c "")%string as [|b more] eqn:E.
  - destruct stem; discriminate.
  - cbn [String.length] in IH |- *. rewrite Nat.sub_1_r in IH. cbn [Nat.pred] in IH.
    cbn [String.get]. exact IH.
Qed.

Lemma nonempty_snoc (s : string) :
  s <> "" -> exists stem c, s = (stem ++ String c "")%string.
Proof.
  induction s as [|a s IH]; [contradiction|]. intros _.
  destruct s as [|b s'].
  - exists "", a. reflexivity.
  - destruct IH as (stem & c & E); [discriminate|].
    exists (String a stem), c. cbn. rewrite <- E. reflexivity.
Qed.

Lemma snoc_inj (s t : string) (c d : ascii) :
  (s ++ String c "")%string = (t ++ String d "")%string -> s = t /\ c = d.
Proof.
  revert t. induction s as [|a s IH]; intros [|b t] E; cbn in E.
  - injection E as ->. auto.
  - injection E as -> E. destruct t; discriminate.
  - injection E as -> E. destruct s; discriminate.
  - injection E as -> E. destruct (IH t E) as [-> ->]. auto.
Qed.

Lemma length_snoc (stem : string) (c : ascii) :
  (String.length (stem ++ String c "") - 1)%nat = String.length stem.
Proof.
  assert (Hlen : String.length (stem ++ String c "") = S (String.length stem))
    by (induction stem as [|a stem IH]; cbn; congruence).
  rewrite Hlen. lia.
Qed.

Lemma substring_stem (stem rest : string) :
  substring 0 (String.length stem) (stem ++ rest) = stem.
Proof. induction stem as [|a stem IH]; cbn; [destruct rest; reflexivity | rewrite IH; reflexivity]. Qed.

Lemma substring_extends (stem value : string) :
  substring 0 (String.length stem) value = stem <-> exists rest, value = (stem ++ rest)%string.
Proof.
  split.
  - revert value. induction stem as [|a stem IH]; intros value E.
    + exists value. reflexivity.
    + destruct value as [|b value]; [discriminate|]. cbn in E. injection E as -> E.
      destruct (IH value E) as (rest & ->). exists rest. reflexivity.
  - intros (rest & ->). apply substring_stem.
Qed.

Lemma option_matches_accepts (option value : string) :
  option <> "" ->
  exists matched, option_matches option value = Ok matched
                  /\ (matched = true <-> accepts option value).
Proof.
  intros Hne. unfold option_matches, accepts.
  destruct (String.eqb_spec option value) as [->|Hdiff].
  - exists true. split; [reflexivity|]. split; auto.
  - destruct (nonempty_snoc option Hne) as (stem & c & ->).
    rewrite back_snoc, length_snoc, substring_stem.
    eexists. split; [reflexivity|]. rewrite andb_true_iff, Ascii.eqb_eq, String.eqb_eq.
    rewrite substring_extends. split.
    + intros (-> & rest & ->). right. exists stem, rest. auto.
    + intros [E | (stem' & rest & E & ->)]; [contradiction|].
      apply snoc_inj in E as [-> ->]. eauto.
Qed.

Lemma CheckRequirement_match_accepts (options : list string) (value : string) :
  Forall (fun option => option <> "") options ->
  exists matched, CheckRequirement_match options value = Ok matched
                  /\ (matched = true <-> Exists (fun option => accepts option value) options).
Proof.
  induction 1 as [|option rest Hne _ IH]; cbn [CheckRequirement_match].
  - exists false. split; [reflexivity|]. split; [discriminate | intros E; inversion E].
  - destruct (option_matches_accepts option value Hne) as (m & -> & Hm).
    destruct m.
    + exists true. split; [reflexivity|]. split; [|reflexivity].
      intros _. constructor. apply Hm. reflexivity.
    + destruct IH as (matched & -> & Hmatched). exists matched. split; [reflexivity|].
      rewrite Hmatched. split; [intros E; apply Exists_cons_tl; exact E|].
      intros E. apply Exists_cons in E as [E | E]; [|exact E].
      apply Hm in E. discriminate.
Qed.

(** X20: [CheckRequirement] with at least one option, none of them
    empty.  A requirement for another product is met without asking the
    device.  Otherwise the device is asked once; if it does not answer the
    requirement is not met, whether required or rejected; if it answers, a
    [require] is met exactly when some option accepts the value (the same
    string, or a stem followed by [*] that the value extends) and a [reject]
    exactly when none does. *)
Theorem CheckRequirement_accepts (cur_product var product : string) (invert : bool)
  (options : list string) (w : World) :
  options <> [] -> Forall (fun option => option <> "") options ->
  (product <> "" -> product <> cur_product ->
   CheckRequirement cur_product var product invert options w = (Ok true, w))
  /\ (product = "" \/ product = cur_product ->
      match vars w var with
      | None => CheckRequirement cur_product var product invert options w
                = (Ok false, sent var w)
      | Some value =>
          exists accepted : bool,
            CheckRequirement cur_product var product invert options w
            = (Ok (xorb invert accepted), sent var w)
            /\ (accepted = true <-> Exists (fun option => accepts option value) options)
      end).
Proof.
  intros Hsome Hne. unfold CheckRequirement. split.
  - intros Hp Hc. rewrite (eqb_neq _ _ Hp), (eqb_neq _ _ Hc). reflexivity.
  - intros Hfilter.
    assert (Hgo : negb (product =? "")%string && negb (product =? cur_product)%string = false).
    { destruct Hfilter as [-> | ->]; [reflexivity|].
      rewrite String.eqb_refl. apply andb_false_r. }
    rewrite Hgo.
    destruct (vars w var) as [value|] eqn:Hvar;
      [|unfold bind, GetVar; rewrite Hvar; reflexivity].
    destruct (CheckRequirement_match_accepts options value Hne) as (matched & Hrun & Hiff).
    exists matched. split; [|exact Hiff].
    unfold bind, GetVar, lift. rewrite Hvar, Hrun.
    destruct options; [contradiction|].
    destruct invert, matched; reflexivity.
Qed.

Lemma HandlePartitionExists_scan_spec (partition_name : string) (imgs : list Image)
  (known : bool) :
  let hit image :=
    negb (String.eqb (nickname image) "") && String.eqb (nickname image) partition_name in
  HandlePartitionExists_scan partition_name imgs known
  = (map (fun image => if hit image then make_required image else image) imgs,
     known || existsb hit imgs).
Proof.
  intros hit. revert known. induction imgs as [|image rest IH]; intros known; cbn.
  - rewrite orb_false_r. reflexivity.
  - fold (hit image). destruct (hit image); rewrite IH; cbn; [|reflexivity].
    rewrite orb_true_r. reflexivity.
Qed.

(** X21: when [HandlePartitionExists] returns, the device reported the
    partition as slotted or not, the catalog has an image with that
    nickname, every image with that nickname is now required and nothing
    else of the catalog changed; from then on [CollectTasksFromImageList]
    fails when the source cannot open the file of such an image (of a type
    other than [Extra]). *)
Theorem HandlePartitionExists_makes_image_required (partition_name : string)
  (more : list string) (imgs imgs' : list Image) (w w' : World) :
  HandlePartitionExists (partition_name :: more) imgs w = (Ok imgs', w') ->
  (vars w ("has-slot:" ++ partition_name)%string = Some "yes"
   \/ vars w ("has-slot:" ++ partition_name)%string = Some "no")
  /\ Forall2 (fun old new => new = old
                             \/ (nickname old = partition_name /\ new = make_required old))
             imgs imgs'
  /\ (exists image, image ∈ imgs' /\ nickname image = partition_name)
  /\ (forall image, image ∈ imgs' -> nickname image = partition_name ->
      optional_if_no_image image = false)
  /\ (forall (fp : FlashingPlan) (src : ImageSource) (image : Image) (w0 : World),
      image ∈ imgs' -> nickname image = partition_name -> type image <> Extra ->
      source fp = Some src -> OpenFile src (img_name image) = None ->
      exists (failure : Failure) (w1 : World),
        CollectTasksFromImageList imgs' fp w0 = (Fail failure, w1)).
Proof.
  unfold HandlePartitionExists. intros Hrun.
  apply bind_Ok_inv in Hrun as (r & w1 & Hget & Hrun).
  unfold GetVar in Hget. injection Hget as <- <-.
  rewrite HandlePartitionExists_scan_spec in Hrun. cbn [orb] in Hrun.
  set (hit := fun image : Image =>
         negb (String.eqb (nickname image) "") && String.eqb (nickname image) partition_name)
    in Hrun.
  assert (Hanswer : vars w ("has-slot:" ++ partition_name)%string = Some "yes"
                    \/ vars w ("has-slot:" ++ partition_name)%string = Some "no").
  { cbn [append]. destruct (vars w _) as [has_slot|]; [|discriminate].
    destruct (String.eqb_spec has_slot "yes") as [Hyes|Hyes]; [left; congruence|].
    destruct (String.eqb_spec has_slot "no") as [Hno|Hno]; [right; congruence | discriminate]. }
  assert (Hok : existsb hit imgs = true
                /\ imgs' = map (fun image => if hit image then make_required image else image)
                               imgs).
  { destruct (match vars w _ with Some _ => _ | None => _ end); [discriminate|].
    destruct (existsb hit imgs); [|discriminate].
    unfold ret in Hrun. injection Hrun as <- _. auto. }
  destruct Hok as [Hknown ->]. clear Hrun.
  assert (Hhit : forall image, hit image = true ->
                               nickname image = partition_name /\ partition_name <> "").
  { intros image Hi. unfold hit in Hi. apply andb_true_iff in Hi as [Hi1 Hi2].
    apply String.eqb_eq in Hi2. subst partition_name. split; [reflexivity|].
    intros E. rewrite E in Hi1. discriminate. }
  assert (Hreq : forall image,
             image ∈ map (fun image => if hit image then make_required image else image) imgs ->
             nickname image = partition_name ->
             optional_if_no_image image = false /\ partition_name <> "").
  { intros image Hin Hnick. apply list_elem_of_fmap in Hin as (old & -> & Hold).
    destruct (hit old) eqn:Hi.
    - split; [reflexivity | apply (Hhit old Hi)].
    - apply existsb_exists in Hknown as (other & _ & Hother).
      destruct (Hhit other Hother) as [_ Hne].
      exfalso. unfold hit in Hi. rewrite Hnick, String.eqb_refl, (eqb_neq _ _ Hne) in Hi.
      discriminate. }
  split; [exact Hanswer|]. split; [|split; [|split]].
  - clear Hknown Hreq. induction imgs as [|image rest IH]; cbn; constructor; [|exact IH].
    destruct (hit image) eqn:Hi; [right | left; reflexivity].
    split; [apply (Hhit image Hi) | reflexivity].
  - apply existsb_exists in Hknown as (image & Hin & Hi).
    exists (make_required image). split; [|apply (Hhit image Hi)].
    apply list_elem_of_fmap. exists image. rewrite Hi. split; [reflexivity|].
    apply list_elem_of_In. exact Hin.
  - intros image Hin Hnick. apply (Hreq image Hin Hnick).
  - intros fp src image w0 Hin Hnick Hty Hsrc Hfile.
    destruct (Hreq image Hin Hnick) as [Hopt Hne].
    assert (Hskip : IsSecondary image && skip_secondary fp = false)
      by (unfold IsSecondary; rewrite Hnick, (eqb_neq _ _ Hne); reflexivity).
    match goal with
    | |- exists failure w1, ?run = _ =>
        destruct run as [[tasks|failure] w1] eqn:Hrun; [exfalso | eauto]
    end.
    destruct (CollectImages_complete fp _ image Hin Hty Hskip) as (slot & Hslot).
    destruct (CollectTasksFromImageList_opens_required _ fp w0 w1 tasks image slot
                Hrun Hslot Hopt) as (src' & file & Hsrc' & Hfile').
    cbn [fst] in Hfile'. congruence.
Qed.

End TaskFacts.

Lemma AddResizeTasks_resizes_before_first_dynamic_flash_witness :
  let fp := Reference.plan Samples.product_out false in
  let boot := FlashTask "" "boot" "boot.img" false in
  let system := FlashTask "" "system" "system.img" false in
  let tasks := [boot; UpdateSuperTask; system] in
  let tasks' := [boot; UpdateSuperTask; ResizeTask "system" "0" ""; system] in
  let is_dynamic_flash := @is_dynamic_flash Reference.collaborators in
  (true = false -> tasks' = tasks)
  /\ (true = true ->
      exists before task after,
        tasks = before ++ task :: after
        /\ List.filter (is_dynamic_flash fp) before = []
        /\ is_dynamic_flash fp task = true
        /\ tasks' = before
                    ++ map (resize_task_for fp)
                           (List.filter (is_dynamic_flash fp) (task :: after))
                    ++ task :: after).
Proof.
  intros fp boot system tasks tasks' is_dynamic_flash.
  apply (@AddResizeTasks_resizes_before_first_dynamic_flash Reference.collaborators
           fp tasks tasks' true).
  reflexivity.
Defined.

Lemma AddFlashTasks_in_entry_order_witness :
  let fp := Reference.plan Samples.product_out false in
  let boot := mkImage "boot" "boot.img" "boot.sig" "boot" false BootCritical in
  let cache := mkImage "cache" "cache.img" "cache.sig" "cache" true Extra in
  let entries := [(cache, ""); (boot, "")] in
  let tasks' := [UpdateSuperTask; FlashTask "" "boot" "boot.img" false] in
  exists kept : list (Image * string),
    sublist kept entries
    /\ tasks' = [UpdateSuperTask] ++ map task_of_entry kept
    /\ Forall (source_opens fp) kept
    /\ (forall entry, entry ∈ entries -> entry ∉ kept ->
        optional_if_no_image (fst entry) = true).
Proof.
  intros fp boot cache entries tasks'.
  pose (w := Reference.world [("max-download-size", "4096")]).
  apply (@AddFlashTasks_in_entry_order Reference.libbase Reference.collaborators
           fp entries [UpdateSuperTask] tasks' w
           (snd (@AddFlashTasks Reference.libbase Reference.collaborators
                   fp entries [UpdateSuperTask] w))).
  apply injective_projections; [vm_compute; reflexivity | reflexivity].
Defined.

Lemma CollectTasksFromImageList_needs_required_images_witness :
  let fp := Reference.plan [] false in
  let w := Reference.world [] in
  exists (failure : Failure) (w' : World),
    @CollectTasksFromImageList Reference.libbase Reference.collaborators images fp w
    = (Fail failure, w').
Proof.
  intros fp w.
  apply (@CollectTasksFromImageList_needs_required_images
           Reference.libbase Reference.collaborators images fp
           (mkImage "boot" "boot.img" "boot.sig" "boot" false BootCritical)
           (Reference.image_source []) w);
    [apply list_elem_of_here | discriminate | reflexivity | reflexivity | reflexivity
    | reflexivity].
Defined.

Lemma ParseFlashCommand_reads_flags_anywhere_witness :
  let fp := Reference.plan [] false in
  let parts := ["--slot-other"; "boot"; "--apply-vbmeta"; "--slot-other"] in
  ParseFlashCommand fp parts = flash_command_task fp parts.
Proof.
  intros fp parts.
  apply (ParseFlashCommand_reads_flags_anywhere fp parts).
  repeat constructor; discriminate.
Defined.

Lemma ParseFastbootInfo_ignores_blank_and_comment_lines_witness :
  let fp := Reference.plan [] false in
  @ParseFastbootInfo Reference.libbase Reference.collaborators fp
    (["version 1"] ++ "  # flash the boot image" :: ["flash boot"])
  = @ParseFastbootInfo Reference.libbase Reference.collaborators fp
      (["version 1"] ++ ["flash boot"]).
Proof.
  intros fp.
  apply (@ParseFastbootInfo_ignores_blank_and_comment_lines
           Reference.libbase Reference.collaborators fp
           ["version 1"] ["flash boot"] "  # flash the boot image").
  reflexivity.
Defined.

Lemma CheckRequirement_accepts_witness :
  let w := Reference.world [("version-bootloader", "8996-012001")] in
  let options := ["1234"; "8996-*"] in
  let CheckRequirement := CheckRequirement "sailfish" "version-bootloader" "" true options in
  ("" <> "" -> "" <> "sailfish" -> CheckRequirement w = (Ok true, w))
  /\ ("" = "" \/ "" = "sailfish" ->
      match vars w "version-bootloader" with
      | None => CheckRequirement w = (Ok false, sent "version-bootloader" w)
      | Some value =>
          exists accepted : bool,
            CheckRequirement w = (Ok (xorb true accepted), sent "version-bootloader" w)
            /\ (accepted = true <-> Exists (fun option => accepts option value) options)
      end).
Proof.
  intros w options.
  apply (CheckRequirement_accepts "sailfish" "version-bootloader" "" true options w);
    [discriminate | repeat constructor; discriminate].
Defined.

Lemma HandlePartitionExists_makes_image_required_witness :
  let vendor := mkImage "vendor" "vendor.img" "vendor.sig" "vendor" true Normal in
  let other := mkImage "" "vendor_other.img" "vendor.sig" "vendor" true Normal in
  let imgs := [vendor; other] in
  let imgs' := [make_required vendor; other] in
  let w := Reference.world [("has-slot:vendor", "yes")] in
  (vars w ("has-slot:" ++ "vendor")%string = Some "yes"
   \/ vars w ("has-slot:" ++ "vendor")%string = Some "no")
  /\ Forall2 (fun old new => new = old
                             \/ (nickname old = "vendor" /\ new = make_required old))
             imgs imgs'
  /\ (exists image, image ∈ imgs' /\ nickname image = "vendor")
  /\ (forall image, image ∈ imgs' -> nickname image = "vendor" ->
      optional_if_no_image image = false)
  /\ (forall (fp : FlashingPlan) (src : ImageSource) (image : Image) (w0 : World),
      image ∈ imgs' -> nickname image = "vendor" -> type image <> Extra ->
      source fp = Some src -> OpenFile src (img_name image) = None ->
      exists (failure : Failure) (w1 : World),
        @CollectTasksFromImageList Reference.libbase Reference.collaborators imgs' fp w0
        = (Fail failure, w1)).
Proof.
  intros vendor other imgs imgs' w.
  apply (@HandlePartitionExists_makes_image_required
           Reference.libbase Reference.collaborators "vendor" [] imgs imgs' w
           (sent "has-slot:vendor" w)).
  reflexivity.
Defined.

(** ** Block sizes, fetching and flashing *)

Lemma land_pred_power_of_two (v : Z) :
  0 < v -> Z.land v (v - 1) = 0 -> v = 2 ^ Z.log2 v.
Proof.
  intros Hpos Hland.
  destruct (Z.log2_spec v Hpos) as [Hlow Hhigh].
  destruct (Z.eq_dec v (2 ^ Z.log2 v)) as [E | Hne]; [exact E | exfalso].
  assert (Hlog : Z.log2 (v - 1) = Z.log2 v).
  { apply Z.log2_unique; [apply Z.log2_nonneg|].
    revert Hlow Hhigh Hne. generalize (2 ^ Z.log2 v), (2 ^ Z.succ (Z.log2 v)). lia. }
  assert (Hbit : Z.testbit (Z.land v (v - 1)) (Z.log2 v) = true).
  { rewrite Z.land_spec, (Z.bit_log2 v Hpos).
    rewrite <- Hlog. apply Z.bit_log2.
    pose proof (Z.pow_pos_nonneg 2 (Z.log2 v) ltac:(lia) (Z.log2_nonneg v)). lia. }
  rewrite Hland, Z.bits_0 in Hbit. discriminate.
Qed.

Section DrivingFacts.
Context `{LibBase} `{Collaborators} `{!Driver}.

Lemma get_uint_var_range (var_name : string) (w : World) :
  (forall s v, ParseUint64 s = Some v -> 0 <= v < 2 ^ 64) ->
  exists value w', get_uint_var var_name w = (Ok value, w') /\ 0 <= value < 2 ^ 64.
Proof.
  intros Hrange. unfold get_uint_var, bind, GetVar, ret.
  destruct (vars w var_name) as [value_str|]; [|eexists _, _; split; [reflexivity | lia]].
  destruct (String.eqb value_str ""); [eexists _, _; split; [reflexivity | lia]|].
  destruct (ParseUint64 (Trim value_str)) as [value|] eqn:Hparse;
    [|eexists _, _; split; [reflexivity | lia]].
  eexists _, _. split; [reflexivity | apply (Hrange _ _ Hparse)].
Qed.

Lemma get_partition_size_range (partition : string) (w : World) :
  (forall s v, ParseUint64 s = Some v -> 0 <= v < 2 ^ 64) ->
  match get_partition_size partition w with
  | (Ok size, _) => 0 <= size < 2 ^ 64
  | (Fail failure, _) => exists msg, failure = Died msg
  end.
Proof.
  intros Hrange. unfold get_partition_size.
  assert (Hrest : forall msg w1,
            match (logical <- is_logical partition ;;
                   if logical : bool then die msg else ret 0) w1 with
            | (Ok size, _) => 0 <= size < 2 ^ 64
            | (Fail failure, _) => exists msg, failure = Died msg
            end).
  { intros msg w1. destruct (is_logical_sent partition w1) as (logical & Hlog).
    rewrite (bind_Ok _ _ _ _ _ Hlog). destruct logical; cbn; [eauto | lia]. }
  unfold bind at 1. unfold GetVar at 1.
  destruct (vars w _) as [reported|]; [|apply Hrest].
  destruct (ParseUint64 (fb_fix_numeric_var reported)) as [size|] eqn:Hparse; [|apply Hrest].
  cbn. apply (Hrange _ _ Hparse).
Qed.

(** X22: provided [ParseUint] yields numbers that fit [unsigned],
    [fb_get_flash_block_size] always returns, asks the device for the one
    variable, and its result is 0 or a power of two below 2^32. *)
Theorem fb_get_flash_block_size_power_of_two (name : string) (w : World) :
  ParseUint_in_range ->
  exists size : Z,
    fb_get_flash_block_size name w = (Ok size, sent name w)
    /\ (size = 0 \/ exists k, 0 <= k < 32 /\ size = 2 ^ k).
Proof.
  intros [Hrange _]. unfold fb_get_flash_block_size, bind, GetVar, ret.
  destruct (vars w name) as [sizeString|]; [|eauto].
  destruct (String.eqb sizeString ""); [eauto|].
  destruct (ParseUint32 (fb_fix_numeric_var sizeString)) as [size|] eqn:Hparse; [|eauto].
  apply Hrange in Hparse.
  destruct (Z.eqb_spec (Z.land size ((size - 1) mod 2 ^ 32)) 0) as [Hland|]; [|eauto].
  cbn [negb]. exists size. split; [reflexivity|].
  destruct (Z.eq_dec size 0) as [-> | Hnz]; [left; reflexivity | right].
  rewrite Z.mod_small in Hland by lia.
  exists (Z.log2 size).
  pose proof (land_pred_power_of_two size ltac:(lia) Hland) as Hpow.
  split; [|exact Hpow].
  split; [apply Z.log2_nonneg|].
  apply Z.log2_lt_pow2; lia.
Qed.

Lemma fetch_partition_loop_tiles (partition : string) (fetch_size partition_size : Z)
  (rounds : nat) (offset : Z) (w : World) :
  0 < fetch_size -> 0 <= offset <= partition_size -> partition_size < 2 ^ 64 ->
  partition_size - offset <= Z.of_nat rounds ->
  match fetch_partition_loop rounds partition fetch_size partition_size offset w with
  | (Ok requests, w') =>
      tiles fetch_size offset requests partition_size
      /\ Forall (fun request => FetchToFd partition (fst request) (snd request) = true)
                requests
      /\ w' = w
  | (Fail failure, _) => failure = Died ("Unable to fetch " ++ partition)
  end.
Proof.
  intros Hfetch. revert offset w.
  induction rounds as [|rounds IH]; intros offset w Hoffset Hsize Hrounds.
  - cbn [fetch_partition_loop]. destruct (Z.ltb_spec offset partition_size); [lia|].
    cbn. repeat split; auto. lia.
  - cbn [fetch_partition_loop]. destruct (Z.ltb_spec offset partition_size) as [Hlt|Hge].
    + assert (Hleft : C.to_uint64 (partition_size - offset) = partition_size - offset)
        by (unfold C.to_uint64; rewrite Z.mod_small; lia).
      rewrite Hleft.
      set (chunk_size := Z.min fetch_size (partition_size - offset)).
      assert (Hchunk : 0 < chunk_size <= partition_size - offset) by (unfold chunk_size; lia).
      assert (Hnext : C.to_uint64 (offset + chunk_size) = offset + chunk_size)
        by (unfold C.to_uint64; rewrite Z.mod_small; lia).
      rewrite Hnext.
      destruct (FetchToFd partition offset chunk_size) eqn:Hok; [|reflexivity].
      specialize (IH (offset + chunk_size) w ltac:(lia) Hsize ltac:(lia)).
      unfold bind.
      destruct (fetch_partition_loop rounds partition fetch_size partition_size
                  (offset + chunk_size) w) as [[requests|failure] w'] eqn:Hrest;
        [|exact IH].
      destruct IH as (Htiles & Hall & ->). cbn [ret tiles].
      split; [|split; [constructor; [exact Hok | exact Hall] | reflexivity]].
      split; [reflexivity|]. split; [unfold chunk_size; lia|]. split; [|exact Htiles].
      intros Hmore. destruct (Z.eq_dec chunk_size fetch_size) as [E | Hne]; [exact E|].
      exfalso. apply Hmore. destruct requests as [|[o c] rest]; [reflexivity|].
      cbn [tiles] in Htiles. destruct Htiles as (_ & Hc & _ & Hrest').
      assert (Hend : offset + chunk_size = partition_size) by (unfold chunk_size in *; lia).
      clear - Hrest' Hc Hend. rewrite Hend in Hrest'.
      assert (Hmono : forall l from, tiles fetch_size from l partition_size ->
                                     from <= partition_size).
      { induction l as [|[o' c'] l IHl]; intros from Hl; cbn in Hl; [lia|].
        destruct Hl as (_ & Hc' & _ & Hl). apply IHl in Hl. lia. }
      apply Hmono in Hrest'. lia.
    + cbn. repeat split; auto. lia.
Qed.

(** X23: provided [ParseUint] yields numbers that fit [uint64_t],
    [fetch_partition] either dies with a message or returns a positive
    partition size after requests that read the partition from offset 0 to
    its end in order, without gap or overlap, all of which succeeded, each of
    at most the [max-fetch-size] the device reported and all but the last of
    exactly that size. *)
Theorem fetch_partition_tiles_the_partition (partition : string) (w : World) :
  ParseUint_in_range ->
  match fetch_partition partition w with
  | (Ok (partition_size, requests), _) =>
      0 < partition_size
      /\ exists fetch_size,
           0 < fetch_size
           /\ fst (get_uint_var FB_VAR_MAX_FETCH_SIZE w) = Ok fetch_size
           /\ tiles fetch_size 0 requests partition_size
           /\ Forall (fun request => FetchToFd partition (fst request) (snd request) = true)
                     requests
  | (Fail failure, _) => exists msg, failure = Died msg
  end.
Proof.
  intros [_ Hrange]. unfold fetch_partition.
  destruct (get_uint_var_range FB_VAR_MAX_FETCH_SIZE w Hrange) as (fetch_size & w1 & Hvar & Hfs).
  unfold bind at 1. rewrite Hvar.
  destruct (Z.eqb_spec fetch_size 0) as [|Hnz]; [cbn; eauto|].
  pose proof (get_partition_size_range partition w1 Hrange) as Hps.
  unfold bind at 1.
  destruct (get_partition_size partition w1) as [[partition_size|failure] w2];
    [|exact Hps].
  destruct (Z.leb_spec partition_size 0) as [|Hpos]; [cbn; eauto|].
  pose proof (fetch_partition_loop_tiles partition fetch_size partition_size
                (Z.to_nat partition_size) 0 w2 ltac:(lia) ltac:(lia) ltac:(lia) ltac:(lia))
    as Hloop.
  unfold bind.
  destruct (fetch_partition_loop _ _ _ _ _ w2) as [[requests|failure] w3]; [|eauto].
  destruct Hloop as (Htiles & Hall & ->). cbn [ret].
  split; [lia|]. exists fetch_size. repeat split; auto; lia.
Qed.

Lemma has_vbmeta_partition_none (w : World) :
  no_vbmeta_partition w ->
  has_vbmeta_partition w
  = (Ok false, sent "partition-type:vbmeta_b"
                 (sent "partition-type:vbmeta_a" (sent "partition-type:vbmeta" w))).
Proof.
  intros (Ha & Hb & Hc). unfold has_vbmeta_partition, bind, GetVar, ret.
  rewrite Ha. cbn [vars sent]. rewrite Hb. cbn [vars sent]. rewrite Hc. reflexivity.
Qed.

(** X24: flashing a boot image with disable-verity or
    disable-verification requested, on a device without a vbmeta partition:
    when the image ends in an AVB footer and is smaller than its physical
    partition, [flash_buf] sends one file of the size of the partition; the
    footer stands at its end, the byte at offset 123 of the vbmeta struct
    named by the footer is the old byte or-ed with the requested flags, every
    other byte before the old footer is as it was, and the bytes between the
    old end and the new footer are zero. *)
Theorem flash_buf_boot_footer_and_flags (source : option ImageSource) (partition : string)
  (buf : fastboot_buffer) (w : World) (size vbmeta_offset : Z) :
  flash_capturer w = false ->
  g_disable_verity w || g_disable_verification w = true ->
  partition = "boot" \/ partition = "boot_a" \/ partition = "boot_b" ->
  no_vbmeta_partition w ->
  boot_image_with_footer buf vbmeta_offset ->
  physical_partition source partition size w ->
  sz buf < size < 2 ^ 63 ->
  let pos := Z.to_nat (vbmeta_offset + 123) in
  exists (data : list byte) (old new : byte),
    fst (flash_buf source partition buf false w) = Ok [FlashPartitionFd partition data size]
    /\ Z.of_nat (length data) = size
    /\ drop (Z.to_nat (size - AVB_FOOTER_SIZE)) data
       = drop (Z.to_nat (sz buf - AVB_FOOTER_SIZE)) (fd buf)
    /\ fd buf !! pos = Some old /\ data !! pos = Some new
    /\ Byte.to_N new = N.lor (Byte.to_N old) (requested_flags w)
    /\ (forall i, (i < Z.to_nat (sz buf - AVB_FOOTER_SIZE))%nat -> i <> pos ->
        data !! i = fd buf !! i)
    /\ (forall i, (Z.to_nat (sz buf) <= i < Z.to_nat (size - AVB_FOOTER_SIZE))%nat ->
        data !! i = Some x00).
Proof.
  intros Hcap Hflags Hboot Hnovb
         (Hbt & Hft & Hlen & Hsz & Hfooter & Hoffset & Hnonneg & Hinside & Hmagic)
         (Hlog & Huser & reported & Hrep & Hparse) Hsize pos.
  unfold AVB_FOOTER_SIZE, AvbFooter_vbmeta_offset in *.
  (* the footer is moved to the end of the partition *)
  set (w1 := sent ("partition-size:" ++ partition)%string
               (sent ("is-logical:" ++ partition)%string w)).
  assert (Hil : is_logical partition w
                = (Ok false, sent ("is-logical:" ++ partition)%string w)).
  { unfold is_logical, bind, GetVar, ret.
    destruct (vars w _) as [value|]; [|reflexivity].
    destruct (String.eqb_spec value "yes") as [->|]; [contradiction | reflexivity]. }
  assert (Hps : get_partition_size partition (snd (is_logical partition w)) = (Ok size, w1)).
  { rewrite Hil. unfold get_partition_size, bind, GetVar, ret. cbn [snd vars sent].
    rewrite Hrep, Hparse. reflexivity. }
  pose proof (copy_avb_footer_writes_footer source partition buf w w1 size
                ltac:(unfold AVB_FOOTER_SIZE; lia) Hlen Hft ltac:(rewrite Hil; reflexivity)
                Huser Hps Hsize Hfooter) as Hcopy.
  unfold AVB_FOOTER_SIZE in Hcopy.
  set (footer := drop (Z.to_nat (sz buf - 64)) (fd buf)) in *.
  assert (Hflength : Z.of_nat (length footer) = 64)
    by (unfold footer; rewrite length_drop; lia).
  destruct (write_footer_at_past_end (fd buf) footer (size - 64) ltac:(lia) ltac:(lia))
    as (Hflen & Hfdrop & Hftake' & Hfzero').
  set (file := write_footer_at (fd buf) (size - 64) footer) in *.
  assert (Hftake : take (Z.to_nat (sz buf - 64)) file = take (Z.to_nat (sz buf - 64)) (fd buf))
    by (apply Hftake'; lia).
  assert (Hfzero : forall i, (Z.to_nat (sz buf) <= i < Z.to_nat (size - 64))%nat ->
                             file !! i = Some x00)
    by (intros i Hi; apply Hfzero'; lia).
  assert (Hpayload : forall i, (i < Z.to_nat (sz buf - 64))%nat -> file !! i = fd buf !! i).
  { intros i Hi. rewrite <- (lookup_take_lt file (Z.to_nat (sz buf - 64)) i) by exact Hi.
    rewrite Hftake. apply lookup_take_lt. exact Hi. }
  set (buf1 := mkBuffer (buf_type buf) (file_type buf) (files buf) size file (image_size buf))
    in Hcopy.
  set (w2 := sent "partition-type:vbmeta_b"
               (sent "partition-type:vbmeta_a" (sent "partition-type:vbmeta" w1))).
  (* the vbmeta struct is found through the footer at its new place *)
  assert (Hloc : locate_vbmeta buf1 true w2 = (Ok vbmeta_offset, w2)).
  { unfold locate_vbmeta, AVB_FOOTER_SIZE, AvbFooter_vbmeta_offset. cbn [sz fd buf1].
    assert (Hfo : C.to_uint64 (size - 64) = size - 64)
      by (unfold C.to_uint64; rewrite Z.mod_small; lia).
    rewrite Hfo. unfold bind, lift. change AVB_FOOTER_MAGIC_LEN with 4.
    rewrite (compare_eq_magic file (size - 64) AVB_FOOTER_MAGIC)
      by (auto; try lia; rewrite Hfdrop; exact Hfooter).
    unfold read_be64. destruct (Z.leb_spec (size - 64 + 20 + 8) (Z.of_nat (length file) + 1));
      [|lia].
    f_equal. f_equal. rewrite <- Hoffset. f_equal.
    replace (Z.to_nat (size - 64 + 20)) with (Z.to_nat (size - 64) + 20)%nat by lia.
    replace (Z.to_nat (sz buf - 64 + 20)) with (Z.to_nat (sz buf - 64) + 20)%nat by lia.
    rewrite <- !drop_drop, drop_app_le by lia. rewrite Hfdrop. fold footer.
    rewrite drop_app_le by lia.
    apply take_app_le. rewrite length_drop. lia. }
  assert (Hcarries : carries_vbmeta (fd buf1) vbmeta_offset).
  { cbn [fd buf1]. repeat split; try lia.
    rewrite <- Hmagic.
    apply (take_drop_agree file (fd buf) (Z.to_nat (sz buf - 64))); [exact Hpayload | lia]. }
  destruct (rewrite_vbmeta_buffer_or_flags buf1 true w2 vbmeta_offset
              ltac:(cbn [sz buf1]; lia) Hloc Hcarries)
    as (data & old & new & Hrewrite & Hold & Hnew & Hor & Hothers & Hdlen).
  cbn [fd buf1] in Hold, Hothers, Hdlen. fold pos in Hold, Hnew, Hothers.
  assert (Hposlt : (pos < Z.to_nat (sz buf - 64))%nat) by (unfold pos; lia).
  exists data, old, new.
  split; [|split; [lia|split; [|split; [|split; [exact Hnew|split; [exact Hor|split]]]]]].
  - unfold flash_buf.
    unfold bind at 1. unfold has_flash_capturer at 1. unfold get at 1. rewrite Hcap.
    rewrite (bind_Ok _ _ _ _ _ Hcopy).
    unfold bind at 1. unfold get at 1. unfold bind at 1. unfold get at 1.
    change (g_disable_verity w1) with (g_disable_verity w).
    change (g_disable_verification w1) with (g_disable_verification w).
    rewrite Hflags.
    assert (Hnovb1 : no_vbmeta_partition w1) by exact Hnovb.
    unfold bind at 1. unfold bind at 1.
    rewrite (has_vbmeta_partition_none w1 Hnovb1).
    assert (Hpart : (partition =? "boot")%string || (partition =? "boot_a")%string
                    || (partition =? "boot_b")%string = true)
      by (destruct Hboot as [-> | [-> | ->]]; reflexivity).
    rewrite Hpart. cbn [negb andb]. fold w2. rewrite Hrewrite.
    cbn [buf_type with_fd buf1]. rewrite Hbt. reflexivity.
  - apply list_eq. intros i. rewrite !lookup_drop.
    rewrite Hothers by lia. rewrite <- !lookup_drop. rewrite Hfdrop. reflexivity.
  - rewrite <- Hold. symmetry. apply Hpayload. exact Hposlt.
  - intros i Hi Hne. rewrite Hothers by exact Hne. apply Hpayload. exact Hi.
  - intros i Hi. rewrite Hothers by lia. apply Hfzero. exact Hi.
Qed.

Lemma remove_if_keeps_static_flash_tasks (fp : FlashingPlan) (tasks kept : list Task)
  (w w' : World) :
  remove_if (is_non_static_flash_task fp) tasks w = (Ok kept, w') ->
  sublist kept tasks /\ Forall (fun task => AsFlashTask task = true) kept.
Proof.
  revert kept w w'. induction tasks as [|task rest IH]; intros kept w w' Hrun.
  - cbn in Hrun. unfold ret in Hrun. injection Hrun as <- _. split; constructor.
  - cbn [remove_if] in Hrun.
    apply bind_Ok_inv in Hrun as (remove & w1 & Hpred & Hrun).
    apply bind_Ok_inv in Hrun as (rest' & w2 & Hrest & Hrun).
    unfold ret in Hrun. injection Hrun as <- _.
    destruct (IH _ _ _ Hrest) as [Hsub Hall].
    destruct remove; [split; [constructor; exact Hsub | exact Hall]|].
    split; [constructor; exact Hsub|]. constructor; [|exact Hall].
    unfold is_non_static_flash_task in Hpred.
    destruct (AsFlashTask task); [reflexivity|].
    unfold ret in Hpred. discriminate.
Qed.

(** X25: with dynamic partitions excluded, the list returned by
    [CollectTasks] holds flash tasks only (no reboot, wipe, resize or
    update-super task), and it is a sublist of the list that the chosen
    strategy collected. *)
Theorem CollectTasks_excluding_dynamic_partitions (imgs : list Image) (fp : FlashingPlan)
  (should_use_fastboot_info : bool) (tasks : list Task) (w w' : World) :
  CollectTasks imgs fp should_use_fastboot_info true w = (Ok tasks, w') ->
  Forall (fun task => AsFlashTask task = true) tasks
  /\ exists (all : list Task) (w1 : World),
       (if should_use_fastboot_info then CollectTasksFromFastbootInfo imgs fp
        else CollectTasksFromImageList imgs fp) w = (Ok all, w1)
       /\ sublist tasks all.
Proof.
  unfold CollectTasks. intros Hrun.
  apply bind_Ok_inv in Hrun as (all & w1 & Hall & Hrun).
  apply remove_if_keeps_static_flash_tasks in Hrun as [Hsub Hflash].
  split; [exact Hflash|]. exists all, w1. split; [exact Hall | exact Hsub].
Qed.

Lemma testbit_lor_bit (flags bit n : Z) :
  0 <= bit -> Z.testbit (Z.lor flags (Z.shiftl 1 bit)) n = Z.testbit flags n || (bit =? n).
Proof.
  intros Hbit. rewrite Z.lor_spec, Z.shiftl_1_l.
  destruct (Z.neg_nonneg_cases n) as [Hneg | Hn].
  - rewrite !Z.testbit_neg_r by exact Hneg.
    destruct (Z.eqb_spec bit n); [lia | reflexivity].
  - rewrite Z.pow2_bits_eqb by exact Hbit. reflexivity.
Qed.

Lemma fs_option_bit_inj (a b : string) (bit : Z) :
  fs_options_distinct ->
  fs_option_bit a = Some bit -> fs_option_bit b = Some bit -> a = b.
Proof.
  intros (_ & _ & _ & H12 & H13 & H23). unfold fs_option_bit.
  destruct (String.eqb_spec a "casefold") as [->|];
    [|destruct (String.eqb_spec a "projid") as [->|];
      [|destruct (String.eqb_spec a "compress") as [->|]; [|discriminate]]];
    (destruct (String.eqb_spec b "casefold") as [->|];
      [|destruct (String.eqb_spec b "projid") as [->|];
        [|destruct (String.eqb_spec b "compress") as [->|]; [|discriminate]]]);
    intros Ha Hb; try reflexivity; exfalso; congruence.
Qed.

Lemma ParseFsOption_loop_bits (options : list string) (fsOptions : Z) :
  fs_options_distinct ->
  match ParseFsOption_loop options fsOptions with
  | Ok flags =>
      Forall (fun name => fs_option_bit name <> None) options
      /\ forall n, Z.testbit flags n = true <->
                   Z.testbit fsOptions n = true
                   \/ exists name, name ∈ options /\ fs_option_bit name = Some n
  | Fail failure =>
      exists name, name ∈ options /\ fs_option_bit name = None
                   /\ failure = Exited 1 [("fastboot: usage: unsupported options: " ++ name)%string]
  end.
Proof.
  intros Hdistinct. pose proof Hdistinct as (Hc & Hp & Hz & _).
  revert fsOptions. induction options as [|name rest IH]; intros fsOptions.
  - cbn. split; [constructor|]. intros n. split; [auto|].
    intros [Hn | (name & Hin & _)]; [exact Hn | inversion Hin].
  - cbn [ParseFsOption_loop].
    assert (Hstep : forall bit, 0 <= bit -> fs_option_bit name = Some bit ->
              match ParseFsOption_loop rest (Z.lor fsOptions (Z.shiftl 1 bit)) with
              | Ok flags =>
                  Forall (fun name => fs_option_bit name <> None) (name :: rest)
                  /\ forall n, Z.testbit flags n = true <->
                               Z.testbit fsOptions n = true
                               \/ exists name', name' ∈ name :: rest
                                                /\ fs_option_bit name' = Some n
              | Fail failure =>
                  exists name', name' ∈ name :: rest /\ fs_option_bit name' = None
                    /\ failure = Exited 1 [("fastboot: usage: unsupported options: "
                                            ++ name')%string]
              end).
    { intros bit Hbit Hname. specialize (IH (Z.lor fsOptions (Z.shiftl 1 bit))).
      destruct (ParseFsOption_loop rest _) as [flags|failure].
      - destruct IH as [Hall Hbits]. split; [constructor; [congruence | exact Hall]|].
        intros n. rewrite Hbits, testbit_lor_bit, orb_true_iff, Z.eqb_eq by exact Hbit.
        split.
        + intros [[Hn | <-] | (name' & Hin & Hn)]; [auto | right | right].
          * exists name. split; [apply list_elem_of_here | exact Hname].
          * exists name'. split; [apply list_elem_of_further, Hin | exact Hn].
        + intros [Hn | (name' & Hin & Hn)]; [auto|].
          apply elem_of_cons in Hin as [-> | Hin]; [left; right; congruence|].
          right. eauto.
      - destruct IH as (name' & Hin & Hnone & ->).
        exists name'. split; [apply list_elem_of_further, Hin | auto]. }
    destruct (String.eqb name "casefold") eqn:E1;
      [apply Hstep; [lia | unfold fs_option_bit; rewrite E1; reflexivity]|].
    destruct (String.eqb name "projid") eqn:E2;
      [apply Hstep; [lia | unfold fs_option_bit; rewrite E1, E2; reflexivity]|].
    destruct (String.eqb name "compress") eqn:E3;
      [apply Hstep; [lia | unfold fs_option_bit; rewrite E1, E2, E3; reflexivity]|].
    exists name. split; [apply list_elem_of_here|].
    split; [unfold fs_option_bit; rewrite E1, E2, E3; reflexivity | reflexivity].
Qed.

(** X26: provided the three option bits of [fs.h] are different bits
    below bit 31, [ParseFsOption] returns exactly when every piece of the
    comma-separated argument is [casefold], [projid] or [compress], and then
    the bit of an option is set in the result if and only if the option is
    named; otherwise it exits with status 1 after naming an unsupported
    piece. *)
Theorem ParseFsOption_bits (arg : string) :
  fs_options_distinct ->
  match ParseFsOption arg with
  | Ok flags =>
      Forall (fun name => fs_option_bit name <> None) (Split arg ",")
      /\ forall name bit, fs_option_bit name = Some bit ->
                          (Z.testbit flags bit = true <-> name ∈ Split arg ",")
  | Fail failure =>
      exists name, name ∈ Split arg "," /\ fs_option_bit name = None
                   /\ failure = Exited 1 [("fastboot: usage: unsupported options: " ++ name)%string]
  end.
Proof.
  intros Hdistinct. unfold ParseFsOption.
  destruct (Split arg ",") as [|first rest] eqn:Hsplit;
    [exfalso; exact (Split_from_nonempty _ _ _ Hsplit)|].
  cbn [length Nat.ltb Nat.leb].
  pose proof (ParseFsOption_loop_bits (first :: rest) 0 Hdistinct) as Hloop.
  destruct (ParseFsOption_loop (first :: rest) 0) as [flags|failure]; [|exact Hloop].
  destruct Hloop as [Hall Hbits]. split; [exact Hall|].
  intros name bit Hname. rewrite Hbits, Z.bits_0. split.
  - intros [Habs | (name' & Hin & Hbit)]; [discriminate|].
    rewrite (fs_option_bit_inj name name' bit Hdistinct Hname Hbit). exact Hin.
  - intros Hin. right. eauto.
Qed.

End DrivingFacts.

Lemma parse_digits_nonneg (s : string) (acc v : Z) :
  0 <= acc -> Reference.parse_digits s acc = Some v -> 0 <= v.
Proof.
  revert acc. induction s as [|c s IH]; intros acc Hacc; cbn [Reference.parse_digits].
  - intros E. injection E as <-. exact Hacc.
  - unfold Reference.digit_value.
    destruct (_ && _) eqn:Hdigit; [|discriminate].
    apply IH. apply andb_true_iff in Hdigit as [Hlow _]. lia.
Qed.

Lemma parse_decimal_range (max : Z) (s : string) (v : Z) :
  Reference.parse_decimal max s = Some v -> 0 <= v <= max.
Proof.
  unfold Reference.parse_decimal. destruct s as [|c s]; [discriminate|].
  destruct (Reference.parse_digits (String c s) 0) as [n|] eqn:Hdigits; [|discriminate].
  destruct (Z.leb_spec n max); [|discriminate].
  intros E. injection E as <-.
  apply parse_digits_nonneg in Hdigits; lia.
Qed.

Lemma Reference_ParseUint_in_range : @ParseUint_in_range Reference.libbase.
Proof.
  split; intros s v Hparse; apply parse_decimal_range in Hparse; lia.
Qed.

Lemma fb_get_flash_block_size_power_of_two_witness :
  let w := Reference.world [("erase-block-size", "4096")] in
  exists size : Z,
    @fb_get_flash_block_size Reference.libbase Reference.collaborators "erase-block-size" w
    = (Ok size, sent "erase-block-size" w)
    /\ (size = 0 \/ exists k, 0 <= k < 32 /\ size = 2 ^ k).
Proof.
  intros w.
  apply (@fb_get_flash_block_size_power_of_two Reference.libbase Reference.collaborators
           "erase-block-size" w).
  exact Reference_ParseUint_in_range.
Defined.

Lemma fetch_partition_tiles_the_partition_witness :
  let w := Reference.world [("max-fetch-size", "64"); ("partition-size:boot", "150")] in
  match @fetch_partition Reference.libbase Reference.collaborators ReferenceDriver.driver
          "boot" w with
  | (Ok (partition_size, requests), _) =>
      0 < partition_size
      /\ exists fetch_size,
           0 < fetch_size
           /\ fst (@get_uint_var Reference.libbase
                     (@FB_VAR_MAX_FETCH_SIZE _ ReferenceDriver.driver) w) = Ok fetch_size
           /\ tiles fetch_size 0 requests partition_size
           /\ Forall (fun request =>
                        @FetchToFd _ ReferenceDriver.driver "boot" (fst request) (snd request)
                        = true)
                     requests
  | (Fail failure, _) => exists msg, failure = Died msg
  end.
Proof.
  intros w.
  apply (@fetch_partition_tiles_the_partition Reference.libbase Reference.collaborators
           ReferenceDriver.driver "boot" w).
  exact Reference_ParseUint_in_range.
Defined.

Lemma flash_buf_boot_footer_and_flags_witness :
  let buf := Samples.boot_buffer in
  let w := mkWorld (Reference.device [("partition-size:boot", "512")]) [] (-1)
                   false true true in
  let pos := Z.to_nat (64 + 123) in
  exists (data : list byte) (old new : byte),
    fst (@flash_buf Reference.libbase Reference.collaborators ReferenceDriver.driver
           None "boot" buf false w)
    = Ok [FlashPartitionFd "boot" data 512]
    /\ Z.of_nat (length data) = 512
    /\ drop (Z.to_nat (512 - AVB_FOOTER_SIZE)) data
       = drop (Z.to_nat (sz buf - AVB_FOOTER_SIZE)) (fd buf)
    /\ fd buf !! pos = Some old /\ data !! pos = Some new
    /\ Byte.to_N new = N.lor (Byte.to_N old) (requested_flags w)
    /\ (forall i, (i < Z.to_nat (sz buf - AVB_FOOTER_SIZE))%nat -> i <> pos ->
        data !! i = fd buf !! i)
    /\ (forall i, (Z.to_nat (sz buf) <= i < Z.to_nat (512 - AVB_FOOTER_SIZE))%nat ->
        data !! i = Some x00).
Proof.
  intros buf w pos.
  apply (@flash_buf_boot_footer_and_flags Reference.libbase Reference.collaborators
           ReferenceDriver.driver None "boot" buf w 512 64).
  - reflexivity.
  - reflexivity.
  - left. reflexivity.
  - repeat split; reflexivity.
  - unfold boot_image_with_footer, AVB_FOOTER_SIZE.
    repeat split; try reflexivity; simpl; lia.
  - split; [simpl; discriminate|]. split; [reflexivity|].
    exists "512". split; reflexivity.
  - simpl. lia.
Defined.

Lemma CollectTasks_excluding_dynamic_partitions_witness :
  let fp := Reference.plan Samples.product_out false in
  let w := Reference.world [("max-download-size", "4096")] in
  let tasks :=
    [FlashTask "" "boot" "boot.img" false; FlashTask "" "vbmeta" "vbmeta.img" true;
     FlashTask "" "system" "system.img" false] in
  Forall (fun task => AsFlashTask task = true) tasks
  /\ exists (all : list Task) (w1 : World),
       @CollectTasksFromImageList Reference.libbase Reference.collaborators images fp w
       = (Ok all, w1)
       /\ sublist tasks all.
Proof.
  intros fp w tasks.
  apply (@CollectTasks_excluding_dynamic_partitions
           Reference.libbase Reference.collaborators ReferenceDriver.driver
           images fp false tasks w
           (snd (@CollectTasks Reference.libbase Reference.collaborators
                   ReferenceDriver.driver images fp false true w))).
  apply injective_projections; [vm_compute; reflexivity | reflexivity].
Defined.

Lemma ParseFsOption_bits_witness :
  match @ParseFsOption Reference.collaborators ReferenceDriver.driver "casefold,compress" with
  | Ok flags =>
      Forall (fun name => @fs_option_bit _ ReferenceDriver.driver name <> None)
             (Split "casefold,compress" ",")
      /\ forall name bit, @fs_option_bit _ ReferenceDriver.driver name = Some bit ->
                          (Z.testbit flags bit = true <-> name ∈ Split "casefold,compress" ",")
  | Fail failure =>
      exists name, name ∈ Split "casefold,compress" ","
                   /\ @fs_option_bit _ ReferenceDriver.driver name = None
                   /\ failure = Exited 1 [("fastboot: usage: unsupported options: " ++ name)%string]
  end.
Proof.
  apply (@ParseFsOption_bits Reference.collaborators ReferenceDriver.driver
           "casefold,compress").
  repeat split; simpl; lia.
Defined.
